(** * Run/state orchestration core of Airflow: a shallow embedding

    The development follows four source files:
    - [airflow/models/mappedoperator.py]   ([MappedOperator.expand_mapped_task]),
    - [airflow/models/taskinstancehistory.py] ([TaskInstanceHistory.record_ti]),
    - [airflow/sensors/base.py]            ([BaseSensorOperator.execute] and
                                            [_get_next_poke_interval]),
    - [airflow/api/common/mark_tasks.py]   ([set_state] and its helpers).

    The SQLAlchemy session is an explicit store that every operation
    threads; a raised exception is a value of [exn] returned next to the
    store as it was when the exception left the function. *)

From stdpp Require Import gmap strings list fin_maps sorting pretty.
From Stdlib Require Import ZArith QArith Qabs Qround Qminmax Lqa Lia.

Local Open Scope Z_scope.

(** ** States, exceptions, rows *)

(** The values of [airflow.utils.state.TaskInstanceState]; the SQL NULL
    state is [None] of an [option TaskInstanceState]. *)
Inductive TaskInstanceState : Set :=
| SCHEDULED | QUEUED | RUNNING | SUCCESS | FAILED | SKIPPED
| REMOVED | UP_FOR_RETRY | UP_FOR_RESCHEDULE.

#[global] Instance TaskInstanceState_eq_dec : EqDecision TaskInstanceState.
Proof. solve_decision. Defined.

(** The exceptions the modelled functions raise. [IntegrityError] is the
    store refusing a second row under a unique key; [TypeError] is Python
    refusing [None + 1]. *)
Inductive exn : Set :=
| RuntimeError (msg : string)
| ValueError (msg : string)
| TypeError (msg : string)
| IntegrityError (msg : string).

(** The outcome of a call: the value returned or the exception raised. *)
Inductive outcome (A : Type) : Type :=
| Returned (a : A)
| Raised (e : exn).
Arguments Returned {A} a.
Arguments Raised {A} e.

(** Primary key of the [task_instance] table:
    (dag_id, task_id, run_id, map_index). *)
Abbreviation TIKey := (string * string * string * Z)%type.

(** The non-key columns of a task instance the core reads or writes.
    Dates are instants on an integer time line. *)
Record TIRow : Set := mkTIRow {
  state : option TaskInstanceState;
  try_number : Z;
  start_date : option Z;
  end_date : option Z;
  duration : option Z;
}.

#[global] Instance TIRow_eq_dec : EqDecision TIRow.
Proof. solve_decision. Defined.

Definition set_row_state (st : option TaskInstanceState) (r : TIRow) : TIRow :=
  {| state := st; try_number := try_number r; start_date := start_date r;
     end_date := end_date r; duration := duration r |}.

Definition set_row_end_date (d : option Z) (r : TIRow) : TIRow :=
  {| state := state r; try_number := try_number r; start_date := start_date r;
     end_date := d; duration := duration r |}.

(** Modelled from the spec: [TaskInstance.set_duration] of
    [airflow/models/taskinstance.py], which is not among the sources. The
    spec has the duration recomputed when an end date is stamped: it is the
    time from [start_date] to [end_date], and none when one of them is
    missing. *)
Definition set_duration (r : TIRow) : TIRow :=
  {| state := state r; try_number := try_number r; start_date := start_date r;
     end_date := end_date r;
     duration := match end_date r, start_date r with
                 | Some e, Some b => Some (e - b)
                 | _, _ => None
                 end |}.

(** A task instance as the ORM hands it out: key and columns. *)
Record TaskInstance : Set := mkTI {
  ti_dag_id : string;
  ti_task_id : string;
  ti_run_id : string;
  ti_map_index : Z;
  ti_row : TIRow;
}.

Definition ti_key (ti : TaskInstance) : TIKey :=
  (ti_dag_id ti, ti_task_id ti, ti_run_id ti, ti_map_index ti).

Definition ti_of (k : TIKey) (r : TIRow) : TaskInstance :=
  let '(d, t, r', i) := k in mkTI d t r' i r.

(** Python's [range(a, b)]. *)
Definition py_range (a b : Z) : list Z := seqZ a (b - a).

(** * Mapped Task Expander *)
Module MappedOperator.

(** The two tables [expand_mapped_task] touches. *)
Record Session : Type := mkSession {
  task_instance : gmap TIKey TIRow;
  task_map : gmap TIKey Z;
}.

Definition with_tis (s : Session) (m : gmap TIKey TIRow) : Session :=
  {| task_instance := m; task_map := task_map s |}.

Section Expand.

(** [State.unfinished] of [airflow/utils/state.py], which is not among the
    sources: the set of states in which an instance has not run to an end. *)
Variable unfinished : TaskInstanceState -> bool.

(** [airflow.settings.task_instance_mutation_hook], the deployment's hook
    applied to every instance before it is stored; it edits columns, the key
    is not its to change. *)
Variable task_instance_mutation_hook : TIRow -> TIRow.

(** [or_(TaskInstance.state.in_(State.unfinished), TaskInstance.state.is_(None))] *)
Definition is_unfinished (r : TIRow) : bool :=
  match state r with
  | None => true
  | Some st => unfinished st
  end.

(** The constructor [TaskInstance(task, run_id=..., map_index=..., state=...)]:
    a transient instance with the given state and no dates or tries yet. *)
Definition new_row (st : option TaskInstanceState) : TIRow :=
  {| state := st; try_number := 0; start_date := None; end_date := None;
     duration := None |}.

(** [session.merge(ti)]: the row stored under the key of [ti] takes the
    columns of [ti], or is created; the persistent instance is returned. *)
Definition session_merge (k : TIKey) (r : TIRow) (m : gmap TIKey TIRow)
  : gmap TIKey TIRow * TaskInstance :=
  (<[k := r]> m, ti_of k r).

(** The map indexes of the rows of one task in one run. *)
Definition map_indexes (m : gmap TIKey TIRow) (dag task run : string) : list Z :=
  omap (fun kr : TIKey * TIRow =>
          let '((d, t, r, i), _) := kr in
          if decide (d = dag /\ t = task /\ r = run) then Some i else None)
       (map_to_list m).

(** SQL [max] over a column: NULL on no rows. *)
Definition func_max (l : list Z) : option Z :=
  foldr (fun i acc => Some (match acc with None => i | Some b => Z.max i b end))
        None l.

(** The [for index in indexes_to_map] loop: build, hook, merge, append. *)
Fixpoint create_instances (dag task run : string) (st : option TaskInstanceState)
    (indexes : list Z) (m : gmap TIKey TIRow) (ret : list TaskInstance)
  : gmap TIKey TIRow * list TaskInstance :=
  match indexes with
  | [] => (m, ret)
  | index :: rest =>
      let ti := task_instance_mutation_hook (new_row st) in
      let '(m', merged) := session_merge (dag, task, run, index) ti m in
      create_instances dag task run st rest m' (ret ++ [merged])
  end.

(** The closing bulk [update({TaskInstance.state: REMOVED})] over the rows of
    the task in the run whose [map_index >= length]. *)
Definition mark_removed (dag task run : string) (length : Z)
    (m : gmap TIKey TIRow) : gmap TIKey TIRow :=
  map_imap (fun (k : TIKey) (r : TIRow) =>
              let '(d, t, r', i) := k in
              if decide (d = dag /\ t = task /\ r' = run /\ length <= i)
              then Some (set_row_state (Some REMOVED) r)
              else Some r) m.

(** [MappedOperator.expand_mapped_task(self, upstream_ti, session)].
    [self_task_id] is [self.task_id]; [upstream_ti] is the key of the
    upstream instance. *)
Definition expand_mapped_task (self_task_id : string) (upstream_ti : TIKey)
    (session : Session) : Session * outcome (list TaskInstance) :=
  let '(up_dag, _, up_run, _) := upstream_ti in
  match task_map session !! upstream_ti with
  | None =>
      (session,
       Raised (RuntimeError "mapped operator cannot be expanded; upstream not found"))
  | Some task_map_info_length =>
      let tis := task_instance session in
      let placeholder : TIKey := (up_dag, self_task_id, up_run, -1) in
      let unmapped_ti :=
        match tis !! placeholder with
        | Some r => if is_unfinished r then Some r else None
        | None => None
        end in
      match unmapped_ti with
      | Some r =>
          if decide (task_map_info_length < 1) then
            (with_tis session
               (<[placeholder := set_row_state (Some SKIPPED) r]> tis),
             Returned [])
          else
            let first : TIKey := (up_dag, self_task_id, up_run, 0) in
            match tis !! first with
            | Some _ =>
                (session, Raised (IntegrityError "task_instance_pkey"))
            | None =>
                let tis0 := <[first := r]> (delete placeholder tis) in
                let '(tis1, ret) :=
                  create_instances up_dag self_task_id up_run (state r)
                    (py_range 1 task_map_info_length) tis0 [ti_of first r] in
                (with_tis session
                   (mark_removed up_dag self_task_id up_run task_map_info_length tis1),
                 Returned ret)
            end
      | None =>
          match func_max (map_indexes tis up_dag self_task_id up_run) with
          | None =>
              (session,
               Raised (TypeError "unsupported operand type(s) for +: 'NoneType' and 'int'"))
          | Some current_max_mapping =>
              let '(tis1, ret) :=
                create_instances up_dag self_task_id up_run None
                  (py_range (current_max_mapping + 1) task_map_info_length) tis [] in
              (with_tis session
                 (mark_removed up_dag self_task_id up_run task_map_info_length tis1),
               Returned ret)
          end
      end
  end.

End Expand.

(** The upstream producer reports a new length: its [task_map] row is
    rewritten (by the task runner, between two scheduler passes). *)
Definition record_length (upstream_ti : TIKey) (len : Z) (s : Session) : Session :=
  {| task_instance := task_instance s;
     task_map := <[upstream_ti := len]> (task_map s) |}.

(** Successive scheduler passes over one mapped task in one run: before each
    pass the upstream length is recorded, then the task is expanded. [None]
    when a pass raises. *)
Fixpoint expand_passes (unfinished : TaskInstanceState -> bool)
    (hook : TIRow -> TIRow) (self_task_id : string) (upstream_ti : TIKey)
    (lengths : list Z) (s : Session) : option Session :=
  match lengths with
  | [] => Some s
  | len :: rest =>
      match expand_mapped_task unfinished hook self_task_id upstream_ti
              (record_length upstream_ti len s) with
      | (s', Returned _) =>
          expand_passes unfinished hook self_task_id upstream_ti rest s'
      | (_, Raised _) => None
      end
  end.

(** A reading of [State.unfinished] used to run the examples: the states of
    the data model that are neither terminal nor [removed]. *)
Definition example_unfinished (st : TaskInstanceState) : bool :=
  match st with
  | SCHEDULED | QUEUED | RUNNING | UP_FOR_RETRY | UP_FOR_RESCHEDULE => true
  | SUCCESS | FAILED | SKIPPED | REMOVED => false
  end.

(** Example stores. [fresh_session len]: a run in which the mapped task
    "mapped" still has its placeholder and the upstream "up" recorded [len].
    [expanded_session len]: a run in which "mapped" already has the finished
    instances 0 and 1. *)
Definition fresh_session (len : Z) : Session :=
  {| task_instance := {[ ("dag", "mapped", "run", -1) := new_row None ]};
     task_map := {[ ("dag", "up", "run", -1) := len ]} |}.

Definition expanded_session (len : Z) : Session :=
  {| task_instance :=
       {[ ("dag", "mapped", "run", 0) := new_row (Some SUCCESS);
          ("dag", "mapped", "run", 1) := new_row (Some SUCCESS) ]};
     task_map := {[ ("dag", "up", "run", -1) := len ]} |}.

End MappedOperator.

(** * Task-instance history *)
Module TaskInstanceHistory.

(** A row of [task_instance_history]: the columns of the instance as copied
    by [TaskInstanceHistory.__init__]. The table is append-only; its rows
    are kept in insertion order. *)
Abbreviation History := (list TaskInstance).

(** [TaskInstanceHistory(ti, state=...)]: every column is copied from [ti];
    [if state: self.state = state]. *)
Definition new_history (ti : TaskInstance) (st : option TaskInstanceState)
  : TaskInstance :=
  match st with
  | Some _ =>
      mkTI (ti_dag_id ti) (ti_task_id ti) (ti_run_id ti) (ti_map_index ti)
           (set_row_state st (ti_row ti))
  | None => ti
  end.

(** The [select(func.count(...)).where(...)] of [record_ti]: the rows with
    the dag, task, run, map index and try number of [ti]. *)
Definition same_try (ti h : TaskInstance) : bool :=
  bool_decide (ti_dag_id h = ti_dag_id ti /\ ti_task_id h = ti_task_id ti /\
               ti_run_id h = ti_run_id ti /\ ti_map_index h = ti_map_index ti /\
               try_number (ti_row h) = try_number (ti_row ti)).

Definition exists_q (ti : TaskInstance) (session : History) : nat :=
  length (filter (fun h => same_try ti h = true) session).

Section RecordTi.

(** [State.finished] of [airflow/utils/state.py], which is not among the
    sources. *)
Variable finished : TaskInstanceState -> bool.

(** [ti.state not in State.finished]; the NULL state is in no set of states. *)
Definition not_in_finished (st : option TaskInstanceState) : bool :=
  match st with
  | Some st' => negb (finished st')
  | None => true
  end.

(** [TaskInstanceHistory.record_ti(ti, session)]. [utcnow] is the reading of
    [timezone.utcnow()] the call would take. The instance is a live object:
    the call returns it as it leaves it, next to the history table. *)
Definition record_ti (utcnow : Z) (ti : TaskInstance) (session : History)
  : TaskInstance * History :=
  if decide (exists_q ti session <> 0%nat) then (ti, session)
  else
    let ti_history_state := state (ti_row ti) in
    let '(ti_history_state, ti) :=
      if not_in_finished (state (ti_row ti)) then
        (Some FAILED,
         mkTI (ti_dag_id ti) (ti_task_id ti) (ti_run_id ti) (ti_map_index ti)
              (set_duration (set_row_end_date (Some utcnow) (ti_row ti))))
      else (ti_history_state, ti) in
    let ti_history := new_history ti ti_history_state in
    (ti, session ++ [ti_history]).

End RecordTi.

(** A reading of [State.finished] used to run the examples: the terminal
    states of the data model. *)
Definition example_finished (st : TaskInstanceState) : bool :=
  match st with
  | SUCCESS | FAILED | SKIPPED => true
  | _ => false
  end.

(** An instance that started at 100 and is still running in its first try. *)
Definition running_instance : TaskInstance :=
  mkTI "dag" "task" "run" (-1) (mkTIRow (Some RUNNING) 1 (Some 100) None None).

End TaskInstanceHistory.

(** * Sensor Poke Loop *)
Module Sensor.

(** Seconds, as the sensor computes with them. Python computes on floats;
    the model computes on rationals, exactly, and raises where a float
    operation of the source overflows. *)

(** [class FailPolicy(str, enum.Enum)] *)
Inductive FailPolicy : Set :=
| NONE | SKIP_ON_ANY_ERROR | SKIP_ON_TIMEOUT | IGNORE_ERROR.

#[global] Instance FailPolicy_eq_dec : EqDecision FailPolicy.
Proof. solve_decision. Defined.

(** What [poke] or [execute] can raise. The first four are the classes the
    first [except] clause of the loop names; [OtherException] is any other
    subclass of [Exception]; [NotAnException] is a [BaseException] outside
    [Exception], which no clause of the loop catches. *)
Inductive SensorExn : Type :=
| AirflowSensorTimeout (msg : string)
| AirflowTaskTimeout (msg : string)
| AirflowPokeFailException (msg : string)
| AirflowSkipException (msg : string)
| AirflowRescheduleException (reschedule_date : Q)
| OtherException (name : string)
| NotAnException (name : string).

(** [except (AirflowSensorTimeout, AirflowTaskTimeout,
             AirflowPokeFailException, AirflowSkipException)] *)
Definition timeout_class (e : SensorExn) : bool :=
  match e with
  | AirflowSensorTimeout _ | AirflowTaskTimeout _
  | AirflowPokeFailException _ | AirflowSkipException _ => true
  | _ => false
  end.

(** [except Exception]: reached by what the first clause let through. *)
Definition is_exception (e : SensorExn) : bool :=
  match e with
  | NotAnException _ => false
  | _ => true
  end.

(** What a call of [poke] returns: a [bool], or a [PokeReturnValue] with its
    [is_done] and [xcom_value]. *)
Inductive PokeReturn : Set :=
| PokeBool (b : bool)
| PokeReturnValue (is_done : bool) (xcom_value : option Z).

(** [if poke_return:], with [PokeReturnValue.__bool__]. *)
Definition truthy (r : PokeReturn) : bool :=
  match r with
  | PokeBool b => b
  | PokeReturnValue is_done _ => is_done
  end.

Inductive PokeOutcome : Type :=
| PokeReturns (r : PokeReturn)
| PokeRaises (e : SensorExn).

(** The attributes of [BaseSensorOperator] the loop reads. *)
Record BaseSensorOperator : Type := mkSensor {
  dag_id : string;
  task_id : string;
  poke_interval : Q;
  timeout : Q;
  mode : string;
  exponential_backoff : bool;
  max_wait : option Q;
  soft_fail : bool;
  silent_fail : bool;
  fail_policy : FailPolicy;
  retries : option Z;
}.

(** The [reschedule] property. *)
Definition reschedule (self : BaseSensorOperator) : bool :=
  bool_decide (mode self = "reschedule").

(** [timedelta.max.total_seconds()]: 999999999 days, 23:59:59.999999 are
    86399999999999.999999 seconds, and the float nearest to them is
    86400000000000.0. *)
Definition timedelta_max_total_seconds : Q := 86400000000000.

(** [_MYSQL_TIMESTAMP_MAX], 2038-01-19 03:14:07 UTC, in seconds of the epoch. *)
Definition _MYSQL_TIMESTAMP_MAX : Q := 2147483647 # 1.

(** [int(x)] on a number: truncation toward zero. *)
Definition py_int (x : Q) : Z := Z.quot (Qnum x) (Zpos (Qden x)).

(** [min(a, b)]: the first argument unless the second is smaller. *)
Definition py_min (a b : Q) : Q :=
  if Qlt_le_dec b a then b else a.

(** The products a float cannot hold: the largest float is
    [2^1024 - 2^971], and a product of [2^1024 - 2^970] or more rounds to
    infinity. *)
Definition float_overflows (x : Q) : bool :=
  if Qlt_le_dec (Qabs x) (inject_Z (2 ^ 1024 - 2 ^ 970)) then false else true.

Section NextPokeInterval.

(** [int(hashlib.sha1(f"{dag_id}#{task_id}#{started_at}#{poke_count}".encode())
        .hexdigest(), 16)] as a function of the four values formatted. *)
Variable run_hash_of : string -> string -> Q -> Z -> Z.

(** The callable [run_duration] reads a clock; [W] is whatever it depends
    on and may change. *)
Context {W : Type}.

(** [max(int(self.poke_interval * (2 ** (poke_count - 2))), 1)], or [None]
    where Python raises [OverflowError]: the power is an [int], which the
    product converts to a float, and an [int] of [2 ** 1024] or more has no
    float; a product that rounds to infinity has no [int]. *)
Definition min_backoff_of (self : BaseSensorOperator) (poke_count : Z) : option Z :=
  let exponent := poke_count - 2 in
  if decide (1024 <= exponent) then None
  else
    let product := (poke_interval self * Qpower 2 exponent)%Q in
    if float_overflows product then None
    else Some (Z.max (py_int product) 1).

(** [min(modded_hash, timedelta.max.total_seconds() - 1)] with
    [modded_hash = min_backoff + run_hash % min_backoff]. The source writes
    these lines twice, in the simulation and after it. *)
Definition backoff_with_jitter (self : BaseSensorOperator) (started_at : Q)
    (poke_count : Z) : option Q :=
  min_backoff ← min_backoff_of self poke_count;
  let run_hash := run_hash_of (dag_id self) (task_id self) started_at poke_count in
  let modded_hash := min_backoff + run_hash mod min_backoff in
  Some (py_min (inject_Z modded_hash) (timedelta_max_total_seconds - 1)).

(** The simulation [while cumulative_time <= elapsed_time]; [None] is the
    [OverflowError] of a turn. Every turn adds at least one second, so
    [fuel] turns are never used up when [fuel] exceeds the whole seconds
    elapsed (see [estimate_poke_count_exact]). *)
Fixpoint simulate_pokes (fuel : nat) (self : BaseSensorOperator) (started_at : Q)
    (elapsed_time cumulative_time : Q) (estimated_poke_count : Z) : option Z :=
  match fuel with
  | O => Some estimated_poke_count
  | S fuel' =>
      if Qlt_le_dec elapsed_time cumulative_time then Some estimated_poke_count
      else
        let estimated_poke_count := estimated_poke_count + 1 in
        interval_with_jitter ←
          backoff_with_jitter self started_at estimated_poke_count;
        simulate_pokes fuel' self started_at elapsed_time
          (cumulative_time + interval_with_jitter) estimated_poke_count
  end.

Definition estimate_poke_count (self : BaseSensorOperator) (started_at : Q)
    (elapsed_time : Q) : option Z :=
  simulate_pokes (Z.to_nat (Qfloor elapsed_time + 2)) self started_at
    elapsed_time 0 0.

(** [BaseSensorOperator._get_next_poke_interval(self, started_at,
    run_duration, poke_count)]; [None] is [OverflowError]. *)
Definition _get_next_poke_interval (self : BaseSensorOperator) (started_at : Q)
    (run_duration : W -> Q * W) (poke_count : Z) (w : W) : option Q * W :=
  if negb (exponential_backoff self) then (Some (poke_interval self), w)
  else
    let '(poke_count, w) :=
      if reschedule self then
        let '(elapsed_time, w) := run_duration w in
        (estimated_poke_count ← estimate_poke_count self started_at elapsed_time;
         Some (if decide (estimated_poke_count = 0) then poke_count
               else estimated_poke_count), w)
      else (Some poke_count, w) in
    match poke_count ≫= backoff_with_jitter self started_at with
    | None => (None, w)
    | Some delay_backoff_in_seconds =>
        let '(elapsed, w) := run_duration w in
        let new_interval :=
          py_min (timeout self - inject_Z (py_int elapsed)) delay_backoff_in_seconds in
        let new_interval :=
          match max_wait self with
          | Some max_wait_seconds =>
              if Qeq_bool max_wait_seconds 0 then new_interval
              else py_min max_wait_seconds new_interval
          | None => new_interval
          end in
        (Some new_interval, w)
    end.

End NextPokeInterval.

(** The world a run of the sensor lives in: the time (one time line serves
    [time.monotonic()] and [timezone.utcnow()]), the number of calls of
    [poke] made so far and the number of readings of the clock taken so far.
    The clock moves while [poke] runs, while the sensor sleeps and, by the
    time the interpreter needs, before every reading. *)
Record World : Type := mkWorld {
  now : Q;
  poke_calls : nat;
  clock_reads : nat;
}.

(** A row of [task_reschedule]; the table is kept in the order of [id]. *)
Record TaskReschedule : Type := mkTaskReschedule {
  tr_key : TIKey;
  tr_try_number : Z;
  tr_start_date : Q;
}.

(** [_orig_start_date]: the start date of the first row, by id, of the given
    instance and try. *)
Definition _orig_start_date (key : TIKey) (try_number : Z)
    (session : list TaskReschedule) : option Q :=
  tr_start_date <$>
    head (filter (fun r => tr_key r = key /\ tr_try_number r = try_number) session).

(** [context["ti"]], as far as [execute] reads it. *)
Record Context : Type := mkContext {
  ctx_ti : TIKey;
  ctx_max_tries : option Z;
}.

(** How a call of [execute] ends. *)
Inductive Finished : Type :=
| Returns (xcom_value : option Z)
| Raises (e : SensorExn).

(** [datetime.min] and [datetime.max] in UTC, in seconds of the epoch, and
    [timedelta.min] and [timedelta.max] in seconds. *)
Definition datetime_min : Q := -62135596800.
Definition datetime_max : Q := 253402300799999999 # 1000000.
Definition timedelta_min : Q := -86399999913600.
Definition timedelta_max : Q := 86399999999999999999 # 1000000.

(** [date + timedelta(seconds=seconds)]; [None] is the [OverflowError] of a
    length or of a date out of range. The sum is kept exact, where Python
    rounds the length to microseconds. *)
Definition plus_seconds (date seconds : Q) : option Q :=
  if Qlt_le_dec seconds timedelta_min then None
  else if Qlt_le_dec timedelta_max seconds then None
  else
    let sum := (date + seconds)%Q in
    if Qlt_le_dec sum datetime_min then None
    else if Qlt_le_dec datetime_max sum then None
    else Some sum.

Section Execute.

Variable run_hash_of : string -> string -> Q -> Z -> Z.

(** The sensor's [poke]: what its n-th call does and how long it runs. *)
Variable poke : nat -> PokeOutcome.
Variable poke_seconds : nat -> Q.

(** The time that passes, while the interpreter works, before the n-th
    reading of the clock. *)
Variable lag : nat -> Q.

(** The longest sleep [time.sleep] takes: CPython counts the length in
    nanoseconds in 64 bits, some 292 years. *)
Variable max_sleep : Q.

(** [_is_metadatabase_mysql()], the ORM initialised. *)
Variable is_metadatabase_mysql : bool.

Definition call_poke (w : World) : PokeOutcome * World :=
  (poke (poke_calls w),
   {| now := (now w + poke_seconds (poke_calls w))%Q;
      poke_calls := S (poke_calls w);
      clock_reads := clock_reads w |}).

(** [time.monotonic()] and [timezone.utcnow()]. *)
Definition read_clock (w : World) : Q * World :=
  let reading := (now w + lag (clock_reads w))%Q in
  (reading,
   {| now := reading;
      poke_calls := poke_calls w;
      clock_reads := S (clock_reads w) |}).

(** Both definitions of the closure [run_duration]: a reading of the
    clock, less the start. *)
Definition run_duration (start : Q) (w : World) : Q * World :=
  let '(reading, w) := read_clock w in ((reading - start)%Q, w).

(** [time.sleep(seconds)]: a length beyond what the platform counts is an
    [OverflowError], a negative one a [ValueError]. *)
Definition sleep (seconds : Q) (w : World) : SensorExn + World :=
  if Qlt_le_dec max_sleep (Qabs seconds) then inl (OtherException "OverflowError")
  else if Qlt_le_dec seconds 0 then inl (OtherException "ValueError")
  else inr {| now := (now w + seconds)%Q;
              poke_calls := poke_calls w;
              clock_reads := clock_reads w |}.

Definition skip_on_timeout_msg : string :=
  "Skipping due fail_policy set to SKIP_ON_TIMEOUT.".
Definition skip_on_any_error_msg : string :=
  "Skipping due to SKIP_ON_ANY_ERROR is set to True.".
(** The message of a timeout, cut before the numbers it formats. *)
Definition timed_out_msg : string := "Sensor has timed out".
Definition mysql_limit_msg : string := "Cannot reschedule DAG".

(** The [try: poke_return = self.poke(context) except ...] of the loop: the
    exception that leaves [execute], or the value of [poke_return]. *)
Definition handle_poke (self : BaseSensorOperator) (outcome : PokeOutcome)
  : SensorExn + PokeReturn :=
  match outcome with
  | PokeReturns r => inr r
  | PokeRaises e =>
      if timeout_class e then
        if decide (fail_policy self = SKIP_ON_TIMEOUT) then
          inl (AirflowSkipException skip_on_timeout_msg)
        else if decide (fail_policy self = SKIP_ON_ANY_ERROR) then
          inl (AirflowSkipException skip_on_any_error_msg)
        else inl e
      else if is_exception e then
        if decide (fail_policy self = IGNORE_ERROR) then inr (PokeBool false)
        else if decide (fail_policy self = SKIP_ON_ANY_ERROR) then
          inl (AirflowSkipException skip_on_any_error_msg)
        else inl e
      else inl e
  end.

(** The turn of the loop from [if run_duration() > self.timeout] on, where
    a poke that was not truthy leads. The message of a timeout reads the
    run duration once more. *)
Definition wait_or_time_out (self : BaseSensorOperator) (started_at : Q)
    (poke_count : Z) (w : World) : (Finished * World) + (Z * World) :=
  let '(elapsed, w) := run_duration started_at w in
  if Qlt_le_dec (timeout self) elapsed then
    let '(_, w) := run_duration started_at w in
    if decide (fail_policy self = SKIP_ON_TIMEOUT) then
      inl (Raises (AirflowSkipException timed_out_msg), w)
    else inl (Raises (AirflowSensorTimeout timed_out_msg), w)
  else
    let '(next_poke_interval, w) :=
      _get_next_poke_interval run_hash_of self started_at
        (run_duration started_at) poke_count w in
    match next_poke_interval with
    | None => inl (Raises (OtherException "OverflowError"), w)
    | Some next_poke_interval =>
        if reschedule self then
          let '(utcnow, w) := read_clock w in
          match plus_seconds utcnow next_poke_interval with
          | None => inl (Raises (OtherException "OverflowError"), w)
          | Some reschedule_date =>
              if is_metadatabase_mysql
                 && (if Qlt_le_dec _MYSQL_TIMESTAMP_MAX reschedule_date
                     then true else false) then
                inl (Raises (AirflowSensorTimeout mysql_limit_msg), w)
              else inl (Raises (AirflowRescheduleException reschedule_date), w)
          end
        else
          match sleep next_poke_interval w with
          | inl e => inl (Raises e, w)
          | inr w => inr (poke_count + 1, w)
          end
    end.

(** One turn of [while True]: the call ends ([inl]) or the loop goes on with
    the next poke count ([inr]). *)
Definition loop_body (self : BaseSensorOperator) (started_at : Q)
    (poke_count : Z) (w : World) : (Finished * World) + (Z * World) :=
  let '(outcome, w) := call_poke w in
  match handle_poke self outcome with
  | inl e => inl (Raises e, w)
  | inr poke_return =>
      if truthy poke_return then
        inl (Returns (match poke_return with
                      | PokeReturnValue _ xcom_value => xcom_value
                      | PokeBool _ => None
                      end), w)
      else wait_or_time_out self started_at poke_count w
  end.

(** [while True], at most [fuel] turns; [None] when the turns run out. *)
Fixpoint poke_loop (fuel : nat) (self : BaseSensorOperator) (started_at : Q)
    (poke_count : Z) (w : World) : option (Finished * World) :=
  match fuel with
  | O => None
  | S fuel' =>
      match loop_body self started_at poke_count w with
      | inl done => Some done
      | inr (poke_count, w) => poke_loop fuel' self started_at poke_count w
      end
  end.

(** The head of [execute]: [started_at], the start date of the first try in
    reschedule mode when the table has it, a reading of the clock
    otherwise. *)
Definition start_clock (self : BaseSensorOperator) (context : Context)
    (session : list TaskReschedule) (w : World) : Q * World :=
  if reschedule self then
    let max_tries := default 0 (ctx_max_tries context) in
    let retries := default 0 (retries self) in
    let first_try_number := max_tries - retries + 1 in
    match _orig_start_date (ctx_ti context) first_try_number session with
    | Some start_date => (start_date, w)
    | None => read_clock w
    end
  else read_clock w.

(** [BaseSensorOperator.execute(self, context)]. *)
Definition execute (fuel : nat) (self : BaseSensorOperator) (context : Context)
    (session : list TaskReschedule) (w : World) : option (Finished * World) :=
  let '(started_at, w) := start_clock self context session w in
  poke_loop fuel self started_at 1 w.

End Execute.

(** Example values. A sensor of the dag "dag" poking every 5 seconds with a
    deadline of 10 seconds; a stand-in for the SHA-1 of the formatted key; a
    criteria check that raises [KeyError] at every call; a clock that reads
    out a list of run durations, one after the other. *)
Definition example_sensor (policy : FailPolicy) (mode : string)
    (backoff : bool) : BaseSensorOperator :=
  mkSensor "dag" "wait" 5 10 mode backoff None false false policy None.

Definition example_hash (dag task : string) (started_at : Q) (n : Z) : Z :=
  Z.of_nat (String.length dag) + Z.of_nat (String.length task) + 7 * n.

Definition always_raising (n : nat) : PokeOutcome :=
  PokeRaises (OtherException "KeyError").

Definition example_context : Context :=
  mkContext ("dag", "wait", "run", -1) None.

Definition scripted_duration (readings : list Q) : Q * list Q :=
  (hd 0%Q readings, tl readings).

(** A sensor that backs off from one second, never waiting more than one,
    with a deadline of 10000 seconds. *)
Definition backoff_sensor (policy : FailPolicy) (mode : string) : BaseSensorOperator :=
  mkSensor "dag" "wait" 1 10000 mode true (Some 1%Q) false false policy None.

End Sensor.

(** * State Propagator and Run Materializer *)
Module MarkTasks.

(** A [datetime]: an instant, and whether it carries a time zone. *)
Record datetime : Set := mkDatetime {
  timestamp : Z;
  tz_aware : bool;
}.

#[global] Instance datetime_eq_dec : EqDecision datetime.
Proof. solve_decision. Defined.

(** [timezone.is_localized] *)
Definition is_localized (d : datetime) : bool := tz_aware d.

Abbreviation DataInterval := (datetime * datetime)%type.

(** [airflow.timetables.base.DagRunInfo] *)
Record DagRunInfo : Set := mkDagRunInfo {
  logical_date : datetime;
  data_interval : DataInterval;
}.

(** [DagRunInfo.interval(start, end)]: the interval, its start the logical
    date. *)
Definition DagRunInfo_interval (start end_ : datetime) : DagRunInfo :=
  mkDagRunInfo start (start, end_).

Inductive DagRunType : Set := BACKFILL_JOB | SCHEDULED | MANUAL.

#[global] Instance DagRunType_eq_dec : EqDecision DagRunType.
Proof. solve_decision. Defined.

(** A row of [dag_run]. [DagRunState] and [TaskInstanceState] are both
    enumerations of strings and [set_state] stores a task-instance state in
    a run, so one type of states serves both. *)
Record DagRun : Set := mkDagRun {
  dr_dag_id : string;
  dr_run_id : string;
  dr_execution_date : datetime;
  dr_data_interval : DataInterval;
  dr_state : TaskInstanceState;
  dr_run_type : DagRunType;
  dr_start_date : option Z;
  dr_external_trigger : bool;
}.

#[global] Instance DagRun_eq_dec : EqDecision DagRun.
Proof. solve_decision. Defined.

Definition set_run_state (st : TaskInstanceState) (r : DagRun) : DagRun :=
  mkDagRun (dr_dag_id r) (dr_run_id r) (dr_execution_date r) (dr_data_interval r)
           st (dr_run_type r) (dr_start_date r) (dr_external_trigger r).

(** The DAG and its tasks, as far as the module reads them. A task of a
    sub-workflow holds its nested DAG. The periodic boundaries of the
    timetable and the latest execution date the DAG reports are data of the
    graph provider. *)
Inductive DAG : Type := mkDAG {
  dag_id : string;
  default_args_start_date : option datetime;
  dag_start_date : option datetime;
  timetable_can_run : bool;
  timetable_periodic : bool;
  get_latest_execution_date : option datetime;
  iter_dagrun_infos_between : datetime -> datetime -> list DagRunInfo;
  tasks : list BaseOperator;
}
with BaseOperator : Type := mkOperator {
  task_id : string;
  task_type : string;
  isinstance_SubDagOperator : bool;
  subdag : option DAG;
  flat_relatives_upstream : list string;
  flat_relatives_downstream : list string;
}.

(** [dag.has_task] and [dag.get_task]: the task of that id, if any. *)
Definition get_task (dag : DAG) (id : string) : option BaseOperator :=
  head (filter (fun t => task_id t = id) (tasks dag)).

(** The session: the two tables and the number of readings of
    [timezone.utcnow()] taken so far. *)
Record Session : Type := mkSession {
  ti_table : gmap TIKey TIRow;
  run_table : list DagRun;
  clock : nat;
}.

Definition with_tis (m : gmap TIKey TIRow) (s : Session) : Session :=
  mkSession m (run_table s) (clock s).
Definition with_runs (l : list DagRun) (s : Session) : Session :=
  mkSession (ti_table s) l (clock s).

(** A Python dict keyed by data interval, in insertion order. *)
Abbreviation RunDict := (list (DataInterval * DagRun)).

Definition dict_contains (k : DataInterval) (d : RunDict) : bool :=
  bool_decide (k ∈ d.*1).

Fixpoint dict_set (k : DataInterval) (v : DagRun) (d : RunDict) : RunDict :=
  match d with
  | [] => [(k, v)]
  | (k', v') :: d' =>
      if decide (k' = k) then (k, v) :: d' else (k', v') :: dict_set k v d'
  end.

Definition dict_values (d : RunDict) : list DagRun := d.*2.

(** [sorted({...})] on datetimes: distinct values in ascending order. *)
Fixpoint insert_sorted (x : datetime) (l : list datetime) : list datetime :=
  match l with
  | [] => [x]
  | y :: l' =>
      if decide (x = y) then l
      else if decide (timestamp x <= timestamp y) then x :: l
      else y :: insert_sorted x l'
  end.

Definition sorted_set (l : list datetime) : list datetime :=
  foldr insert_sorted [] l.

Section SetState.

(** The wall clock: the n-th reading of [timezone.utcnow()]. *)
Variable utcnow_at : nat -> Z.

(** [timezone.coerce_datetime] *)
Variable coerce_datetime : datetime -> datetime.

(** [DagRun.generate_run_id(run_type, execution_date)] *)
Variable generate_run_id : DagRunType -> datetime -> string.

(** Modelled from the spec: [DagRun.verify_integrity] of
    [airflow/models/dagrun.py], which is not among the sources. The spec has
    it reconcile which task instances should exist for the task set of the
    run's DAG; it acts on the task instances, given the DAG attached to the
    run and the run's id. *)
Variable verify_integrity : DAG -> string -> gmap TIKey TIRow -> gmap TIKey TIRow.

(** [State.finished] of [airflow/utils/state.py]. *)
Variable finished : TaskInstanceState -> bool.

Definition utcnow (s : Session) : Z * Session :=
  (utcnow_at (clock s), mkSession (ti_table s) (run_table s) (S (clock s))).

(** Modelled from the spec: [DagRun.find(dag_id=..., execution_date=[...])]
    of [airflow/models/dagrun.py]: the runs of the dag at those logical
    timestamps. *)
Definition DagRun_find (dag_id : string) (execution_date : list datetime)
    (s : Session) : list DagRun :=
  filter (fun r => dr_dag_id r = dag_id /\ dr_execution_date r ∈ execution_date)
         (run_table s).

(** Modelled from the spec: [DAG.get_run_data_interval]; the data interval
    is an attribute of the run. *)
Definition get_run_data_interval (dag : DAG) (run : DagRun) : DataInterval :=
  dr_data_interval run.

(** Modelled from the spec: [DAG.get_dagruns_between(start_date, end_date)],
    the run store's fallback for timetables that never schedule: the runs of
    the dag between the two instants, both included. *)
Definition get_dagruns_between (dag : DAG) (start_date end_date : datetime)
    (s : Session) : list DagRun :=
  filter (fun r => dr_dag_id r = dag_id dag /\
                   timestamp start_date <= timestamp (dr_execution_date r)
                                        <= timestamp end_date)
         (run_table s).

(** Modelled from the spec: [DAG.create_dagrun] of [airflow/models/dag.py],
    the [create_run] of the run store. The spec has the store enforce that
    at most one run exists per dag and logical timestamp, and has a create
    that would violate this answered with the pre-existing row instead of an
    error: nothing is created then. Otherwise a run of the given logical
    timestamp, data interval, state and run type is created. The spec gives
    the call no failure path; it is typed like every other call, which may
    raise. *)
Definition create_dagrun (dag : DAG) (execution_date : datetime)
    (data_interval : DataInterval) (start_date : Z) (external_trigger : bool)
    (state : TaskInstanceState) (run_type : DagRunType) (s : Session)
  : Session * outcome DagRun :=
  match head (filter (fun r => dr_dag_id r = dag_id dag /\
                               dr_execution_date r = execution_date)
                     (run_table s)) with
  | Some existing => (s, Returned existing)
  | None =>
      let run_id := generate_run_id run_type execution_date in
      let run := mkDagRun (dag_id dag) run_id execution_date data_interval state
                          run_type (Some start_date) external_trigger in
      (with_runs (run_table s ++ [run]) s, Returned run)
  end.

(** The [for info in infos] loop of [_create_dagruns]. *)
Fixpoint create_missing (dag : DAG) (infos : list DagRunInfo)
    (state : TaskInstanceState) (run_type : DagRunType)
    (dag_runs : RunDict) (s : Session) : Session * outcome RunDict :=
  match infos with
  | [] => (s, Returned dag_runs)
  | info :: rest =>
      if dict_contains (data_interval info) dag_runs then
        create_missing dag rest state run_type dag_runs s
      else
        let '(now, s) := utcnow s in
        match create_dagrun dag (logical_date info) (data_interval info) now
                false state run_type s with
        | (s, Raised e) => (s, Raised e)
        | (s, Returned run) =>
            create_missing dag rest state run_type
              (dict_set (data_interval info) run dag_runs) s
        end
  end.

(** [_create_dagruns(dag, infos, state, run_type)] *)
Definition _create_dagruns (dag : DAG) (infos : list DagRunInfo)
    (state : TaskInstanceState) (run_type : DagRunType) (s : Session)
  : Session * outcome (list DagRun) :=
  let dag_runs : RunDict :=
    foldl (fun d run => dict_set (get_run_data_interval dag run) run d) []
          (DagRun_find (dag_id dag) (logical_date <$> infos) s) in
  match create_missing dag infos state run_type dag_runs s with
  | (s, Raised e) => (s, Raised e)
  | (s, Returned dag_runs) => (s, Returned (dict_values dag_runs))
  end.

(** [_get_execution_dates(dag, execution_date, future, past)] *)
Definition _get_execution_dates (dag : DAG) (execution_date : datetime)
    (future past : bool) (s : Session) : outcome (list datetime) :=
  match get_latest_execution_date dag with
  | None => Raised (ValueError "Received non-localized date")
  | Some latest_execution_date =>
      let end_date :=
        coerce_datetime (if future then latest_execution_date else execution_date) in
      let start_date :=
        match default_args_start_date dag with
        | Some d => d
        | None =>
            match dag_start_date dag with
            | Some d => d
            | None => execution_date
            end
        end in
      let start_date := if negb past then execution_date else start_date in
      if negb (timetable_can_run dag) then
        let dag_runs := get_dagruns_between dag start_date end_date s in
        Returned (sorted_set (dr_execution_date <$> dag_runs))
      else if negb (timetable_periodic dag) then Returned [start_date]
      else
        Returned (logical_date <$> iter_dagrun_infos_between dag start_date end_date)
  end.

(** [_find_task_relatives(tasks, downstream, upstream)] *)
Definition _find_task_relatives (tasks : list BaseOperator)
    (downstream upstream : bool) : list string :=
  tasks ≫= (fun task =>
    task_id task ::
    (if downstream then flat_relatives_downstream task else []) ++
    (if upstream then flat_relatives_upstream task else [])).

(** [_verify_dag_run_integrity(dag, dates)], the generator run to its end. *)
Definition _verify_dag_run_integrity (dag : DAG) (dates : list datetime)
    (s : Session) : Session * list DagRunInfo :=
  foldl (fun '(s, infos) dag_run =>
           let s := with_tis (verify_integrity dag (dr_run_id dag_run)
                                (ti_table s)) s in
           let data_interval := get_run_data_interval dag dag_run in
           (s, infos ++ [DagRunInfo_interval data_interval.1 data_interval.2]))
        (s, []) (DagRun_find (dag_id dag) dates s).

(** [dag_run.state = state; session.merge(dag_run)] on the persistent row. *)
Definition merge_run_state (dag_run : DagRun) (state : TaskInstanceState)
    (s : Session) : Session :=
  with_runs ((fun r => if decide (dr_dag_id r = dr_dag_id dag_run /\
                                  dr_run_id r = dr_run_id dag_run)
                       then set_run_state state r else r) <$> run_table s) s.

(** [_verify_dagruns(dag_runs, commit, state, session, current_task)];
    [subdag] is [current_task.subdag]. *)
Definition _verify_dagruns (dag_runs : list DagRun) (commit : bool)
    (state : TaskInstanceState) (subdag : DAG) (s : Session) : Session :=
  foldl (fun s dag_run =>
           let s := with_tis (verify_integrity subdag (dr_run_id dag_run)
                                (ti_table s)) s in
           if commit then merge_run_state dag_run state s else s)
        s dag_runs.

(** The [for task_id in task_ids] loop inside [_get_subdag_runs], for one
    [current_dag]. *)
Fixpoint visit_tasks (current_dag : DAG) (task_ids : list string)
    (state : TaskInstanceState) (commit : bool)
    (confirmed_infos : list DagRunInfo)
    (dags : list DAG) (sub_dag_ids : list string) (s : Session)
  : Session * outcome (list DAG * list string) :=
  match task_ids with
  | [] => (s, Returned (dags, sub_dag_ids))
  | id :: rest =>
      let skip :=
        visit_tasks current_dag rest state commit confirmed_infos
          dags sub_dag_ids s in
      match get_task current_dag id with
      | None => skip
      | Some current_task =>
          if negb (isinstance_SubDagOperator current_task)
             && negb (bool_decide (task_type current_task = "SubDagOperator"))
          then skip
          else
            match subdag current_task with
            | None => skip
            | Some sub =>
                match _create_dagruns sub confirmed_infos RUNNING BACKFILL_JOB s with
                | (s, Raised e) => (s, Raised e)
                | (s, Returned dag_runs) =>
                    let s := _verify_dagruns dag_runs commit state sub s in
                    visit_tasks current_dag rest state commit
                      confirmed_infos (dags ++ [sub]) (sub_dag_ids ++ [dag_id sub]) s
                end
            end
      end
  end.

(** [while dags:] of [_get_subdag_runs], at most [fuel] turns; [None] when
    the turns run out. [dags.pop()] takes the last element. *)
Fixpoint subdag_loop (fuel : nat) (task_ids : list string)
    (state : TaskInstanceState) (commit : bool)
    (confirmed_infos : list DagRunInfo)
    (dags : list DAG) (sub_dag_ids : list string) (s : Session)
  : option (Session * outcome (list string)) :=
  match fuel with
  | O => None
  | S fuel' =>
      match last dags with
      | None => Some (s, Returned sub_dag_ids)
      | Some current_dag =>
          match visit_tasks current_dag task_ids state commit
                  confirmed_infos (removelast dags) sub_dag_ids s with
          | (s, Raised e) => Some (s, Raised e)
          | (s, Returned (dags, sub_dag_ids)) =>
              subdag_loop fuel' task_ids state commit confirmed_infos
                dags sub_dag_ids s
          end
      end
  end.

(** [_get_subdag_runs(dag, session, state, task_ids, commit, confirmed_infos)] *)
Definition _get_subdag_runs (fuel : nat) (dag : DAG) (state : TaskInstanceState)
    (task_ids : list string) (commit : bool) (confirmed_infos : list DagRunInfo)
    (s : Session) : option (Session * outcome (list string)) :=
  subdag_loop fuel task_ids state commit confirmed_infos [dag] [] s.

(** [TaskInstance.execution_date]: that of the run of the instance. *)
Definition ti_execution_date (k : TIKey) (s : Session) : option datetime :=
  let '(d, _, r, _) := k in
  dr_execution_date <$>
    head (filter (fun run => dr_dag_id run = d /\ dr_run_id run = r) (run_table s)).

(** [or_(TaskInstance.state.is_(None), TaskInstance.state != state)] *)
Definition state_differs (target : TaskInstanceState) (r : TIRow) : bool :=
  bool_decide (state r <> Some target).

(** The rows a query selects, as references to the stored instances. *)
Definition select (p : TIKey -> TIRow -> bool) (s : Session) : list TIKey :=
  (filter (fun kr : TIKey * TIRow => p kr.1 kr.2 = true)
          (map_to_list (ti_table s))).*1.

(** [_get_all_dag_task_query(dag, session, state, task_ids, confirmed_dates)] *)
Definition _get_all_dag_task_query (dag : DAG) (target : TaskInstanceState)
    (task_ids : list string) (confirmed_dates : list datetime) (s : Session)
  : list TIKey :=
  select (fun k r =>
            let '(d, t, _, _) := k in
            bool_decide (d = dag_id dag)
            && match ti_execution_date k s with
               | Some e => bool_decide (e ∈ confirmed_dates)
               | None => false
               end
            && bool_decide (t ∈ task_ids)
            && state_differs target r) s.

(** [_all_subdag_tasks_query(sub_dag_run_ids, session, state, confirmed_dates)] *)
Definition _all_subdag_tasks_query (sub_dag_run_ids : list string)
    (target : TaskInstanceState) (confirmed_dates : list datetime) (s : Session)
  : list TIKey :=
  select (fun k r =>
            let '(d, _, _, _) := k in
            bool_decide (d ∈ sub_dag_run_ids)
            && match ti_execution_date k s with
               | Some e => bool_decide (e ∈ confirmed_dates)
               | None => false
               end
            && state_differs target r) s.

(** The body of [for task_instance in tis_altered] under [commit]. *)
Definition alter (target : TaskInstanceState) (k : TIKey) (s : Session) : Session :=
  match ti_table s !! k with
  | None => s
  | Some r =>
      let r := set_row_state (Some target) r in
      if finished target then
        let '(now, s) := utcnow s in
        with_tis (<[k := set_duration (set_row_end_date (Some now) r)]>
                    (ti_table s)) s
      else with_tis (<[k := r]> (ti_table s)) s
  end.

(** The instances a list of references stands for, read when the call
    returns. *)
Definition instances (keys : list TIKey) (s : Session) : list TaskInstance :=
  omap (fun k => ti_of k <$> ti_table s !! k) keys.

(** [set_state(tasks, execution_date, upstream, downstream, future, past,
    state, commit, session)]. A task comes with its [task.dag]. [None] when
    the turns allowed to [_get_subdag_runs] run out. *)
Definition set_state (fuel : nat) (tasks : list (BaseOperator * option DAG))
    (execution_date : datetime) (upstream downstream future past : bool)
    (target : TaskInstanceState) (commit : bool) (s : Session)
  : option (Session * outcome (list TaskInstance)) :=
  match tasks with
  | [] => Some (s, Returned [])
  | (_, first_dag) :: _ =>
      if negb (is_localized execution_date) then
        Some (s, Raised (ValueError "Received non-localized date"))
      else
        let task_dags :=
          remove_dups ((fun t : BaseOperator * option DAG => dag_id <$> t.2)
                         <$> tasks) in
        if decide (1 < length task_dags)%nat then
          Some (s, Raised (ValueError "Received tasks from multiple DAGs"))
        else
          match first_dag with
          | None => Some (s, Raised (ValueError "Received tasks with no DAG"))
          | Some dag =>
              match _get_execution_dates dag execution_date future past s with
              | Raised e => Some (s, Raised e)
              | Returned dates =>
                  let task_ids :=
                    _find_task_relatives tasks.*1 downstream upstream in
                  let '(s, confirmed_infos) :=
                    _verify_dag_run_integrity dag dates s in
                  let confirmed_dates := logical_date <$> confirmed_infos in
                  match _get_subdag_runs fuel dag target task_ids commit
                          confirmed_infos s with
                  | None => None
                  | Some (s, Raised e) => Some (s, Raised e)
                  | Some (s, Returned sub_dag_run_ids) =>
                      let qry_dag :=
                        _get_all_dag_task_query dag target task_ids
                          confirmed_dates s in
                      let tis_altered :=
                        qry_dag ++
                        (if decide (sub_dag_run_ids = []) then []
                         else _all_subdag_tasks_query sub_dag_run_ids target
                                confirmed_dates s) in
                      let s :=
                        if commit then foldl (fun s k => alter target k s) s tis_altered
                        else s in
                      Some (s, Returned (instances tis_altered s))
                  end
              end
          end
  end.

(** [m'] is [m] after some calls of [verify_integrity]. *)
Inductive repaired (m : gmap TIKey TIRow) : gmap TIKey TIRow -> Prop :=
| repaired_refl : repaired m m
| repaired_step (m' : gmap TIKey TIRow) (dag : DAG) (run_id : string) :
    repaired m m' -> repaired m (verify_integrity dag run_id m').

End SetState.

(** The test [_get_subdag_runs] puts a task to before it looks at its
    sub-DAG. *)
Definition is_subdag_operator (task : BaseOperator) : bool :=
  isinstance_SubDagOperator task
  || bool_decide (task_type task = "SubDagOperator").

(** The sub-DAG [_get_subdag_runs] takes from a DAG for a task id. *)
Definition direct_sub (current_dag : DAG) (id : string) : option DAG :=
  match get_task current_dag id with
  | Some task => if is_subdag_operator task then subdag task else None
  | None => None
  end.

(** The DAGs nested in a DAG, at any depth, along sub-DAG operators whose
    task id is one of [task_ids]. *)
Inductive reached (task_ids : list string) (dag : DAG) : DAG -> Prop :=
| reached_here (id : string) (sub : DAG) :
    id ∈ task_ids -> direct_sub dag id = Some sub -> reached task_ids dag sub
| reached_deeper (id : string) (sub d : DAG) :
    id ∈ task_ids -> direct_sub dag id = Some sub -> reached task_ids sub d ->
    reached task_ids dag d.

(** The candidate set of steps 6 and 7: the stored instances whose state is
    not the target and whose run is at a confirmed date, of the DAG with a
    task id of the closure, or of a nested DAG reached. *)
Definition candidate (dag : DAG) (task_ids : list string)
    (confirmed_dates : list datetime) (target : TaskInstanceState)
    (s : Session) (k : TIKey) : Prop :=
  exists row e,
    ti_table s !! k = Some row /\ state row <> Some target /\
    ti_execution_date k s = Some e /\ e ∈ confirmed_dates /\
    ((k.1.1.1 = dag_id dag /\ k.1.1.2 ∈ task_ids) \/
     exists sub, reached task_ids dag sub /\ k.1.1.1 = dag_id sub).

(** The turns of [while dags:] a DAG on the stack can cost, for [n] task
    ids: its own, and for each task id at most those of one nested DAG. *)
Fixpoint turns_of (n : nat) (dag : DAG) : nat :=
  S (n * (fix nested (l : list BaseOperator) : nat :=
            match l with
            | [] => 0
            | task :: l' =>
                match subdag task with
                | Some sub => turns_of n sub
                | None => 0
                end + nested l'
            end) (tasks dag))%nat.

Definition nested_turns (n : nat) (l : list BaseOperator) : nat :=
  sum_list ((fun task => match subdag task with
                         | Some sub => turns_of n sub
                         | None => 0%nat
                         end) <$> l).

Definition stack_turns (n : nat) (dags : list DAG) : nat :=
  sum_list (turns_of n <$> dags).

(** Example values: a daily DAG "dag" with one task "a", with or without a
    latest execution date; instants in days. *)
Definition day (n : Z) : datetime := mkDatetime n true.

Definition daily_infos (start_date end_date : datetime) : list DagRunInfo :=
  (fun n => mkDagRunInfo (day n) (day n, day (n + 1)))
    <$> seqZ (timestamp start_date) (timestamp end_date - timestamp start_date + 1).

Definition task_a : BaseOperator := mkOperator "a" "DummyOperator" false None [] [].

Definition example_dag (latest : option datetime) : DAG :=
  mkDAG "dag" None None true true latest daily_infos [task_a].

(** The same DAG with a timetable that schedules once, and the start date
    day 10. *)
Definition once_dag : DAG :=
  mkDAG "dag" None (Some (day 10)) true false (Some (day 9)) daily_infos [task_a].

Definition example_run_id (t : DagRunType) (d : datetime) : string :=
  match t with
  | BACKFILL_JOB => "backfill__"
  | SCHEDULED => "scheduled__"
  | MANUAL => "manual__"
  end +:+ pretty (timestamp d).

Definition empty_session : Session := mkSession ∅ [] 0.

(** A store whose one run of "dag" sits at day 1 under the data interval
    from day 0 to day 1, and the daily infos of day 0 and day 1. *)
Definition shifted_run : DagRun :=
  mkDagRun "dag" "scheduled__1" (day 1) (day 0, day 1) RUNNING SCHEDULED
           (Some 0) false.

Definition shifted_session : Session := mkSession ∅ [shifted_run] 0.

Definition two_days : list DagRunInfo := daily_infos (day 0) (day 1).

Definition three_days : list DagRunInfo := daily_infos (day 1) (day 3).

(** A session with the backfill runs of the days 1 to 3 and the instance of
    task "a" in each: without a state, succeeded, running. *)
Definition example_runs : list DagRun :=
  (fun n => mkDagRun "dag" (example_run_id BACKFILL_JOB (day n)) (day n)
                     (day n, day (n + 1)) RUNNING BACKFILL_JOB (Some 0) false)
    <$> [1; 2; 3].

Definition example_session : Session :=
  mkSession
    {[ ("dag", "a", "backfill__1", -1) := mkTIRow None 0 (Some 5) None None;
       ("dag", "a", "backfill__2", -1) := mkTIRow (Some SUCCESS) 0 (Some 5) None None;
       ("dag", "a", "backfill__3", -1) := mkTIRow (Some RUNNING) 0 (Some 5) None None ]}
    example_runs 0.

(** [set_state([a], day 1, future=True, state=SUCCESS, commit=...)] on the
    example, the clock reading 100, 101, ..., integrity verification finding
    nothing to repair. *)
Definition example_set_state (commit : bool)
  : option (Session * outcome (list TaskInstance)) :=
  set_state (fun n => 100 + Z.of_nat n) id example_run_id (fun _ _ m => m)
    (fun st => bool_decide (st = SUCCESS \/ st = FAILED \/ st = SKIPPED))
    5 [(task_a, Some (example_dag (Some (day 9))))] (day 1)
    false false true false SUCCESS commit example_session.

(** Modelled from the spec: a reading of the run's own "verify and repair"
    ([DagRun.verify_integrity]), which the spec has reconcile the instances
    of a run with the current task set of its DAG, tasks added or removed
    since the run was created: the instances of the run whose task the DAG
    no longer has are marked removed. *)
Definition removing_repair (dag : DAG) (run_id : string)
    (m : gmap TIKey TIRow) : gmap TIKey TIRow :=
  map_imap (fun (k : TIKey) (r : TIRow) =>
              let '(d, t, r', _) := k in
              if decide (d = dag_id dag /\ r' = run_id /\
                         t ∉ task_id <$> tasks dag)
              then Some (set_row_state (Some REMOVED) r)
              else Some r) m.

(** The runs of the days 1 to 3 with, in the run of day 1, an instance of
    task "a" without a state and a running instance of a task "b" that the
    DAG no longer has. *)
Definition stale_session : Session :=
  mkSession
    {[ ("dag", "a", "backfill__1", -1) := mkTIRow None 0 (Some 5) None None;
       ("dag", "b", "backfill__1", -1) := mkTIRow (Some RUNNING) 0 (Some 5) None None ]}
    example_runs 0.

Definition returned_instances (r : option (Session * outcome (list TaskInstance)))
  : list TaskInstance :=
  match r with
  | Some (_, Returned l) => l
  | _ => []
  end.

End MarkTasks.

(** * Properties *)

(** ** Mapped Task Expander *)
Module MappedOperatorFacts.
Import MappedOperator.

Section Facts.

Context (unfinished : TaskInstanceState -> bool) (hook : TIRow -> TIRow).

Local Abbreviation expand := (expand_mapped_task unfinished hook).
Local Abbreviation create := (create_instances hook).

Lemma func_max_nil (l : list Z) : func_max l = None <-> l = [].
Proof. destruct l; simpl; split; congruence. Qed.

Lemma func_max_upper (l : list Z) (b : Z) :
  func_max l = Some b -> b ∈ l /\ (forall i, i ∈ l -> i <= b).
Proof.
  revert b. induction l as [|a l IH]; intros b; simpl; [discriminate|].
  destruct (func_max l) as [c|] eqn:E.
  - intros [= <-]. destruct (IH c eq_refl) as [Hin Hle]. split.
    + destruct (Z.max_spec a c) as [[_ ->]|[_ ->]]; [right|left]; done.
    + intros i [->|Hi]%elem_of_cons; [lia|]. specialize (Hle i Hi). lia.
  - intros [= <-]. apply func_max_nil in E as ->. split; [left|].
    intros i [->|Hi]%elem_of_cons; [lia|]. by apply elem_of_nil in Hi.
Qed.

Lemma elem_of_map_indexes (m : gmap TIKey TIRow) (dag task run : string) (i : Z) :
  i ∈ map_indexes m dag task run <-> is_Some (m !! (dag, task, run, i)).
Proof.
  unfold map_indexes. rewrite list_elem_of_omap. split.
  - intros [[[[[d t] r] j] row] [Hin Heq]].
    apply elem_of_map_to_list in Hin.
    destruct (decide _) as [(-> & -> & ->)|]; [|discriminate].
    injection Heq as ->. eauto.
  - intros [row Hrow]. exists ((dag, task, run, i), row). split.
    + by apply elem_of_map_to_list.
    + rewrite decide_True; done.
Qed.

Lemma func_max_present (m : gmap TIKey TIRow) (dag task run : string) (i : Z) (row : TIRow) :
  m !! (dag, task, run, i) = Some row ->
  exists b, func_max (map_indexes m dag task run) = Some b /\ i <= b.
Proof.
  intros Hrow.
  assert (Hin : i ∈ map_indexes m dag task run)
    by (apply elem_of_map_indexes; eauto).
  destruct (func_max _) as [b|] eqn:E.
  - exists b. split; [done|]. by apply (func_max_upper _ _ E).
  - apply func_max_nil in E. rewrite E in Hin. by apply elem_of_nil in Hin.
Qed.

Lemma create_ret (dag task run : string)
    (st : option TaskInstanceState) (idxs : list Z)
    (m : gmap TIKey TIRow) (ret : list TaskInstance) :
  (create dag task run st idxs m ret).2 =
  ret ++ map (fun i => ti_of (dag, task, run, i) (hook (new_row st))) idxs.
Proof.
  revert m ret. induction idxs as [|i idxs IH]; intros m ret; simpl.
  - by rewrite app_nil_r.
  - rewrite IH. by rewrite <- app_assoc.
Qed.

Lemma create_lookup_old (dag task run : string)
    (st : option TaskInstanceState) (idxs : list Z)
    (m : gmap TIKey TIRow) (ret : list TaskInstance) (k : TIKey) :
  (forall i, i ∈ idxs -> k <> (dag, task, run, i)) ->
  (create dag task run st idxs m ret).1 !! k = m !! k.
Proof.
  revert m ret. induction idxs as [|j idxs IH]; intros m ret Hk; simpl; [done|].
  rewrite IH by (intros i Hi; apply Hk; by right).
  apply lookup_insert_ne. intros Heq. by apply (Hk j); [left|].
Qed.

Lemma create_lookup_new (dag task run : string)
    (st : option TaskInstanceState) (idxs : list Z)
    (m : gmap TIKey TIRow) (ret : list TaskInstance) (i : Z) :
  i ∈ idxs ->
  (create dag task run st idxs m ret).1 !! (dag, task, run, i)
  = Some (hook (new_row st)).
Proof.
  revert m ret. induction idxs as [|j idxs IH]; intros m ret Hin; simpl.
  - by apply elem_of_nil in Hin.
  - destruct (decide (i ∈ idxs)) as [Hi|Hi]; [by apply IH|].
    apply elem_of_cons in Hin as [->|]; [|done].
    rewrite create_lookup_old; [apply lookup_insert_eq|].
    intros i Hi' [= ->]. done.
Qed.

Lemma create_dom (dag task run : string)
    (st : option TaskInstanceState) (idxs : list Z)
    (m : gmap TIKey TIRow) (ret : list TaskInstance) (k : TIKey) :
  is_Some ((create dag task run st idxs m ret).1 !! k) <->
  is_Some (m !! k) \/ exists i, i ∈ idxs /\ k = (dag, task, run, i).
Proof.
  destruct k as [[[d t] r] j].
  destruct (decide (d = dag /\ t = task /\ r = run /\ j ∈ idxs))
    as [(-> & -> & -> & Hj)|Hno].
  - rewrite create_lookup_new by done. split; eauto.
  - rewrite create_lookup_old by (intros i Hi [= -> -> -> ->]; by apply Hno).
    split; [by left|]. intros [?|(i & Hi & [= -> -> -> ->])]; [done|].
    exfalso. by apply Hno.
Qed.

Lemma mark_removed_lookup (dag task run : string) (len : Z)
    (m : gmap TIKey TIRow) (d t r : string) (i : Z) :
  mark_removed dag task run len m !! (d, t, r, i) =
  (fun row => if decide (d = dag /\ t = task /\ r = run /\ len <= i)
              then set_row_state (Some REMOVED) row else row)
    <$> m !! (d, t, r, i).
Proof.
  unfold mark_removed. rewrite map_lookup_imap.
  destruct (m !! (d, t, r, i)) as [row|]; simpl; [|done].
  by destruct (decide _).
Qed.

Lemma mark_removed_below (dag task run : string) (len : Z)
    (m : gmap TIKey TIRow) (i : Z) :
  i < len ->
  mark_removed dag task run len m !! (dag, task, run, i) = m !! (dag, task, run, i).
Proof.
  intros Hlt. rewrite mark_removed_lookup.
  destruct (m !! _) as [row|]; simpl; [|done].
  by rewrite decide_False by lia.
Qed.

Lemma mark_removed_other (dag task run : string) (len : Z)
    (m : gmap TIKey TIRow) (d t r : string) (i : Z) :
  (d, t, r) <> (dag, task, run) ->
  mark_removed dag task run len m !! (d, t, r, i) = m !! (d, t, r, i).
Proof.
  intros Hne. rewrite mark_removed_lookup.
  destruct (m !! _) as [row|]; simpl; [|done].
  by rewrite decide_False by (intros (-> & -> & -> & _); done).
Qed.

Lemma mark_removed_from (dag task run : string) (len : Z)
    (m : gmap TIKey TIRow) (i : Z) :
  len <= i ->
  mark_removed dag task run len m !! (dag, task, run, i)
  = set_row_state (Some REMOVED) <$> m !! (dag, task, run, i).
Proof.
  intros Hle. rewrite mark_removed_lookup.
  destruct (m !! _) as [row|]; simpl; [|done].
  by rewrite decide_True.
Qed.

Lemma mark_removed_is_Some (dag task run : string) (len : Z)
    (m : gmap TIKey TIRow) (k : TIKey) :
  is_Some (mark_removed dag task run len m !! k) <-> is_Some (m !! k).
Proof.
  destruct k as [[[d t] r] i]. rewrite mark_removed_lookup.
  by rewrite fmap_is_Some.
Qed.

(** *** The four paths of one call *)

Lemma expand_upstream_missing (self : string) (up : TIKey) (s : Session) :
  task_map s !! up = None ->
  expand self up s =
  (s, Raised (RuntimeError "mapped operator cannot be expanded; upstream not found")).
Proof.
  intros Hnone. unfold expand_mapped_task.
  destruct up as [[[d t] r] i]. by rewrite Hnone.
Qed.

Lemma expand_skip_path (self dag ut run : string) (ui : Z) (s : Session) (len : Z)
    (row : TIRow) :
  task_map s !! (dag, ut, run, ui) = Some len ->
  task_instance s !! (dag, self, run, -1) = Some row ->
  is_unfinished unfinished row = true ->
  len < 1 ->
  expand self (dag, ut, run, ui) s =
  (with_tis s (<[(dag, self, run, -1) := set_row_state (Some SKIPPED) row]>
                 (task_instance s)),
   Returned []).
Proof.
  intros Hlen Hrow Hunf Hlt. unfold expand_mapped_task.
  rewrite Hlen, Hrow, Hunf. by rewrite decide_True.
Qed.

Lemma expand_rekey_path (self dag ut run : string) (ui : Z) (s : Session) (len : Z)
    (row : TIRow) :
  task_map s !! (dag, ut, run, ui) = Some len ->
  task_instance s !! (dag, self, run, -1) = Some row ->
  is_unfinished unfinished row = true ->
  1 <= len ->
  task_instance s !! (dag, self, run, 0) = None ->
  expand self (dag, ut, run, ui) s =
  (with_tis s
     (mark_removed dag self run len
        (create dag self run (state row) (py_range 1 len)
           (<[(dag, self, run, 0) := row]>
              (delete (dag, self, run, -1) (task_instance s)))
           [ti_of (dag, self, run, 0) row]).1),
   Returned (ti_of (dag, self, run, 0) row ::
             map (fun i => ti_of (dag, self, run, i) (hook (new_row (state row))))
                 (py_range 1 len))).
Proof.
  intros Hlen Hrow Hunf Hge Hfree. unfold expand_mapped_task.
  rewrite Hlen, Hrow, Hunf, Hfree. rewrite decide_False by lia.
  destruct (create _ _ _ _ _ _ _) as [tis1 ret] eqn:E.
  pose proof (create_ret dag self run (state row) (py_range 1 len)
    (<[(dag, self, run, 0) := row]> (delete (dag, self, run, -1) (task_instance s)))
    [ti_of (dag, self, run, 0) row]) as Hret.
  rewrite E in Hret. simpl in Hret. by subst ret.
Qed.

Lemma expand_rekey_conflict (self dag ut run : string) (ui : Z) (s : Session) (len : Z)
    (row other : TIRow) :
  task_map s !! (dag, ut, run, ui) = Some len ->
  task_instance s !! (dag, self, run, -1) = Some row ->
  is_unfinished unfinished row = true ->
  1 <= len ->
  task_instance s !! (dag, self, run, 0) = Some other ->
  expand self (dag, ut, run, ui) s =
  (s, Raised (IntegrityError "task_instance_pkey")).
Proof.
  intros Hlen Hrow Hunf Hge Hocc. unfold expand_mapped_task.
  rewrite Hlen, Hrow, Hunf, Hocc. by rewrite decide_False by lia.
Qed.

(** No unfinished placeholder: the query for it yields nothing. *)
Definition no_unfinished_placeholder (s : Session) (dag self run : string) : Prop :=
  forall row, task_instance s !! (dag, self, run, -1) = Some row ->
              is_unfinished unfinished row = false.

Lemma expand_grow_path (self dag ut run : string) (ui : Z) (s : Session) (len b : Z) :
  task_map s !! (dag, ut, run, ui) = Some len ->
  no_unfinished_placeholder s dag self run ->
  func_max (map_indexes (task_instance s) dag self run) = Some b ->
  expand self (dag, ut, run, ui) s =
  (with_tis s
     (mark_removed dag self run len
        (create dag self run None (py_range (b + 1) len) (task_instance s) []).1),
   Returned (map (fun i => ti_of (dag, self, run, i) (hook (new_row None)))
                 (py_range (b + 1) len))).
Proof.
  intros Hlen Hno Hmax. unfold expand_mapped_task. rewrite Hlen.
  assert (Hq : match task_instance s !! (dag, self, run, -1) with
               | Some r => if is_unfinished unfinished r then Some r else None
               | None => None
               end = None).
  { destruct (task_instance s !! _) as [row|] eqn:E; [|done].
    by rewrite (Hno row E). }
  rewrite Hq, Hmax.
  destruct (create _ _ _ _ _ _ _) as [tis1 ret] eqn:E.
  pose proof (create_ret dag self run None (py_range (b + 1) len)
                (task_instance s) []) as Hret.
  rewrite E in Hret. simpl in Hret. by subst ret.
Qed.

Lemma expand_no_rows (self dag ut run : string) (ui : Z) (s : Session) (len : Z) :
  task_map s !! (dag, ut, run, ui) = Some len ->
  no_unfinished_placeholder s dag self run ->
  func_max (map_indexes (task_instance s) dag self run) = None ->
  expand self (dag, ut, run, ui) s =
  (s, Raised (TypeError "unsupported operand type(s) for +: 'NoneType' and 'int'")).
Proof.
  intros Hlen Hno Hmax. unfold expand_mapped_task. rewrite Hlen.
  destruct (task_instance s !! _) as [row|] eqn:E.
  - rewrite (Hno row E). by rewrite Hmax.
  - by rewrite Hmax.
Qed.

(** Every call that returns took one of three paths. *)
Lemma expand_returned_inv (self dag ut run : string) (ui : Z)
    (s s' : Session) (ret : list TaskInstance) :
  expand self (dag, ut, run, ui) s = (s', Returned ret) ->
  exists len, task_map s !! (dag, ut, run, ui) = Some len /\
  ((exists row,
      task_instance s !! (dag, self, run, -1) = Some row /\
      is_unfinished unfinished row = true /\ len < 1 /\
      s' = with_tis s (<[(dag, self, run, -1) := set_row_state (Some SKIPPED) row]>
                         (task_instance s)) /\
      ret = [])
   \/ (exists row,
      task_instance s !! (dag, self, run, -1) = Some row /\
      is_unfinished unfinished row = true /\ 1 <= len /\
      task_instance s !! (dag, self, run, 0) = None /\
      s' = with_tis s
             (mark_removed dag self run len
                (create dag self run (state row) (py_range 1 len)
                   (<[(dag, self, run, 0) := row]>
                      (delete (dag, self, run, -1) (task_instance s)))
                   [ti_of (dag, self, run, 0) row]).1) /\
      ret = ti_of (dag, self, run, 0) row ::
            map (fun i => ti_of (dag, self, run, i) (hook (new_row (state row))))
                (py_range 1 len))
   \/ (no_unfinished_placeholder s dag self run /\
       exists b,
         func_max (map_indexes (task_instance s) dag self run) = Some b /\
         s' = with_tis s
                (mark_removed dag self run len
                   (create dag self run None (py_range (b + 1) len)
                      (task_instance s) []).1) /\
         ret = map (fun i => ti_of (dag, self, run, i) (hook (new_row None)))
                   (py_range (b + 1) len))).
Proof.
  intros Hcall.
  destruct (task_map s !! (dag, ut, run, ui)) as [len|] eqn:Hlen.
  2:{ rewrite expand_upstream_missing in Hcall by done. discriminate. }
  exists len. split; [done|].
  destruct (task_instance s !! (dag, self, run, -1)) as [row|] eqn:Hrow.
  - destruct (is_unfinished unfinished row) eqn:Hunf.
    + destruct (decide (len < 1)) as [Hlt|Hge].
      * rewrite (expand_skip_path _ _ _ _ _ _ _ _ Hlen Hrow Hunf Hlt) in Hcall.
        injection Hcall as <- <-. left. exists row. done.
      * destruct (task_instance s !! (dag, self, run, 0)) as [other|] eqn:Hfirst.
        { rewrite (expand_rekey_conflict _ _ _ _ _ _ _ _ _ Hlen Hrow Hunf
                     ltac:(lia) Hfirst) in Hcall. discriminate. }
        rewrite (expand_rekey_path _ _ _ _ _ _ _ _ Hlen Hrow Hunf
                   ltac:(lia) Hfirst) in Hcall.
        injection Hcall as <- <-. right; left. exists row.
        repeat split; try done. lia.
    + assert (Hno : no_unfinished_placeholder s dag self run).
      { intros row' Hrow'. rewrite Hrow in Hrow'. by injection Hrow' as <-. }
      destruct (func_max (map_indexes (task_instance s) dag self run))
        as [b|] eqn:Hmax.
      * rewrite (expand_grow_path _ _ _ _ _ _ _ _ Hlen Hno Hmax) in Hcall.
        injection Hcall as <- <-. right; right. split; [done|]. by exists b.
      * rewrite (expand_no_rows _ _ _ _ _ _ _ Hlen Hno Hmax) in Hcall.
        discriminate.
  - assert (Hno : no_unfinished_placeholder s dag self run).
    { intros row' Hrow'. rewrite Hrow in Hrow'. discriminate. }
    destruct (func_max (map_indexes (task_instance s) dag self run))
      as [b|] eqn:Hmax.
    + rewrite (expand_grow_path _ _ _ _ _ _ _ _ Hlen Hno Hmax) in Hcall.
      injection Hcall as <- <-. right; right. split; [done|]. by exists b.
    + rewrite (expand_no_rows _ _ _ _ _ _ _ Hlen Hno Hmax) in Hcall.
      discriminate.
Qed.

Lemma py_range_sorted (a b : Z) : StronglySorted Z.lt (py_range a b).
Proof.
  unfold py_range. remember (Z.to_nat (b - a)) as n eqn:Hn.
  revert a b Hn. induction n as [|n IH]; intros a b Hn.
  - rewrite seqZ_nil by lia. constructor.
  - rewrite seqZ_cons by lia. constructor.
    + replace (Z.pred (b - a)) with (b - Z.succ a) by lia. apply IH. lia.
    + apply Forall_seqZ. lia.
Qed.

Lemma map_index_of_created (dag task run : string) (r : Z -> TIRow) (l : list Z) :
  map ti_map_index (map (fun i => ti_of (dag, task, run, i) (r i)) l) = l.
Proof. induction l as [|i l IH]; simpl; [done|]. f_equal. exact IH. Qed.

(** *** What a returned call leaves behind *)

(** The data model's range of map indexes: -1 for the placeholder, ordinals
    from 0 for the expanded instances. *)
Definition index_floor (m : gmap TIKey TIRow) (dag self run : string) : Prop :=
  forall i : Z, is_Some (m !! (dag, self, run, i)) -> -1 <= i.

Lemma func_max_floor (m : gmap TIKey TIRow) (dag self run : string) (b : Z) :
  index_floor m dag self run ->
  func_max (map_indexes m dag self run) = Some b -> -1 <= b.
Proof.
  intros Hfloor Hmax. apply Hfloor, elem_of_map_indexes.
  by apply (func_max_upper _ _ Hmax).
Qed.

Lemma after_expand (self dag ut run : string) (ui : Z) (s s' : Session)
    (ret : list TaskInstance) (len : Z) :
  index_floor (task_instance s) dag self run ->
  task_map s !! (dag, ut, run, ui) = Some len ->
  expand self (dag, ut, run, ui) s = (s', Returned ret) ->
  index_floor (task_instance s') dag self run /\
  (1 <= len ->
   no_unfinished_placeholder s' dag self run /\
   (exists b, func_max (map_indexes (task_instance s') dag self run) = Some b
              /\ len - 1 <= b) /\
   (forall i row, len <= i ->
      task_instance s' !! (dag, self, run, i) = Some row ->
      state row = Some REMOVED)).
Proof.
  intros Hfloor Hlen Hcall.
  destruct (expand_returned_inv _ _ _ _ _ _ _ _ Hcall) as (len' & Hlen' & Hcase).
  rewrite Hlen in Hlen'. injection Hlen' as <-.
  destruct Hcase as [(row & Hrow & Hunf & Hlt & -> & ->)
                    |[(row & Hrow & Hunf & Hge & Hfree & -> & ->)
                     |(Hno & b & Hmax & -> & ->)]];
    unfold no_unfinished_placeholder in *;
    cbn [with_tis task_instance task_map].
  - split; [|lia]. intros i Hi. apply Hfloor.
    destruct (decide ((dag, self, run, -1) = (dag, self, run, i))) as [<-|Hne].
    + eauto.
    + by rewrite lookup_insert_ne in Hi.
  - split.
    { intros i Hi. apply mark_removed_is_Some, create_dom in Hi.
      destruct Hi as [Hi|(j & Hj & [= ->])].
      - destruct (decide (i = 0)) as [->|Hne]; [lia|].
        rewrite lookup_insert_ne in Hi by congruence.
        apply Hfloor. destruct Hi as [x Hx].
        apply lookup_delete_Some in Hx as [_ Hx]. eauto.
      - apply elem_of_seqZ in Hj. lia. }
    intros _. repeat split.
    + intros r Hr. exfalso.
      rewrite mark_removed_below in Hr by lia.
      rewrite create_lookup_old in Hr.
      * rewrite lookup_insert_ne in Hr by congruence.
        by rewrite lookup_delete_eq in Hr.
      * intros i Hi [= <-]. apply elem_of_seqZ in Hi. lia.
    + assert (Hlast : is_Some
                (mark_removed dag self run len
                   (create dag self run (state row) (py_range 1 len)
                      (<[(dag, self, run, 0) := row]>
                         (delete (dag, self, run, -1) (task_instance s)))
                      [ti_of (dag, self, run, 0) row]).1
                 !! (dag, self, run, len - 1))).
      { apply mark_removed_is_Some, create_dom.
        destruct (decide (len = 1)) as [->|Hne].
        - left. replace (1 - 1) with 0 by lia. rewrite lookup_insert_eq. eauto.
        - right. exists (len - 1). split; [|done].
          apply elem_of_seqZ. lia. }
      destruct Hlast as [x Hx].
      destruct (func_max_present _ _ _ _ _ _ Hx) as (b & Hb & Hle). eauto.
    + intros i r Hi Hr. rewrite mark_removed_from in Hr by done.
      apply fmap_Some in Hr as (r0 & _ & ->). done.
  - pose proof (func_max_floor _ _ _ _ _ Hfloor Hmax) as Hb.
    split.
    { intros i Hi. apply mark_removed_is_Some, create_dom in Hi.
      destruct Hi as [Hi|(j & Hj & [= ->])]; [by apply Hfloor|].
      apply elem_of_seqZ in Hj. lia. }
    intros Hge. repeat split.
    + intros r Hr. apply Hno.
      rewrite mark_removed_below in Hr by lia.
      rewrite create_lookup_old in Hr; [done|].
      intros i Hi [= <-]. apply elem_of_seqZ in Hi. lia.
    + assert (Hlast : is_Some
                (mark_removed dag self run len
                   (create dag self run None (py_range (b + 1) len)
                      (task_instance s) []).1
                 !! (dag, self, run, Z.max b (len - 1)))).
      { apply mark_removed_is_Some, create_dom.
        destruct (decide (len - 1 <= b)) as [Hle|Hgt].
        - left. rewrite Z.max_l by lia. apply elem_of_map_indexes.
          by apply (func_max_upper _ _ Hmax).
        - right. exists (len - 1). split.
          + apply elem_of_seqZ. lia.
          + f_equal. lia. }
      destruct Hlast as [x Hx].
      destruct (func_max_present _ _ _ _ _ _ Hx) as (b1 & Hb1 & Hle).
      exists b1. split; [done|]. lia.
    + intros i r Hi Hr. rewrite mark_removed_from in Hr by done.
      apply fmap_Some in Hr as (r0 & _ & ->). done.
Qed.

Lemma record_length_lookup (up : TIKey) (len : Z) (s : Session) :
  task_map (record_length up len s) !! up = Some len.
Proof. apply lookup_insert_eq. Qed.

(** A pass after a returned pass of length [prev >= 1]: only the tail
    beyond the stored maximum is created, then the rows from [len] on are
    marked. *)
Lemma expand_after_pass (self dag ut run : string) (ui : Z) (s0 s1 s2 : Session)
    (ret1 ret2 : list TaskInstance) (prev len : Z) :
  index_floor (task_instance s0) dag self run ->
  1 <= prev ->
  expand self (dag, ut, run, ui) (record_length (dag, ut, run, ui) prev s0)
    = (s1, Returned ret1) ->
  expand self (dag, ut, run, ui) (record_length (dag, ut, run, ui) len s1)
    = (s2, Returned ret2) ->
  exists b,
    prev - 1 <= b /\
    (forall i, b < i -> task_instance s1 !! (dag, self, run, i) = None) /\
    (forall i row, prev <= i ->
       task_instance s1 !! (dag, self, run, i) = Some row ->
       state row = Some REMOVED) /\
    task_instance s2 =
      mark_removed dag self run len
        (create dag self run None (py_range (b + 1) len) (task_instance s1) []).1 /\
    ret2 = map (fun i => ti_of (dag, self, run, i) (hook (new_row None)))
               (py_range (b + 1) len).
Proof.
  intros Hfloor Hprev Hcall1 Hcall2.
  destruct (after_expand self dag ut run ui
              (record_length (dag, ut, run, ui) prev s0) s1 ret1 prev Hfloor
              (record_length_lookup _ _ _) Hcall1)
    as (Hfloor1 & Hpost).
  destruct (Hpost Hprev) as (Hno & (b & Hmax & Hb) & Hrem).
  exists b. split; [done|]. split; [|split; [done|]].
  - intros i Hi. destruct (task_instance s1 !! (dag, self, run, i)) eqn:E; [|done].
    destruct (func_max_present _ _ _ _ _ _ E) as (b' & Hb' & Hle).
    rewrite Hmax in Hb'. injection Hb' as <-. lia.
  - rewrite (expand_grow_path self dag ut run ui
               (record_length (dag, ut, run, ui) len s1) len b
               (record_length_lookup _ _ _) Hno Hmax) in Hcall2.
    injection Hcall2 as <- <-. done.
Qed.

(** Two passes, the second with a length at least the first: the rows the
    first pass left at the indexes below its length are the same rows after
    the second. *)
Lemma second_pass_keeps_rows (self dag ut run : string) (ui : Z)
    (s0 s1 s2 : Session) (ret1 ret2 : list TaskInstance) (prev len : Z) :
  index_floor (task_instance s0) dag self run ->
  prev <= len ->
  expand self (dag, ut, run, ui) (record_length (dag, ut, run, ui) prev s0)
    = (s1, Returned ret1) ->
  expand self (dag, ut, run, ui) (record_length (dag, ut, run, ui) len s1)
    = (s2, Returned ret2) ->
  forall i, 0 <= i < prev ->
    task_instance s2 !! (dag, self, run, i) = task_instance s1 !! (dag, self, run, i).
Proof.
  intros Hfloor Hle Hcall1 Hcall2 i Hi.
  assert (Hprev : 1 <= prev) by lia.
  destruct (expand_after_pass _ _ _ _ _ _ _ _ _ _ _ _ Hfloor Hprev
              Hcall1 Hcall2) as (b & Hb & _ & _ & -> & _).
  rewrite mark_removed_below by lia.
  apply create_lookup_old. intros j Hj [= ->].
  apply elem_of_seqZ in Hj. lia.
Qed.

Lemma passes_keep_rows (self dag ut run : string) (ui : Z) (lens : list Z) :
  forall (s0 s1 s_end : Session) (ret1 : list TaskInstance) (prev : Z),
  index_floor (task_instance s0) dag self run ->
  StronglySorted Z.le (prev :: lens) ->
  expand self (dag, ut, run, ui) (record_length (dag, ut, run, ui) prev s0)
    = (s1, Returned ret1) ->
  expand_passes unfinished hook self (dag, ut, run, ui) lens s1 = Some s_end ->
  forall i, 0 <= i < prev ->
    task_instance s_end !! (dag, self, run, i)
    = task_instance s1 !! (dag, self, run, i).
Proof.
  induction lens as [|len lens IH];
    intros s0 s1 s_end ret1 prev Hfloor Hsorted Hcall1 Hpasses i Hi.
  - simpl in Hpasses. by injection Hpasses as <-.
  - cbn [expand_passes] in Hpasses.
    destruct (expand self (dag, ut, run, ui)
                (record_length (dag, ut, run, ui) len s1))
      as [s2 [ret2|e]] eqn:Hcall2; [|discriminate].
    apply StronglySorted_cons in Hsorted as [Hall Hsorted].
    pose proof (Forall_inv Hall) as Hle.
    destruct (after_expand self dag ut run ui
                (record_length (dag, ut, run, ui) prev s0) s1 ret1 prev Hfloor
                (record_length_lookup _ _ _) Hcall1) as [Hfloor1 _].
    rewrite (IH s1 s2 s_end ret2 len Hfloor1 Hsorted Hcall2 Hpasses i)
      by lia.
    by apply (second_pass_keeps_rows _ _ _ _ _ _ _ _ _ _ _ _ Hfloor Hle
                Hcall1 Hcall2).
Qed.

Lemma set_row_state_same (st : option TaskInstanceState) (row : TIRow) :
  state row = st -> set_row_state st row = row.
Proof. destruct row; simpl; by intros ->. Qed.

(** After a returned pass of length [prev >= 1] every later pass returns. *)
Lemma pass_after_pass_returns (self dag ut run : string) (ui : Z)
    (s0 s1 : Session) (ret1 : list TaskInstance) (prev len : Z) :
  index_floor (task_instance s0) dag self run ->
  1 <= prev ->
  expand self (dag, ut, run, ui) (record_length (dag, ut, run, ui) prev s0)
    = (s1, Returned ret1) ->
  exists s2 ret2,
    expand self (dag, ut, run, ui) (record_length (dag, ut, run, ui) len s1)
    = (s2, Returned ret2).
Proof.
  intros Hfloor Hprev Hcall1.
  destruct (after_expand self dag ut run ui
              (record_length (dag, ut, run, ui) prev s0) s1 ret1 prev Hfloor
              (record_length_lookup _ _ _) Hcall1) as (_ & Hpost).
  destruct (Hpost Hprev) as (Hno & (b & Hmax & _) & _).
  rewrite (expand_grow_path self dag ut run ui
             (record_length (dag, ut, run, ui) len s1) len b
             (record_length_lookup _ _ _) Hno Hmax).
  eauto.
Qed.

Lemma passes_return (self dag ut run : string) (ui : Z) (lens : list Z) :
  forall (s0 s1 : Session) (ret1 : list TaskInstance) (prev : Z),
  index_floor (task_instance s0) dag self run ->
  1 <= prev ->
  StronglySorted Z.le (prev :: lens) ->
  expand self (dag, ut, run, ui) (record_length (dag, ut, run, ui) prev s0)
    = (s1, Returned ret1) ->
  exists s_end,
    expand_passes unfinished hook self (dag, ut, run, ui) lens s1 = Some s_end.
Proof.
  induction lens as [|len lens IH]; intros s0 s1 ret1 prev Hfloor Hprev Hsorted Hcall1.
  - by exists s1.
  - cbn [expand_passes].
    destruct (pass_after_pass_returns _ _ _ _ _ _ _ _ _ len Hfloor Hprev Hcall1)
      as (s2 & ret2 & Hcall2).
    rewrite Hcall2.
    apply StronglySorted_cons in Hsorted as [Hall Hsorted].
    pose proof (Forall_inv Hall) as Hle.
    destruct (after_expand self dag ut run ui
                (record_length (dag, ut, run, ui) prev s0) s1 ret1 prev Hfloor
                (record_length_lookup _ _ _) Hcall1) as [Hfloor1 _].
    apply (IH s1 s2 ret2 len Hfloor1); [lia|done|done].
Qed.

(** A pass with a smaller length after a pass of length [prev]. *)
Lemma shrinking_pass (self dag ut run : string) (ui : Z)
    (s0 s1 : Session) (ret1 : list TaskInstance) (prev len : Z) :
  index_floor (task_instance s0) dag self run ->
  0 <= len < prev ->
  expand self (dag, ut, run, ui) (record_length (dag, ut, run, ui) prev s0)
    = (s1, Returned ret1) ->
  exists s2,
    expand self (dag, ut, run, ui) (record_length (dag, ut, run, ui) len s1)
      = (s2, Returned []) /\
    task_instance s2 = mark_removed dag self run len (task_instance s1) /\
    (forall i row, prev <= i ->
       task_instance s1 !! (dag, self, run, i) = Some row ->
       state row = Some REMOVED).
Proof.
  intros Hfloor Hlen Hcall1.
  assert (Hprev : 1 <= prev) by lia.
  destruct (pass_after_pass_returns _ _ _ _ _ _ _ _ _ len Hfloor Hprev Hcall1)
    as (s2 & ret2 & Hcall2).
  destruct (expand_after_pass _ _ _ _ _ _ _ _ _ _ _ _ Hfloor Hprev
              Hcall1 Hcall2) as (b & Hb & _ & Hrem & Htis & Hret).
  unfold py_range in Htis, Hret. rewrite seqZ_nil in Htis, Hret by lia.
  simpl in Htis, Hret. subst ret2. by exists s2.
Qed.

(** C4. One mapped task in one run, map indexes from -1 up, and a pass of
    [expand_mapped_task] that returned with the resolved length [prev].
    (a) Through any further passes whose lengths never decrease, the rows at
    the indexes 0 .. prev-1 stay the very rows that pass left: none is
    removed, none is created again; and those passes all return.
    (b) A next pass with a smaller length [len] (0 <= len < prev) returns,
    creates nothing, puts exactly the existing rows at the indexes
    len .. prev-1 in state [removed], and leaves every row below [len]
    (indeed every other row of the store) as it was. *)
Theorem expand_grows_forward_and_shrinks_by_removal
    (self dag ut run : string) (ui : Z) (s0 s1 : Session)
    (ret1 : list TaskInstance) (prev : Z) :
  index_floor (task_instance s0) dag self run ->
  expand self (dag, ut, run, ui) (record_length (dag, ut, run, ui) prev s0)
    = (s1, Returned ret1) ->
  (forall lens,
     StronglySorted Z.le (prev :: lens) ->
     (forall s_end,
        expand_passes unfinished hook self (dag, ut, run, ui) lens s1 = Some s_end ->
        forall i, 0 <= i < prev ->
          task_instance s_end !! (dag, self, run, i)
          = task_instance s1 !! (dag, self, run, i)) /\
     (1 <= prev ->
      exists s_end,
        expand_passes unfinished hook self (dag, ut, run, ui) lens s1 = Some s_end))
  /\
  (forall len,
     0 <= len < prev ->
     exists s2,
       expand self (dag, ut, run, ui) (record_length (dag, ut, run, ui) len s1)
         = (s2, Returned []) /\
       (forall i row, len <= i < prev ->
          task_instance s1 !! (dag, self, run, i) = Some row ->
          task_instance s2 !! (dag, self, run, i)
          = Some (set_row_state (Some REMOVED) row)) /\
       (forall i, i < len ->
          task_instance s2 !! (dag, self, run, i)
          = task_instance s1 !! (dag, self, run, i)) /\
       (forall k : TIKey,
          task_instance s2 !! k <> task_instance s1 !! k ->
          exists i, k = (dag, self, run, i) /\ len <= i < prev) /\
       dom (task_instance s2) = dom (task_instance s1)).
Proof.
  intros Hfloor Hcall1. split.
  - intros lens Hsorted. split.
    + intros s_end Hpasses.
      by apply (passes_keep_rows self dag ut run ui lens s0 s1 s_end ret1 prev).
    + intros Hprev. by apply (passes_return self dag ut run ui lens s0 s1 ret1 prev).
  - intros len Hlen.
    destruct (shrinking_pass _ _ _ _ _ _ _ _ _ len Hfloor Hlen Hcall1)
      as (s2 & Hcall2 & Htis & Hrem).
    exists s2. split; [done|]. rewrite Htis. repeat split.
    + intros i row Hi Hrow. rewrite mark_removed_from by lia. by rewrite Hrow.
    + intros i Hi. by apply mark_removed_below.
    + intros [[[d t] r] i] Hdiff. rewrite mark_removed_lookup in Hdiff.
      destruct (task_instance s1 !! (d, t, r, i)) as [row|] eqn:Hrow;
        simpl in Hdiff; [|done].
      destruct (decide _) as [(-> & -> & -> & Hi)|]; [|done].
      exists i. split; [done|]. split; [done|].
      destruct (decide (i < prev)) as [|Hge]; [done|]. exfalso. apply Hdiff.
      f_equal. apply set_row_state_same. apply (Hrem i); [lia|done].
    + apply set_eq. intros k. rewrite !elem_of_dom.
      apply mark_removed_is_Some.
Qed.

(** C1, as the code has it. For a resolved length [len >= 1]:
    with an unfinished placeholder (and index 0 free) the call returns the
    instances of the indexes 0 .. len-1, the placeholder re-keyed to 0 first;
    without one, and with [b] the largest stored map index of the task in the
    run, it returns only the instances it creates, those of the indexes
    b+1 .. len-1, none of which existed before. Whatever is returned is in
    ascending order of map_index, belongs to the task and the run, and is
    the row stored under its key when the call returns. *)
Theorem expand_returns_ascending_created_range
    (self dag ut run : string) (ui : Z) (s : Session) (len : Z) :
  task_map s !! (dag, ut, run, ui) = Some len ->
  1 <= len ->
  (forall row,
     task_instance s !! (dag, self, run, -1) = Some row ->
     is_unfinished unfinished row = true ->
     task_instance s !! (dag, self, run, 0) = None ->
     exists s' ret,
       expand self (dag, ut, run, ui) s = (s', Returned ret) /\
       map ti_map_index ret = py_range 0 len /\
       head ret = Some (ti_of (dag, self, run, 0) row))
  /\
  (forall b,
     no_unfinished_placeholder s dag self run ->
     func_max (map_indexes (task_instance s) dag self run) = Some b ->
     exists s' ret,
       expand self (dag, ut, run, ui) s = (s', Returned ret) /\
       map ti_map_index ret = py_range (b + 1) len /\
       Forall (fun ti => task_instance s !! ti_key ti = None) ret)
  /\
  (forall s' ret,
     expand self (dag, ut, run, ui) s = (s', Returned ret) ->
     StronglySorted Z.lt (map ti_map_index ret) /\
     Forall (fun ti =>
               (ti_dag_id ti, ti_task_id ti, ti_run_id ti) = (dag, self, run) /\
               task_instance s' !! ti_key ti = Some (ti_row ti)) ret).
Proof.
  intros Hlen Hge. split; [|split].
  - intros row Hrow Hunf Hfree.
    rewrite (expand_rekey_path _ _ _ _ _ _ _ _ Hlen Hrow Hunf Hge Hfree).
    eexists _, _. split; [done|]. split; [|done].
    rewrite map_cons, map_index_of_created.
    unfold py_range. rewrite (seqZ_cons 0) by lia.
    apply (f_equal2 cons); [reflexivity | f_equal; lia].
  - intros b Hno Hmax.
    rewrite (expand_grow_path _ _ _ _ _ _ _ _ Hlen Hno Hmax).
    eexists _, _. split; [done|]. split; [apply map_index_of_created|].
    apply Forall_forall. intros ti Hti.
    apply list_elem_of_In, in_map_iff in Hti as (i & <- & Hi).
    apply list_elem_of_In, elem_of_seqZ in Hi. unfold ti_key; simpl.
    destruct (task_instance s !! (dag, self, run, i)) eqn:E; [|done].
    destruct (func_max_present _ _ _ _ _ _ E) as (b' & Hb' & Hle).
    rewrite Hmax in Hb'. injection Hb' as <-. lia.
  - intros s' ret Hcall.
    destruct (expand_returned_inv _ _ _ _ _ _ _ _ Hcall) as (len' & Hlen' & Hcase).
    rewrite Hlen in Hlen'. injection Hlen' as <-.
    destruct Hcase as [(row & Hrow & Hunf & Hlt & -> & ->)
                      |[(row & Hrow & Hunf & _ & Hfree & -> & ->)
                       |(Hno & b & Hmax & -> & ->)]];
      cbn [with_tis task_instance].
    + split; constructor.
    + split.
      * rewrite map_cons, map_index_of_created.
        constructor; [apply py_range_sorted|].
        apply Forall_seqZ. simpl. lia.
      * constructor.
        { split; [done|]. unfold ti_key; simpl.
          rewrite mark_removed_below by lia.
          rewrite create_lookup_old; [apply lookup_insert_eq|].
          intros i Hi [= <-]. apply elem_of_seqZ in Hi. lia. }
        apply Forall_forall. intros ti Hti.
        apply list_elem_of_In, in_map_iff in Hti as (i & <- & Hi).
        apply list_elem_of_In in Hi. split; [done|]. unfold ti_key; simpl.
        pose proof Hi as Hi'. apply elem_of_seqZ in Hi'.
        rewrite mark_removed_below by lia.
        by apply create_lookup_new.
    + split.
      * rewrite map_index_of_created. apply py_range_sorted.
      * apply Forall_forall. intros ti Hti.
        apply list_elem_of_In, in_map_iff in Hti as (i & <- & Hi).
        apply list_elem_of_In in Hi. split; [done|]. unfold ti_key; simpl.
        pose proof Hi as Hi'. apply elem_of_seqZ in Hi'.
        rewrite mark_removed_below by lia.
        by apply create_lookup_new.
Qed.


(** C2, as the code has it. A missing [TaskMap] row of the upstream makes
    [expand_mapped_task] raise, the store untouched. A negative resolved
    length is not rejected: no test for it exists, and it takes the paths of
    length 0. With an unfinished placeholder the placeholder is marked
    [skipped] and the empty sequence is returned. Without one, and with map
    indexes from -1 up as the data model has them: when the task has some
    instance in the run nothing is created, the empty sequence is returned
    and every instance of the task in the run is marked [removed], all other
    rows as they were; when the task has no instance in the run the call
    raises the [TypeError] of [None + 1], the store untouched, as it does
    for every length. *)
Theorem expand_missing_upstream_raises_negative_length_passes
    (self dag ut run : string) (ui : Z) (s : Session) :
  (task_map s !! (dag, ut, run, ui) = None ->
   expand self (dag, ut, run, ui) s =
   (s, Raised (RuntimeError "mapped operator cannot be expanded; upstream not found")))
  /\
  (forall len,
     task_map s !! (dag, ut, run, ui) = Some len -> len < 0 ->
     (forall row,
        task_instance s !! (dag, self, run, -1) = Some row ->
        is_unfinished unfinished row = true ->
        expand self (dag, ut, run, ui) s =
        (with_tis s (<[(dag, self, run, -1) := set_row_state (Some SKIPPED) row]>
                       (task_instance s)),
         Returned []))
     /\
     (no_unfinished_placeholder s dag self run ->
      index_floor (task_instance s) dag self run ->
      (exists i, is_Some (task_instance s !! (dag, self, run, i))) ->
      exists s',
        expand self (dag, ut, run, ui) s = (s', Returned []) /\
        task_map s' = task_map s /\
        dom (task_instance s') = dom (task_instance s) /\
        (forall i row,
           task_instance s !! (dag, self, run, i) = Some row ->
           task_instance s' !! (dag, self, run, i)
           = Some (set_row_state (Some REMOVED) row)) /\
        (forall d t r i, (d, t, r) <> (dag, self, run) ->
           task_instance s' !! (d, t, r, i) = task_instance s !! (d, t, r, i)))
     /\
     (no_unfinished_placeholder s dag self run ->
      (forall i, task_instance s !! (dag, self, run, i) = None) ->
      expand self (dag, ut, run, ui) s =
      (s, Raised (TypeError "unsupported operand type(s) for +: 'NoneType' and 'int'")))).
Proof.
  split; [apply expand_upstream_missing|].
  intros len Hlen Hneg. split; [|split].
  - intros row Hrow Hunf.
    apply (expand_skip_path _ _ _ _ _ _ _ _ Hlen Hrow Hunf). lia.
  - intros Hno Hfloor (i0 & row0 & Hrow0).
    destruct (func_max_present _ _ _ _ _ _ Hrow0) as (b & Hmax & _).
    pose proof (func_max_floor _ _ _ _ _ Hfloor Hmax) as Hb.
    eexists. split.
    { rewrite (expand_grow_path _ _ _ _ _ _ _ _ Hlen Hno Hmax).
      unfold py_range. rewrite seqZ_nil by lia. reflexivity. }
    simpl. split_and!.
    + done.
    + apply set_eq. intros k. rewrite !elem_of_dom. apply mark_removed_is_Some.
    + intros i row Hrow.
      assert (Hi : -1 <= i) by (apply Hfloor; eauto).
      rewrite mark_removed_from by lia. by rewrite Hrow.
    + intros d t r i Hne. by apply mark_removed_other.
  - intros Hno Hnone. apply (expand_no_rows _ _ _ _ _ _ _ Hlen Hno).
    apply func_max_nil.
    destruct (map_indexes (task_instance s) dag self run) as [|i l] eqn:Hl; [done|].
    assert (Hin : i ∈ map_indexes (task_instance s) dag self run)
      by (rewrite Hl; left).
    apply elem_of_map_indexes in Hin as [row Hrow]. by rewrite Hnone in Hrow.
Qed.

End Facts.


(** C2, refuted as stated: with the recorded length -1 and an unfinished
    placeholder the call raises nothing; it returns the empty sequence and
    marks the placeholder [skipped]. *)
Lemma expand_negative_length_counterexample :
  task_map (fresh_session (-1)) !! ("dag", "up", "run", -1) = Some (-1) /\
  expand_mapped_task example_unfinished id "mapped" ("dag", "up", "run", -1)
    (fresh_session (-1))
  = ({| task_instance :=
          {[ ("dag", "mapped", "run", -1) := new_row (Some SKIPPED) ]};
        task_map := {[ ("dag", "up", "run", -1) := -1 ]} |},
     Returned []).
Proof. split; vm_compute; reflexivity. Qed.

Lemma expanded_session_index_floor (len : Z) :
  index_floor (task_instance (expanded_session len)) "dag" "mapped" "run".
Proof.
  intros i [row Hrow]. simpl in Hrow.
  apply lookup_insert_Some in Hrow as [[[= <-] _]|[_ Hrow]]; [lia|].
  apply lookup_singleton_Some in Hrow as [[= <-] _]. lia.
Defined.

Lemma expanded_session_no_placeholder (len : Z) (self : string) :
  no_unfinished_placeholder example_unfinished (expanded_session len)
    "dag" self "run".
Proof.
  intros row Hrow. simpl in Hrow.
  apply lookup_insert_Some in Hrow as [[[=] _]|[_ Hrow]].
  by apply lookup_singleton_Some in Hrow as [[=] _].
Defined.

Lemma expanded_session_no_rows (len : Z) (i : Z) :
  task_instance (expanded_session len) !! ("dag", "absent", "run", i) = None.
Proof.
  simpl. rewrite lookup_insert_ne by (intros [=]).
  by rewrite lookup_singleton_ne by (intros [=]).
Defined.

Lemma expand_missing_upstream_raises_negative_length_passes_witness :
  let up : TIKey := ("dag", "up", "run", -1) in
  let run := expand_mapped_task example_unfinished id in
  run "mapped" ("dag", "other", "run", -1) (fresh_session (-1))
  = (fresh_session (-1),
     Raised (RuntimeError "mapped operator cannot be expanded; upstream not found"))
  /\
  run "mapped" up (fresh_session (-1))
  = (with_tis (fresh_session (-1))
       (<[("dag", "mapped", "run", -1) := set_row_state (Some SKIPPED) (new_row None)]>
          (task_instance (fresh_session (-1)))),
     Returned [])
  /\
  (exists s',
     run "mapped" up (expanded_session (-1)) = (s', Returned []) /\
     task_instance s' !! ("dag", "mapped", "run", 0) = Some (new_row (Some REMOVED)) /\
     task_instance s' !! ("dag", "mapped", "run", 1) = Some (new_row (Some REMOVED)))
  /\
  run "absent" up (expanded_session (-1))
  = (expanded_session (-1),
     Raised (TypeError "unsupported operand type(s) for +: 'NoneType' and 'int'")).
Proof.
  intros up run. split; [|split; [|split]].
  - refine (proj1 (expand_missing_upstream_raises_negative_length_passes
                     example_unfinished id "mapped" "dag" "other" "run" (-1)
                     (fresh_session (-1))) _).
    vm_compute; reflexivity.
  - refine (proj1 (proj2 (expand_missing_upstream_raises_negative_length_passes
                            example_unfinished id "mapped" "dag" "up" "run" (-1)
                            (fresh_session (-1)))
                         (-1) _ _) (new_row None) _ _);
      try (vm_compute; reflexivity); lia.
  - destruct (proj1 (proj2 (proj2 (expand_missing_upstream_raises_negative_length_passes
                                     example_unfinished id "mapped" "dag" "up" "run" (-1)
                                     (expanded_session (-1)))
                                  (-1) eq_refl ltac:(lia)))
                    (expanded_session_no_placeholder (-1) "mapped")
                    (expanded_session_index_floor (-1))
                    (ex_intro _ 0 (ex_intro _ (new_row (Some SUCCESS)) eq_refl)))
      as (s' & Hcall & _ & _ & Hremoved & _).
    exists s'. split; [exact Hcall|]. split.
    + apply (Hremoved 0 (new_row (Some SUCCESS))). reflexivity.
    + apply (Hremoved 1 (new_row (Some SUCCESS))). reflexivity.
  - refine (proj2 (proj2 (proj2 (expand_missing_upstream_raises_negative_length_passes
                                   example_unfinished id "absent" "dag" "up" "run" (-1)
                                   (expanded_session (-1)))
                                (-1) eq_refl ltac:(lia)))
                  (expanded_session_no_placeholder (-1) "absent")
                  (expanded_session_no_rows (-1))).
Defined.

(** C1, refuted as stated: the task already has its instances 0 and 1 and
    the resolved length is 2; the call returns the empty sequence, not the
    instances of the indexes 0 and 1. *)
Lemma expand_reexpansion_counterexample :
  task_map (expanded_session 2) !! ("dag", "up", "run", -1) = Some 2 /\
  exists ret,
    (expand_mapped_task example_unfinished id "mapped" ("dag", "up", "run", -1)
       (expanded_session 2)).2 = Returned ret /\
    ~ (forall i, 0 <= i < 2 -> exists ti, ti ∈ ret /\ ti_map_index ti = i).
Proof.
  split; [vm_compute; reflexivity|]. exists []. split; [vm_compute; reflexivity|].
  intros Hall. destruct (Hall 0 ltac:(lia)) as (ti & Hin & _).
  by apply elem_of_nil in Hin.
Qed.

Lemma expand_returns_ascending_created_range_witness :
  task_map (fresh_session 3) !! ("dag", "up", "run", -1) = Some 3 /\
  1 <= 3 /\
  exists s' ret,
    expand_mapped_task example_unfinished id "mapped" ("dag", "up", "run", -1)
      (fresh_session 3) = (s', Returned ret) /\
    map ti_map_index ret = py_range 0 3 /\
    head ret = Some (ti_of ("dag", "mapped", "run", 0) (new_row None)).
Proof.
  split; [vm_compute; reflexivity|]. split; [lia|].
  refine (proj1 (expand_returns_ascending_created_range example_unfinished id
                   "mapped" "dag" "up" "run" (-1) (fresh_session 3) 3 _ _)
                (new_row None) _ _ _);
    try (vm_compute; reflexivity); lia.
Defined.

Lemma fresh_session_index_floor (len : Z) :
  index_floor (task_instance (fresh_session len)) "dag" "mapped" "run".
Proof.
  intros i [row Hrow]. simpl in Hrow.
  apply lookup_singleton_Some in Hrow as [[= <-] _]. lia.
Defined.

Lemma expand_grows_forward_and_shrinks_by_removal_witness :
  let up : TIKey := ("dag", "up", "run", -1) in
  let first_pass :=
    expand_mapped_task example_unfinished id "mapped" up
      (record_length up 3 (fresh_session 3)) in
  index_floor (task_instance (fresh_session 3)) "dag" "mapped" "run" /\
  first_pass.2 = Returned (map (fun i => ti_of ("dag", "mapped", "run", i)
                                              (new_row None)) [0; 1; 2]) /\
  exists s2,
    expand_mapped_task example_unfinished id "mapped" up
      (record_length up 1 first_pass.1) = (s2, Returned []) /\
    task_instance s2 !! ("dag", "mapped", "run", 2)
      = Some (new_row (Some REMOVED)) /\
    task_instance s2 !! ("dag", "mapped", "run", 0) = Some (new_row None).
Proof.
  intros up first_pass.
  split; [apply fresh_session_index_floor|].
  split; [vm_compute; reflexivity|].
  assert (Hcall1 : first_pass
                   = (first_pass.1,
                      Returned (map (fun i => ti_of ("dag", "mapped", "run", i)
                                                (new_row None)) [0; 1; 2])))
    by (vm_compute; reflexivity).
  destruct (proj2 (expand_grows_forward_and_shrinks_by_removal
                     example_unfinished id "mapped" "dag" "up" "run" (-1)
                     (fresh_session 3) first_pass.1 _ 3
                     (fresh_session_index_floor 3) Hcall1) 1 ltac:(lia))
    as (s2 & Hcall2 & Hrem & Hkeep & _).
  exists s2. split; [exact Hcall2|]. split.
  - rewrite (Hrem 2 (new_row None)); [reflexivity|lia|vm_compute; reflexivity].
  - rewrite (Hkeep 0) by lia. vm_compute; reflexivity.
Defined.

End MappedOperatorFacts.

(** ** Task-instance history *)
Module TaskInstanceHistoryFacts.
Import TaskInstanceHistory.

Section Facts.

Context (finished : TaskInstanceState -> bool).

Lemma exists_q_positive (ti : TaskInstance) (session : History) :
  exists_q ti session <> 0%nat <->
  exists h, h ∈ session /\ same_try ti h = true.
Proof.
  unfold exists_q. split.
  - intros Hne.
    destruct (filter (fun h => same_try ti h = true) session) as [|h l] eqn:E;
      [done|].
    assert (Hin : h ∈ filter (fun h => same_try ti h = true) session)
      by (rewrite E; left).
    apply list_elem_of_filter in Hin as [Hsame Hin]. by exists h.
  - intros (h & Hin & Hsame) Hlen.
    apply length_zero_iff_nil in Hlen.
    assert (Hf : h ∈ filter (fun h => same_try ti h = true) session)
      by (by apply list_elem_of_filter).
    rewrite Hlen in Hf. by apply elem_of_nil in Hf.
Qed.

(** C10. [record_ti] changes nothing, neither the history table nor the
    instance, when the table already holds a row of the same dag, task, run,
    map index and try number. Otherwise one row is appended; when the state
    of the instance is not a finished one (NULL included) the instance first
    gets its end date stamped and its duration recomputed, and the appended
    row is that stamped instance with the state [failed] in place of its
    own. *)
Theorem record_ti_once_and_failed_when_unfinished
    (utcnow : Z) (ti : TaskInstance) (session : History) :
  ((exists h, h ∈ session /\ same_try ti h = true) ->
   record_ti finished utcnow ti session = (ti, session))
  /\
  ((forall h, h ∈ session -> same_try ti h = false) ->
   not_in_finished finished (state (ti_row ti)) = true ->
   exists ti' h,
     record_ti finished utcnow ti session = (ti', session ++ [h]) /\
     ti_key ti' = ti_key ti /\
     ti_row ti' = set_duration (set_row_end_date (Some utcnow) (ti_row ti)) /\
     end_date (ti_row ti') = Some utcnow /\
     state (ti_row ti') = state (ti_row ti) /\
     ti_key h = ti_key ti /\
     ti_row h = set_row_state (Some FAILED) (ti_row ti') /\
     state (ti_row h) = Some FAILED /\
     end_date (ti_row h) = Some utcnow /\
     duration (ti_row h) = duration (ti_row ti')).
Proof.
  split.
  - intros Hex. unfold record_ti.
    rewrite decide_True; [done|]. by apply exists_q_positive.
  - intros Hnone Hunf. unfold record_ti.
    rewrite decide_False.
    + rewrite Hunf. simpl. eexists _, _. split; [reflexivity|]. done.
    + intros Hne. apply exists_q_positive in Hne as (h & Hin & Hsame).
      rewrite (Hnone h Hin) in Hsame. discriminate.
Qed.

End Facts.

Lemma record_ti_once_and_failed_when_unfinished_witness :
  (forall h, h ∈ ([] : History) -> same_try running_instance h = false) /\
  not_in_finished example_finished (state (ti_row running_instance)) = true /\
  exists ti' h,
    record_ti example_finished 160 running_instance [] = (ti', [] ++ [h]) /\
    ti_key ti' = ti_key running_instance /\
    ti_row ti' = set_duration (set_row_end_date (Some 160) (ti_row running_instance)) /\
    end_date (ti_row ti') = Some 160 /\
    state (ti_row ti') = state (ti_row running_instance) /\
    ti_key h = ti_key running_instance /\
    ti_row h = set_row_state (Some FAILED) (ti_row ti') /\
    state (ti_row h) = Some FAILED /\
    end_date (ti_row h) = Some 160 /\
    duration (ti_row h) = duration (ti_row ti').
Proof.
  assert (Hnone : forall h, h ∈ ([] : History) -> same_try running_instance h = false)
    by (intros h Hin; by apply elem_of_nil in Hin).
  split; [exact Hnone|]. split; [reflexivity|].
  exact (proj2 (record_ti_once_and_failed_when_unfinished
                  example_finished 160 running_instance []) Hnone eq_refl).
Defined.

End TaskInstanceHistoryFacts.

(** ** Sensor Poke Loop *)
Module SensorFacts.
Import Sensor.

Section Backoff.

Context (run_hash_of : string -> string -> Q -> Z -> Z).

Lemma py_min_cases (a b : Q) : py_min a b = a \/ py_min a b = b.
Proof. unfold py_min. destruct (Qlt_le_dec b a); auto. Qed.

Lemma py_min_glb (a b c : Q) : (c <= a)%Q -> (c <= b)%Q -> (c <= py_min a b)%Q.
Proof. unfold py_min. by destruct (Qlt_le_dec b a). Qed.

Lemma py_min_le_l (a b : Q) : (py_min a b <= a)%Q.
Proof. unfold py_min. destruct (Qlt_le_dec b a); lra. Qed.

Lemma py_min_le_r (a b : Q) : (py_min a b <= b)%Q.
Proof. unfold py_min. destruct (Qlt_le_dec b a); lra. Qed.

Lemma min_backoff_of_pos (self : BaseSensorOperator) (n b : Z) :
  min_backoff_of self n = Some b -> 1 <= b.
Proof.
  unfold min_backoff_of. destruct (decide _); [done|].
  destruct (float_overflows _); [done|]. intros [= <-]. lia.
Qed.

(** From poke count 1026 on the power has no float. *)
Lemma min_backoff_of_overflows (self : BaseSensorOperator) (n : Z) :
  1026 <= n -> min_backoff_of self n = None.
Proof. intros Hn. unfold min_backoff_of. rewrite decide_True by lia. done. Qed.

(** The value of the comment in the source: the backoff is never below one
    second. *)
Lemma backoff_with_jitter_ge_1 (self : BaseSensorOperator) (started_at : Q)
    (n : Z) (x : Q) :
  backoff_with_jitter run_hash_of self started_at n = Some x -> (1 <= x)%Q.
Proof.
  unfold backoff_with_jitter.
  destruct (min_backoff_of self n) as [b|] eqn:Hb; [|done].
  intros [= <-]. apply py_min_glb.
  - pose proof (min_backoff_of_pos _ _ _ Hb) as Hpos.
    pose proof (Z.mod_pos_bound
                  (run_hash_of (dag_id self) (task_id self) started_at n)
                  b ltac:(lia)) as Hmod.
    change 1%Q with (inject_Z 1). rewrite <- Zle_Qle. lia.
  - unfold timedelta_max_total_seconds. unfold Qle; simpl. lia.
Qed.

(** The simulation stops on its own condition: more turns change nothing
    once the turns allowed exceed the seconds left to cover. *)
Lemma simulate_pokes_enough_fuel (fuel extra : nat) (self : BaseSensorOperator)
    (started_at elapsed : Q) :
  forall (cumulative : Q) (count : Z),
    (elapsed - cumulative < inject_Z (Z.of_nat fuel))%Q ->
    simulate_pokes run_hash_of (fuel + extra) self started_at elapsed cumulative count
    = simulate_pokes run_hash_of fuel self started_at elapsed cumulative count.
Proof.
  induction fuel as [|fuel IH]; intros cumulative count Hfuel.
  - destruct extra as [|extra]; simpl; [done|].
    destruct (Qlt_le_dec elapsed cumulative) as [|Hle]; [done|].
    exfalso. change (inject_Z (Z.of_nat 0)) with 0%Q in Hfuel. lra.
  - cbn [Nat.add simulate_pokes].
    destruct (Qlt_le_dec elapsed cumulative) as [|Hle]; [done|].
    destruct (backoff_with_jitter run_hash_of self started_at (count + 1))
      as [step|] eqn:Hstep; [|done].
    cbn [mbind option_bind]. apply IH.
    apply backoff_with_jitter_ge_1 in Hstep.
    rewrite Nat2Z.inj_succ in Hfuel. unfold Z.succ in Hfuel.
    rewrite inject_Z_plus in Hfuel. change (inject_Z 1) with 1%Q in Hfuel. lra.
Qed.

(** The turns [estimate_poke_count] allows are never used up. *)
Lemma estimate_poke_count_exact (extra : nat) (self : BaseSensorOperator)
    (started_at elapsed : Q) :
  simulate_pokes run_hash_of (Z.to_nat (Qfloor elapsed + 2) + extra) self
    started_at elapsed 0 0
  = estimate_poke_count run_hash_of self started_at elapsed.
Proof.
  unfold estimate_poke_count. apply simulate_pokes_enough_fuel.
  pose proof (Qlt_floor elapsed) as Hfl.
  rewrite inject_Z_plus in Hfl. change (inject_Z 1) with 1%Q in Hfl.
  destruct (decide (0 <= Qfloor elapsed + 2)) as [Hpos|Hneg].
  - rewrite Z2Nat.id by done. rewrite inject_Z_plus.
    change (inject_Z 2) with 2%Q. lra.
  - replace (Z.to_nat (Qfloor elapsed + 2)) with 0%nat by lia.
    change (inject_Z (Z.of_nat 0)) with 0%Q.
    assert (Hlt : (inject_Z (Qfloor elapsed) < inject_Z (-2))%Q)
      by (rewrite <- Zlt_Qlt; lia).
    change (inject_Z (-2)) with (-2)%Q in Hlt. lra.
Qed.

(** Two sensors that agree on the attributes the computation reads. *)
Definition same_configuration (self1 self2 : BaseSensorOperator) : Prop :=
  dag_id self1 = dag_id self2 /\ task_id self1 = task_id self2 /\
  poke_interval self1 = poke_interval self2 /\ timeout self1 = timeout self2 /\
  exponential_backoff self1 = exponential_backoff self2 /\
  max_wait self1 = max_wait self2 /\ mode self1 = mode self2.

Lemma backoff_with_jitter_same (self1 self2 : BaseSensorOperator)
    (started_at : Q) (n : Z) :
  same_configuration self1 self2 ->
  backoff_with_jitter run_hash_of self1 started_at n
  = backoff_with_jitter run_hash_of self2 started_at n.
Proof.
  intros (Hd & Ht & Hp & _). unfold backoff_with_jitter, min_backoff_of.
  by rewrite Hd, Ht, Hp.
Qed.

Lemma simulate_pokes_same (fuel : nat) (self1 self2 : BaseSensorOperator)
    (started_at elapsed : Q) :
  same_configuration self1 self2 ->
  forall (cumulative : Q) (count : Z),
    simulate_pokes run_hash_of fuel self1 started_at elapsed cumulative count
    = simulate_pokes run_hash_of fuel self2 started_at elapsed cumulative count.
Proof.
  intros Hsame. induction fuel as [|fuel IH]; intros cumulative count; simpl; [done|].
  destruct (Qlt_le_dec elapsed cumulative); [done|].
  rewrite (backoff_with_jitter_same self1 self2) by done.
  destruct (backoff_with_jitter _ self2 _ _); [|done]. apply IH.
Qed.

(** The interval, given the poke count the simulation settled on and the
    reading taken last. *)
Definition interval_of (self : BaseSensorOperator) (started_at : Q)
    (poke_count : option Z) (elapsed : Q) : option Q :=
  delay ← poke_count ≫= backoff_with_jitter run_hash_of self started_at;
  let new_interval := py_min (timeout self - inject_Z (py_int elapsed)) delay in
  Some (match max_wait self with
        | Some max_wait_seconds =>
            if Qeq_bool max_wait_seconds 0 then new_interval
            else py_min max_wait_seconds new_interval
        | None => new_interval
        end).

(** What [_get_next_poke_interval] returns, by the readings it takes: none
    without exponential backoff, one in poke mode, two in reschedule mode. *)
Lemma next_poke_interval_readings {W : Type} (self : BaseSensorOperator)
    (started_at : Q) (run_duration : W -> Q * W) (poke_count : Z) (w : W) :
  (_get_next_poke_interval run_hash_of self started_at run_duration poke_count w).1
  = if negb (exponential_backoff self) then Some (poke_interval self)
    else if reschedule self then
      let first := run_duration w in
      interval_of self started_at
        (estimated ← estimate_poke_count run_hash_of self started_at first.1;
         Some (if decide (estimated = 0) then poke_count else estimated))
        (run_duration first.2).1
    else interval_of self started_at (Some poke_count) (run_duration w).1.
Proof.
  unfold _get_next_poke_interval, interval_of.
  destruct (exponential_backoff self); simpl; [|done].
  destruct (reschedule self); simpl.
  - destruct (run_duration w) as [e1 w1]. simpl.
    destruct (_ ≫= backoff_with_jitter _ _ _); simpl; [|done].
    by destruct (run_duration w1).
  - destruct (backoff_with_jitter _ _ _ _); simpl; [|done].
    by destruct (run_duration w).
Qed.

Lemma interval_of_same (self1 self2 : BaseSensorOperator) (started_at : Q)
    (poke_count : option Z) (elapsed1 elapsed2 : Q) :
  same_configuration self1 self2 ->
  py_int elapsed1 = py_int elapsed2 ->
  interval_of self1 started_at poke_count elapsed1
  = interval_of self2 started_at poke_count elapsed2.
Proof.
  intros Hsame Hint. pose proof Hsame as (_ & _ & _ & Hto & _ & Hmw & _).
  unfold interval_of. rewrite Hto, Hmw, Hint.
  destruct poke_count as [n|]; simpl; [|done].
  by rewrite (backoff_with_jitter_same self1 self2).
Qed.

(** C7. Two invocations of [_get_next_poke_interval], on sensors with the
    same dag_id, task_id, poke_interval, timeout, exponential_backoff,
    max_wait and mode, with the same started_at and poke_count, each with a
    clock of its own. Without exponential backoff both return the poke
    interval and read no clock. In poke mode both return the same interval,
    or both raise [OverflowError], when the single reading each takes has
    the same integer part. In either mode they do when the first readings
    are equal and the second ones have the same integer part. Nothing else
    of the sensors or of the worlds the clocks live in enters the value. *)
Theorem next_poke_interval_deterministic {W1 W2 : Type}
    (self1 self2 : BaseSensorOperator) (started_at : Q) (poke_count : Z)
    (run_duration1 : W1 -> Q * W1) (run_duration2 : W2 -> Q * W2)
    (w1 : W1) (w2 : W2) :
  same_configuration self1 self2 ->
  let call1 :=
    _get_next_poke_interval run_hash_of self1 started_at run_duration1 poke_count w1 in
  let call2 :=
    _get_next_poke_interval run_hash_of self2 started_at run_duration2 poke_count w2 in
  let first1 := run_duration1 w1 in
  let first2 := run_duration2 w2 in
  (exponential_backoff self1 = false ->
   call1 = (Some (poke_interval self1), w1) /\
   call2 = (Some (poke_interval self1), w2))
  /\
  (reschedule self1 = false ->
   py_int first1.1 = py_int first2.1 ->
   call1.1 = call2.1)
  /\
  (first1.1 = first2.1 ->
   py_int (run_duration1 first1.2).1 = py_int (run_duration2 first2.2).1 ->
   call1.1 = call2.1).
Proof.
  intros Hsame call1 call2 first1 first2.
  pose proof Hsame as (Hd & Ht & Hp & Hto & Hexp & Hmw & Hmode).
  assert (Hres : reschedule self2 = reschedule self1)
    by (unfold reschedule; by rewrite Hmode).
  split; [|split].
  - intros Hoff. subst call1 call2. unfold _get_next_poke_interval.
    by rewrite <- Hexp, Hoff, Hp.
  - intros Hpoke Hint. subst call1 call2.
    rewrite !next_poke_interval_readings, <- Hexp, Hres, Hpoke, <- Hp.
    destruct (negb _); [done|]. by apply interval_of_same.
  - intros Hfirst Hint. subst call1 call2.
    rewrite !next_poke_interval_readings, <- Hexp, Hres, <- Hp.
    destruct (negb _); [done|].
    destruct (reschedule self1); cbv zeta.
    + fold first1 first2. rewrite <- Hfirst. unfold estimate_poke_count.
      rewrite <- (simulate_pokes_same _ self1 self2) by done.
      by apply interval_of_same.
    + apply interval_of_same; [done|]. fold first1 first2. by rewrite Hfirst.
Qed.

End Backoff.

Section PokeLoop.

Context (run_hash_of : string -> string -> Q -> Z -> Z)
        (poke : nat -> PokeOutcome) (poke_seconds : nat -> Q)
        (lag : nat -> Q) (max_sleep : Q)
        (is_metadatabase_mysql : bool).

Local Abbreviation wait :=
  (wait_or_time_out run_hash_of lag max_sleep is_metadatabase_mysql).
Local Abbreviation body :=
  (loop_body run_hash_of poke poke_seconds lag max_sleep is_metadatabase_mysql).
Local Abbreviation loop :=
  (poke_loop run_hash_of poke poke_seconds lag max_sleep is_metadatabase_mysql).
Local Abbreviation exec :=
  (execute run_hash_of poke poke_seconds lag max_sleep is_metadatabase_mysql).

(** The world when a call of [poke] has come back. *)
Definition after_poke (w : World) : World := (call_poke poke poke_seconds w).2.

(** The run duration the loop reads in the world [w]. *)
Definition elapsed_at (started_at : Q) (w : World) : Q :=
  (run_duration lag started_at w).1.

(** A generic exception: an [Exception] outside the four timeout classes. *)
Definition generic (e : SensorExn) : Prop :=
  timeout_class e = false /\ is_exception e = true.

(** The row of the first try of the task instance. *)
Definition first_try (self : BaseSensorOperator) (context : Context)
    (r : TaskReschedule) : Prop :=
  tr_key r = ctx_ti context /\
  tr_try_number r
  = default 0 (ctx_max_tries context) - default 0 (retries self) + 1.

(** How a turn before the deadline ends a call in reschedule mode. *)
Definition reschedule_ending (e : SensorExn) : Prop :=
  (exists reschedule_date, e = AirflowRescheduleException reschedule_date) \/
  (is_metadatabase_mysql = true /\ e = AirflowSensorTimeout mysql_limit_msg) \/
  e = OtherException "OverflowError".

Lemma handle_generic (self : BaseSensorOperator) (e : SensorExn) :
  generic e ->
  handle_poke self (PokeRaises e) =
  match fail_policy self with
  | IGNORE_ERROR => inr (PokeBool false)
  | SKIP_ON_ANY_ERROR => inl (AirflowSkipException skip_on_any_error_msg)
  | NONE | SKIP_ON_TIMEOUT => inl e
  end.
Proof.
  intros [Hto Hex]. unfold handle_poke. rewrite Hto, Hex.
  by destruct (fail_policy self).
Qed.

(** A timeout-class exception from [poke] never becomes "not yet". *)
Lemma handle_timeout_class (self : BaseSensorOperator) (e : SensorExn) :
  timeout_class e = true ->
  handle_poke self (PokeRaises e) =
  match fail_policy self with
  | SKIP_ON_TIMEOUT => inl (AirflowSkipException skip_on_timeout_msg)
  | SKIP_ON_ANY_ERROR => inl (AirflowSkipException skip_on_any_error_msg)
  | NONE | IGNORE_ERROR => inl e
  end.
Proof.
  intros Hto. unfold handle_poke. rewrite Hto. by destruct (fail_policy self).
Qed.

Lemma body_not_yet (self : BaseSensorOperator) (started_at : Q)
    (poke_count : Z) (w : World) (r : PokeReturn) :
  handle_poke self (poke (poke_calls w)) = inr r ->
  truthy r = false ->
  body self started_at poke_count w
  = wait self started_at poke_count (after_poke w).
Proof.
  intros Hhandle Hfalse. unfold loop_body, after_poke, call_poke. simpl.
  by rewrite Hhandle, Hfalse.
Qed.

Lemma body_raises (self : BaseSensorOperator) (started_at : Q)
    (poke_count : Z) (w : World) (e : SensorExn) :
  handle_poke self (poke (poke_calls w)) = inl e ->
  body self started_at poke_count w = inl (Raises e, after_poke w).
Proof.
  intros Hhandle. unfold loop_body, after_poke, call_poke. simpl.
  by rewrite Hhandle.
Qed.

(** The rest of a turn never returns: it raises or goes on. *)
Lemma wait_never_returns (self : BaseSensorOperator) (started_at : Q)
    (poke_count : Z) (w w' : World) (x : option Z) :
  wait self started_at poke_count w <> inl (Returns x, w').
Proof.
  unfold wait_or_time_out.
  destruct (run_duration lag started_at w) as [elapsed w1].
  destruct (Qlt_le_dec _ _).
  { destruct (run_duration lag started_at w1). by destruct (decide _). }
  destruct (_get_next_poke_interval _ _ _ _ _ _) as [[next|] w2]; [|done].
  destruct (reschedule self).
  - destruct (read_clock lag w2) as [utcnow w3].
    destruct (plus_seconds _ _); [|done].
    by destruct (_ && _).
  - by destruct (sleep _ _ _).
Qed.

(** The loop returns only on a truthy poke. *)
Lemma body_returns_inv (self : BaseSensorOperator) (started_at : Q)
    (poke_count : Z) (w w' : World) (x : option Z) :
  body self started_at poke_count w = inl (Returns x, w') ->
  exists r, poke (poke_calls w) = PokeReturns r /\ truthy r = true.
Proof.
  intros Hbody.
  destruct (handle_poke self (poke (poke_calls w))) as [e|r] eqn:Hhandle.
  - rewrite (body_raises _ _ _ _ _ Hhandle) in Hbody. discriminate.
  - destruct (truthy r) eqn:Htruth.
    + exists r. split; [|done]. unfold handle_poke in Hhandle.
      destruct (poke (poke_calls w)) as [r'|e]; [by injection Hhandle as ->|].
      exfalso.
      destruct (timeout_class e), (is_exception e),
        (decide (fail_policy self = SKIP_ON_TIMEOUT)),
        (decide (fail_policy self = SKIP_ON_ANY_ERROR)),
        (decide (fail_policy self = IGNORE_ERROR));
        try discriminate; injection Hhandle as <-; discriminate.
    + rewrite (body_not_yet _ _ _ _ _ Hhandle Htruth) in Hbody.
      by apply wait_never_returns in Hbody.
Qed.

(** Past the deadline the rest of the turn is a skip under
    [skip_on_timeout] and the timeout failure otherwise. *)
Lemma wait_past_deadline (self : BaseSensorOperator) (started_at : Q)
    (poke_count : Z) (w : World) :
  (timeout self < elapsed_at started_at w)%Q ->
  exists w',
    wait self started_at poke_count w
    = inl (Raises (if decide (fail_policy self = SKIP_ON_TIMEOUT)
                   then AirflowSkipException timed_out_msg
                   else AirflowSensorTimeout timed_out_msg), w') /\
    now w' = (now w + lag (clock_reads w) + lag (S (clock_reads w)))%Q.
Proof.
  unfold elapsed_at, wait_or_time_out, run_duration, read_clock. cbn [fst].
  intros Hlate. destruct (Qlt_le_dec _ _) as [_|Hle]; [|lra].
  eexists. split; [by destruct (decide _)|done].
Qed.

(** Before the deadline, in reschedule mode, the rest of the turn ends the
    call: with the reschedule signal, the storage limit failure or an
    [OverflowError]. *)
Lemma wait_reschedules (self : BaseSensorOperator) (started_at : Q)
    (poke_count : Z) (w : World) :
  reschedule self = true ->
  (elapsed_at started_at w <= timeout self)%Q ->
  exists e w',
    wait self started_at poke_count w = inl (Raises e, w') /\
    reschedule_ending e.
Proof.
  unfold elapsed_at, wait_or_time_out, reschedule_ending. intros Hmode Hle.
  destruct (run_duration lag started_at w) as [elapsed w1]. cbn [fst] in Hle.
  destruct (Qlt_le_dec _ _) as [Hlt|_]; [lra|].
  destruct (_get_next_poke_interval _ _ _ _ _ _) as [[next|] w2]; [|by eauto 10].
  rewrite Hmode. destruct (read_clock lag w2) as [utcnow w3].
  destruct (plus_seconds _ _); [|by eauto 10].
  destruct is_metadatabase_mysql; simpl; [|by eauto 10].
  destruct (Qlt_le_dec _ _); eauto 10.
Qed.

(** Before the deadline, in blocking mode, the rest of the turn goes on
    with the next poke count or raises what the interval computation or the
    sleep raise. *)
Lemma wait_blocks (self : BaseSensorOperator) (started_at : Q)
    (poke_count : Z) (w : World) :
  reschedule self = false ->
  (elapsed_at started_at w <= timeout self)%Q ->
  (exists w', wait self started_at poke_count w = inr (poke_count + 1, w')) \/
  (exists e w',
     wait self started_at poke_count w = inl (Raises (OtherException e), w') /\
     (e = "OverflowError" \/ e = "ValueError")).
Proof.
  unfold elapsed_at, wait_or_time_out. intros Hmode Hle.
  destruct (run_duration lag started_at w) as [elapsed w1]. cbn [fst] in Hle.
  destruct (Qlt_le_dec _ _) as [Hlt|_]; [lra|].
  destruct (_get_next_poke_interval _ _ _ _ _ _) as [[next|] w2]; [|by eauto 10].
  rewrite Hmode. unfold sleep.
  destruct (Qlt_le_dec max_sleep _); [by eauto 10|].
  destruct (Qlt_le_dec next 0); eauto 10.
Qed.

(** Without exponential backoff, a blocking sensor before the deadline
    sleeps for the poke interval and goes on. *)
Lemma wait_sleeps (self : BaseSensorOperator) (started_at : Q)
    (poke_count : Z) (w : World) :
  reschedule self = false ->
  exponential_backoff self = false ->
  (0 <= poke_interval self)%Q ->
  (poke_interval self <= max_sleep)%Q ->
  (elapsed_at started_at w <= timeout self)%Q ->
  wait self started_at poke_count w
  = inr (poke_count + 1,
         {| now := (now w + lag (clock_reads w) + poke_interval self)%Q;
            poke_calls := poke_calls w;
            clock_reads := S (clock_reads w) |}).
Proof.
  unfold elapsed_at, wait_or_time_out, run_duration, read_clock. cbn [fst].
  intros Hmode Hoff Hpos Hmax Hle.
  destruct (Qlt_le_dec _ _) as [Hlt|_]; [lra|].
  unfold _get_next_poke_interval. rewrite Hoff, Hmode. cbn [negb].
  unfold sleep. pose proof (Qabs_pos _ Hpos) as Habs.
  destruct (Qlt_le_dec max_sleep _) as [Hover|_]; [rewrite Habs in Hover; lra|].
  destruct (Qlt_le_dec _ 0) as [Hneg|_]; [lra|]. done.
Qed.

(** Blocking mode without exponential backoff under [ignore_error], every
    poke raising a generic exception and taking at least [delta > 0]
    seconds, the clock never running backwards: with the deadline less than
    [n + 1] pokes away the loop ends within [n + 1] turns, with the timeout
    failure, past the deadline. *)
Lemma ignore_error_blocking_times_out (self : BaseSensorOperator)
    (started_at delta : Q) (n : nat) :
  fail_policy self = IGNORE_ERROR ->
  reschedule self = false ->
  exponential_backoff self = false ->
  (0 <= poke_interval self)%Q ->
  (poke_interval self <= max_sleep)%Q ->
  (forall k, exists e, poke k = PokeRaises e /\ generic e) ->
  (0 < delta)%Q ->
  (forall k, (delta <= poke_seconds k)%Q) ->
  (forall k, (0 <= lag k)%Q) ->
  forall (poke_count : Z) (w : World),
    (timeout self - (now w - started_at) < inject_Z (Z.of_nat (S n)) * delta)%Q ->
    exists w',
      loop (S n) self started_at poke_count w
      = Some (Raises (AirflowSensorTimeout timed_out_msg), w') /\
      (timeout self < now w' - started_at)%Q.
Proof.
  intros Hpolicy Hmode Hoff Hpi Hmax Hpoke Hdelta Hcost Hlag.
  assert (Hturn : forall poke_count w,
            body self started_at poke_count w
            = wait self started_at poke_count (after_poke w)).
  { intros poke_count w. destruct (Hpoke (poke_calls w)) as (e & He & Hgen).
    apply (body_not_yet _ _ _ _ (PokeBool false)); [|done].
    by rewrite He, (handle_generic _ _ Hgen), Hpolicy. }
  assert (Helapsed : forall w,
            elapsed_at started_at (after_poke w)
            = (now w + poke_seconds (poke_calls w) + lag (clock_reads w)
               - started_at)%Q) by done.
  assert (Hlate : forall poke_count w,
            (timeout self < elapsed_at started_at (after_poke w))%Q ->
            exists w',
              body self started_at poke_count w
              = inl (Raises (AirflowSensorTimeout timed_out_msg), w') /\
              (timeout self < now w' - started_at)%Q).
  { intros poke_count w Hlt. rewrite Hturn.
    destruct (wait_past_deadline self started_at poke_count _ Hlt)
      as (w' & -> & Hnow).
    rewrite Hpolicy, decide_False by done. exists w'. split; [done|].
    rewrite Hnow. rewrite Helapsed in Hlt.
    pose proof (Hlag (S (clock_reads w))).
    unfold after_poke, call_poke. cbn [snd now clock_reads]. lra. }
  induction n as [|n IH]; intros poke_count w Hleft.
  - cbn [poke_loop]. pose proof (Hcost (poke_calls w)) as Hc.
    pose proof (Hlag (clock_reads w)) as Hl.
    change (inject_Z (Z.of_nat 1)) with 1%Q in Hleft.
    destruct (Hlate poke_count w) as (w' & -> & Hnow); [rewrite Helapsed; lra|].
    by exists w'.
  - cbn [poke_loop]. pose proof (Hcost (poke_calls w)) as Hc.
    pose proof (Hlag (clock_reads w)) as Hl.
    destruct (Qlt_le_dec (timeout self) (elapsed_at started_at (after_poke w)))
      as [Hlt|Hle].
    + destruct (Hlate poke_count w Hlt) as (w' & -> & Hnow). by exists w'.
    + rewrite Hturn, (wait_sleeps _ _ _ _ Hmode Hoff Hpi Hmax Hle).
      apply IH. unfold after_poke, call_poke. cbn [snd now clock_reads].
      rewrite Nat2Z.inj_succ in Hleft. unfold Z.succ in Hleft.
      rewrite inject_Z_plus in Hleft. change (inject_Z 1) with 1%Q in Hleft.
      lra.
Qed.

(** Some number of pokes is always enough to pass the deadline. *)
Lemma deadline_reached (t delta : Q) :
  (0 < delta)%Q -> exists n : nat, (t < inject_Z (Z.of_nat (S n)) * delta)%Q.
Proof.
  intros Hdelta. exists (Z.to_nat (Qfloor (t / delta))).
  pose proof (Qlt_floor (t / delta)) as Hfl.
  assert (Hle : (inject_Z (Qfloor (t / delta) + 1)
                 <= inject_Z (Z.of_nat (S (Z.to_nat (Qfloor (t / delta))))))%Q)
    by (rewrite <- Zle_Qle; lia).
  assert (Hdiv : (t / delta < inject_Z (Z.of_nat (S (Z.to_nat (Qfloor (t / delta))))))%Q)
    by lra.
  apply (Qmult_lt_compat_r _ _ delta) in Hdiv; [|done].
  assert (Heq : (t / delta * delta == t)%Q) by (field; lra).
  by rewrite Heq in Hdiv.
Qed.

Lemma loop_never_returns_on_raising_poke (fuel : nat) (self : BaseSensorOperator)
    (started_at : Q) :
  (forall k, exists e, poke k = PokeRaises e) ->
  forall (poke_count : Z) (w w' : World) (x : option Z),
    loop fuel self started_at poke_count w <> Some (Returns x, w').
Proof.
  intros Hpoke. induction fuel as [|fuel IH]; intros poke_count w w' x; [done|].
  cbn [poke_loop].
  destruct (body self started_at poke_count w) as [[fin w1]|[pc w1]] eqn:Hbody.
  - intros [= -> ->].
    destruct (body_returns_inv _ _ _ _ _ _ Hbody) as (r & Hr & _).
    destruct (Hpoke (poke_calls w)) as (e & He). congruence.
  - apply IH.
Qed.

(** [_orig_start_date] finds the first row of the first try. *)
Lemma orig_start_date_first (key : TIKey) (try_number : Z)
    (pre post : list TaskReschedule) (r : TaskReschedule) :
  (forall r', r' ∈ pre -> ~ (tr_key r' = key /\ tr_try_number r' = try_number)) ->
  tr_key r = key /\ tr_try_number r = try_number ->
  _orig_start_date key try_number (pre ++ r :: post) = Some (tr_start_date r).
Proof.
  intros Hpre Hr. unfold _orig_start_date. rewrite filter_app.
  replace (filter _ pre) with (@nil TaskReschedule).
  - by rewrite filter_cons_True.
  - symmetry. clear Hr. induction pre as [|r' pre IH]; [done|].
    rewrite filter_cons_False by (apply Hpre; left).
    apply IH. intros r'' Hin. apply Hpre. by right.
Qed.

Lemma orig_start_date_none (key : TIKey) (try_number : Z)
    (session : list TaskReschedule) :
  (forall r, r ∈ session -> ~ (tr_key r = key /\ tr_try_number r = try_number)) ->
  _orig_start_date key try_number session = None.
Proof.
  intros Hnone. unfold _orig_start_date.
  replace (filter _ session) with (@nil TaskReschedule); [done|].
  symmetry. induction session as [|r session IH]; [done|].
  rewrite filter_cons_False by (apply Hnone; left).
  apply IH. intros r' Hin. apply Hnone. by right.
Qed.


End PokeLoop.

(** C7, refuted as stated. The sensor, started_at, the poke count and
    the world at the call, hence the run duration elapsed at the call
    (4.9 seconds), are the same; in reschedule mode the clock is read twice,
    and a clock that moves by two tenths of a second between the readings
    makes the interval 5 where a clock that stands still makes it 6. *)
Lemma next_poke_interval_counterexample :
  let self := example_sensor NONE "reschedule" true in
  let still (n : nat) : Q := 0%Q in
  let moving (n : nat) : Q := if decide (n = 1%nat) then 0.2%Q else 0%Q in
  let w := mkWorld 4.9 0 0 in
  (run_duration still 0 w).1 = (run_duration moving 0 w).1 /\
  (_get_next_poke_interval example_hash self 0 (run_duration still 0) 1 w).1
  = Some 6%Q /\
  (_get_next_poke_interval example_hash self 0 (run_duration moving 0) 1 w).1
  = Some 5%Q.
Proof. repeat split. Qed.

Lemma next_poke_interval_deterministic_witness :
  let self1 := example_sensor NONE "reschedule" true in
  let self2 :=
    mkSensor "dag" "wait" 5 10 "reschedule" true None true false IGNORE_ERROR (Some 3) in
  let clock (n : nat) : Q * nat := (if decide (n = 7%nat) then 4.9%Q else 5.7%Q, S n) in
  same_configuration self1 self2 /\
  (_get_next_poke_interval example_hash self1 0 scripted_duration 1 [4.9; 5.1]%Q).1
  = (_get_next_poke_interval example_hash self2 0 clock 1 7%nat).1.
Proof.
  intros self1 self2 clock.
  assert (Hsame : same_configuration self1 self2) by (repeat split; reflexivity).
  split; [exact Hsame|].
  apply (next_poke_interval_deterministic example_hash self1 self2 0 1
           scripted_duration clock [4.9; 5.1]%Q 7%nat Hsame); reflexivity.
Defined.

Lemma always_raising_generic :
  forall k, exists e, always_raising k = PokeRaises e /\ generic e.
Proof. intros k. exists (OtherException "KeyError"). by repeat split. Defined.



End SensorFacts.

(** ** State Propagator and Run Materializer *)
Module MarkTasksFacts.
Import MarkTasks.

Section Facts.

Context (utcnow_at : nat -> Z) (coerce_datetime : datetime -> datetime)
        (generate_run_id : DagRunType -> datetime -> string)
        (verify_integrity : DAG -> string -> gmap TIKey TIRow -> gmap TIKey TIRow)
        (finished : TaskInstanceState -> bool).

Local Abbreviation dates_of := (_get_execution_dates coerce_datetime).
Local Abbreviation set_state_ :=
  (set_state utcnow_at coerce_datetime generate_run_id verify_integrity finished).

(** The contract of the timetable's enumeration, as the spec has it: the
    periodic boundaries it yields lie between the two instants it is
    given. *)
Definition enumerates_within (dag : DAG) : Prop :=
  forall (start_date end_date : datetime) (info : DagRunInfo),
    info ∈ iter_dagrun_infos_between dag start_date end_date ->
    timestamp start_date <= timestamp (logical_date info) <= timestamp end_date.

Lemma elem_of_insert_sorted (x y : datetime) (l : list datetime) :
  y ∈ insert_sorted x l <-> y = x \/ y ∈ l.
Proof.
  induction l as [|z l IH]; simpl.
  - rewrite list_elem_of_singleton. split; [by left|].
    intros [->|Hin]; [done|]. by apply elem_of_nil in Hin.
  - destruct (decide (x = z)) as [->|Hne].
    + rewrite elem_of_cons. tauto.
    + destruct (decide (timestamp x <= timestamp z)).
      * rewrite !elem_of_cons. tauto.
      * rewrite !elem_of_cons, IH. tauto.
Qed.

Lemma elem_of_sorted_set (y : datetime) (l : list datetime) :
  y ∈ sorted_set l <-> y ∈ l.
Proof.
  unfold sorted_set. induction l as [|x l IH]; simpl; [done|].
  rewrite elem_of_insert_sorted, IH, elem_of_cons. tauto.
Qed.

(** C9, as the code has it. [_get_execution_dates] raises whenever the DAG
    reports no latest execution date, with or without [future], and
    [set_state] then raises with the session as it found it. When the DAG
    reports one the call returns. The range it looks at ends at the requested
    timestamp (coerced) unless [future] is set, and starts at the requested
    timestamp unless [past] is set. For a timetable that never schedules the
    dates are those of the stored runs of the DAG inside the range; for a
    periodic one they are what the timetable enumerates for the range, inside
    it when the timetable keeps to its bounds; for one that schedules once
    the one date is the start of the range, which with [past] is the start
    date of the DAG, wherever the requested timestamp lies. *)
Theorem execution_dates_need_latest_execution_date
    (dag : DAG) (execution_date : datetime) (future past : bool) (s : Session) :
  (get_latest_execution_date dag = None ->
   dates_of dag execution_date future past s
   = Raised (ValueError "Received non-localized date")
   /\
   forall fuel task rest upstream downstream target commit,
     is_localized execution_date = true ->
     (length (remove_dups ((fun t : BaseOperator * option DAG => dag_id <$> t.2)
                             <$> ((task, Some dag) :: rest))) <= 1)%nat ->
     set_state_ fuel ((task, Some dag) :: rest) execution_date upstream
       downstream future past target commit s
     = Some (s, Raised (ValueError "Received non-localized date")))
  /\
  (forall latest,
     get_latest_execution_date dag = Some latest ->
     let end_date :=
       coerce_datetime (if future then latest else execution_date) in
     let start_date :=
       if past then
         match default_args_start_date dag with
         | Some d => d
         | None => default execution_date (dag_start_date dag)
         end
       else execution_date in
     exists dates,
       dates_of dag execution_date future past s = Returned dates /\
       (timetable_can_run dag = false ->
        forall d, d ∈ dates <->
          exists r, r ∈ run_table s /\ dr_dag_id r = dag_id dag /\
                    dr_execution_date r = d /\
                    timestamp start_date <= timestamp d <= timestamp end_date) /\
       (timetable_can_run dag = true -> timetable_periodic dag = false ->
        dates = [start_date]) /\
       (timetable_can_run dag = true -> timetable_periodic dag = true ->
        dates = logical_date <$> iter_dagrun_infos_between dag start_date end_date /\
        (enumerates_within dag ->
         Forall (fun d => timestamp start_date <= timestamp d <= timestamp end_date)
                dates))).
Proof.
  split.
  - intros Hnone. split.
    + unfold _get_execution_dates. by rewrite Hnone.
    + intros fuel task rest upstream downstream target commit Hloc Hone.
      unfold set_state. rewrite Hloc. cbn [negb].
      rewrite decide_False by lia.
      unfold _get_execution_dates. by rewrite Hnone.
  - intros latest Hlatest end_date start_date.
    assert (Hstart : start_date
                     = if negb past then execution_date
                       else match default_args_start_date dag with
                            | Some d => d
                            | None => match dag_start_date dag with
                                      | Some d => d
                                      | None => execution_date
                                      end
                            end).
    { subst start_date.
      by destruct past, (default_args_start_date dag), (dag_start_date dag). }
    unfold _get_execution_dates. rewrite Hlatest. fold end_date.
    rewrite <- Hstart. clear Hstart.
    destruct (timetable_can_run dag) eqn:Hrun; cbn [negb].
    + destruct (timetable_periodic dag) eqn:Hper; cbn [negb].
      * eexists. split; [reflexivity|]. split_and!; try done.
        intros _ _. split; [done|]. intros Hwithin.
        apply Forall_fmap, Forall_forall. intros info Hinfo. simpl.
        by apply Hwithin.
      * eexists. split; [reflexivity|]. by split_and!.
    + eexists. split; [reflexivity|]. split_and!; try done.
      intros _ d. rewrite elem_of_sorted_set, list_elem_of_fmap. split.
      * intros (r & -> & Hr). apply list_elem_of_filter in Hr as [[Hd Hw] Hr].
        by exists r.
      * intros (r & Hr & Hd & <- & Hw). exists r. split; [done|].
        apply list_elem_of_filter. done.
Qed.

End Facts.

(** C9, refuted as stated: [future] is not requested, and the call raises
    all the same because the DAG reports no latest execution date. *)
Lemma execution_dates_counterexample :
  _get_execution_dates id (example_dag None) (day 3) false false empty_session
  = Raised (ValueError "Received non-localized date").
Proof. reflexivity. Qed.

Lemma daily_infos_within (start_date end_date : datetime) (info : DagRunInfo) :
  info ∈ daily_infos start_date end_date ->
  timestamp start_date <= timestamp (logical_date info) <= timestamp end_date.
Proof.
  unfold daily_infos. intros (n & -> & Hn)%list_elem_of_fmap.
  apply elem_of_seqZ in Hn. simpl. lia.
Defined.

Lemma execution_dates_need_latest_execution_date_witness :
  _get_execution_dates id (example_dag None) (day 3) true false empty_session
  = Raised (ValueError "Received non-localized date") /\
  (exists dates,
     _get_execution_dates id (example_dag (Some (day 9))) (day 1) false false
       example_session = Returned dates /\
     Forall (fun d => timestamp (day 1) <= timestamp d <= timestamp (day 1)) dates) /\
  (exists dates,
     _get_execution_dates id once_dag (day 3) false true example_session
     = Returned dates /\
     dates = [day 10]).
Proof.
  split; [|split].
  - exact (proj1 (proj1 (execution_dates_need_latest_execution_date
                           (fun _ => 0) id example_run_id (fun _ _ m => m)
                           (fun _ => false)
                           (example_dag None) (day 3) true false empty_session)
                        eq_refl)).
  - destruct (proj2 (execution_dates_need_latest_execution_date
                       (fun _ => 0) id example_run_id (fun _ _ m => m)
                       (fun _ => false)
                       (example_dag (Some (day 9))) (day 1) false false
                       example_session)
                    (day 9) eq_refl)
      as (dates & Hcall & _ & _ & Hperiodic).
    exists dates. split; [exact Hcall|].
    apply (proj2 (Hperiodic eq_refl eq_refl)).
    intros start_date end_date info. apply daily_infos_within.
  - destruct (proj2 (execution_dates_need_latest_execution_date
                       (fun _ => 0) id example_run_id (fun _ _ m => m)
                       (fun _ => false)
                       once_dag (day 3) false true example_session)
                    (day 9) eq_refl)
      as (dates & Hcall & _ & Honce & _).
    exists dates. split; [exact Hcall|]. exact (Honce eq_refl eq_refl).
Defined.

(** *** Run materialization *)

Section Materializer.

Context (utcnow_at : nat -> Z)
        (generate_run_id : DagRunType -> datetime -> string).

Local Abbreviation create_runs := (_create_dagruns utcnow_at generate_run_id).
Local Abbreviation missing := (create_missing utcnow_at generate_run_id).

(** The store's constraint: one run per dag and logical timestamp. *)
Definition runs_unique (l : list DagRun) : Prop :=
  NoDup ((fun r => (dr_dag_id r, dr_execution_date r)) <$> l).

(** The table holds a run of the dag at the logical timestamp. *)
Definition run_at (dag : DAG) (d : datetime) (l : list DagRun) : Prop :=
  exists r, r ∈ l /\ dr_dag_id r = dag_id dag /\ dr_execution_date r = d.

(** A run as [_create_dagruns] creates it for one of [infos]. *)
Definition created_for (dag : DAG) (infos : list DagRunInfo)
    (st : TaskInstanceState) (rt : DagRunType) (r : DagRun) : Prop :=
  dr_dag_id r = dag_id dag /\ dr_state r = st /\ dr_run_type r = rt /\
  dr_external_trigger r = false /\
  exists info, info ∈ infos /\ dr_execution_date r = logical_date info /\
               dr_data_interval r = data_interval info.

(** The runs of the dag stored at a requested logical timestamp carry the
    data interval requested for it. *)
Definition agrees (dag : DAG) (infos : list DagRunInfo) (l : list DagRun) : Prop :=
  forall r info, r ∈ l -> info ∈ infos -> dr_dag_id r = dag_id dag ->
    dr_execution_date r = logical_date info ->
    dr_data_interval r = data_interval info.

Lemma dict_set_entries (k : DataInterval) (v : DagRun) (d : RunDict)
    (kv : DataInterval * DagRun) :
  kv ∈ dict_set k v d -> kv = (k, v) \/ kv ∈ d.
Proof.
  induction d as [|[k' v'] d IH]; simpl.
  - intros Hin. apply list_elem_of_singleton in Hin as ->. by left.
  - destruct (decide (k' = k)) as [->|Hne].
    + intros [->|Hin]%elem_of_cons; [by left|]. right. by right.
    + intros [->|Hin]%elem_of_cons; [right; left|].
      destruct (IH Hin) as [->|Hd]; [by left|]. right. by right.
Qed.

Lemma dict_set_keys (k : DataInterval) (v : DagRun) (d : RunDict)
    (k' : DataInterval) :
  k' ∈ (dict_set k v d).*1 <-> k' = k \/ k' ∈ d.*1.
Proof.
  induction d as [|[k0 v0] d IH]; simpl.
  - rewrite list_elem_of_singleton. split; [by left|].
    intros [->|Hin]; [done|]. by apply elem_of_nil in Hin.
  - destruct (decide (k0 = k)) as [->|Hne]; simpl.
    + rewrite !elem_of_cons. tauto.
    + rewrite !elem_of_cons, IH. tauto.
Qed.

Lemma dict_set_NoDup (k : DataInterval) (v : DagRun) (d : RunDict) :
  NoDup d.*1 -> NoDup (dict_set k v d).*1.
Proof.
  induction d as [|[k0 v0] d IH]; simpl; intros Hnd.
  - apply NoDup_singleton.
  - apply NoDup_cons in Hnd as [Hnotin Hnd].
    destruct (decide (k0 = k)) as [->|Hne]; simpl.
    + by apply NoDup_cons.
    + apply NoDup_cons. split; [|by apply IH].
      rewrite dict_set_keys. intros [->|Hin]; done.
Qed.

Lemma dict_set_length (k : DataInterval) (v : DagRun) (d : RunDict) :
  (length (dict_set k v d) <= S (length d))%nat.
Proof.
  induction d as [|[k0 v0] d IH]; simpl; [lia|].
  destruct (decide (k0 = k)); simpl; lia.
Qed.

(** The dict built from the runs found. *)
Definition found_dict (dag : DAG) (found : list DagRun) : RunDict :=
  foldl (fun d run => dict_set (get_run_data_interval dag run) run d) [] found.

Lemma found_dict_spec (dag : DAG) (found : list DagRun) :
  (forall kv, kv ∈ found_dict dag found ->
              kv.2 ∈ found /\ kv.1 = dr_data_interval kv.2) /\
  (forall r, r ∈ found -> dr_data_interval r ∈ (found_dict dag found).*1) /\
  NoDup (found_dict dag found).*1 /\
  (length (found_dict dag found) <= length found)%nat.
Proof.
  unfold found_dict. induction found as [|x found IH] using rev_ind.
  - simpl. repeat split.
    + by apply elem_of_nil in H.
    + by apply elem_of_nil in H.
    + intros r Hr. by apply elem_of_nil in Hr.
    + constructor.
    + done.
  - rewrite foldl_app. simpl. destruct IH as (Hent & Hkeys & Hnd & Hlen).
    split; [|split; [|split]].
    + intros kv [->|Hin]%dict_set_entries.
      * simpl. split; [|done]. apply elem_of_app. right. left.
      * destruct (Hent kv Hin) as [H1 H2]. split; [|done].
        apply elem_of_app. by left.
    + intros r [Hr|Hr]%elem_of_app; apply dict_set_keys.
      * right. by apply Hkeys.
      * apply list_elem_of_singleton in Hr as ->. by left.
    + by apply dict_set_NoDup.
    + rewrite length_app. simpl. etrans; [apply dict_set_length|]. lia.
Qed.

Lemma dict_contains_spec (k : DataInterval) (d : RunDict) :
  dict_contains k d = true <-> k ∈ d.*1.
Proof. unfold dict_contains. apply bool_decide_eq_true. Qed.

(** With every interval already a key, the loop creates nothing. *)
Lemma create_missing_noop (dag : DAG) (infos : list DagRunInfo)
    (st : TaskInstanceState) (rt : DagRunType) (d : RunDict) (s : Session) :
  (forall info, info ∈ infos -> data_interval info ∈ d.*1) ->
  missing dag infos st rt d s = (s, Returned d).
Proof.
  induction infos as [|info infos IH]; intros Hall; simpl; [done|].
  rewrite (proj2 (dict_contains_spec _ _)) by (apply Hall; left).
  apply IH. intros i Hi. apply Hall. by right.
Qed.

(** What the dict holds: runs of the dag in the store, at logical
    timestamps among [dates]. *)
Definition dict_of_store (dag : DAG) (dates : list datetime) (d : RunDict)
    (s : Session) : Prop :=
  forall kv, kv ∈ d ->
    kv.2 ∈ run_table s /\ dr_dag_id kv.2 = dag_id dag /\
    dr_execution_date kv.2 ∈ dates.

(** The two ways of [create_dagrun]: the row that is there, or a new one at
    the end of the table. *)
Lemma create_dagrun_cases (dag : DAG) (d : datetime) (di : DataInterval)
    (start : Z) (ext : bool) (st : TaskInstanceState) (rt : DagRunType)
    (s : Session) :
  (exists r, r ∈ run_table s /\ dr_dag_id r = dag_id dag /\
             dr_execution_date r = d /\
             create_dagrun generate_run_id dag d di start ext st rt s
             = (s, Returned r))
  \/
  (~ run_at dag d (run_table s) /\
   create_dagrun generate_run_id dag d di start ext st rt s
   = (with_runs (run_table s ++
                 [mkDagRun (dag_id dag) (generate_run_id rt d) d di st rt
                           (Some start) ext]) s,
      Returned (mkDagRun (dag_id dag) (generate_run_id rt d) d di st rt
                         (Some start) ext))).
Proof.
  unfold create_dagrun.
  destruct (filter _ (run_table s)) as [|r l] eqn:Hf; simpl.
  - right. split; [|done]. intros (r & Hr & Hd & He).
    assert (Hin : r ∈ filter (fun r => dr_dag_id r = dag_id dag /\
                                       dr_execution_date r = d) (run_table s))
      by (by apply list_elem_of_filter).
    rewrite Hf in Hin. by apply elem_of_nil in Hin.
  - left. exists r.
    assert (Hin : r ∈ filter (fun r => dr_dag_id r = dag_id dag /\
                                       dr_execution_date r = d) (run_table s))
      by (rewrite Hf; left).
    apply list_elem_of_filter in Hin as [[Hd He] Hin]. done.
Qed.

Lemma created_for_more (dag : DAG) (info : DagRunInfo) (infos : list DagRunInfo)
    (st : TaskInstanceState) (rt : DagRunType) (r : DagRun) :
  created_for dag infos st rt r -> created_for dag (info :: infos) st rt r.
Proof.
  intros (H1 & H2 & H3 & H4 & i & Hi & H5). split_and!; try done.
  exists i. split; [by right|done].
Qed.

Lemma run_at_app (dag : DAG) (d : datetime) (l k : list DagRun) :
  run_at dag d (l ++ k) <-> run_at dag d l \/ run_at dag d k.
Proof.
  unfold run_at. split.
  - intros (r & [Hr|Hr]%elem_of_app & H); [left|right]; eauto.
  - intros [(r & Hr & H)|(r & Hr & H)]; exists r; (split; [|done]);
      apply elem_of_app; auto.
Qed.

(** The loop of [_create_dagruns], on any store: it returns; it leaves the
    task instances alone and appends runs only, each made for one of the
    infos at a logical timestamp the dag had no run at; the dict ends with a
    key for every info. *)
Lemma create_missing_spec (dag : DAG) (dates : list datetime)
    (st : TaskInstanceState) (rt : DagRunType) (infos : list DagRunInfo) :
  forall (d : RunDict) (s : Session),
  (forall info, info ∈ infos -> logical_date info ∈ dates) ->
  dict_of_store dag dates d s ->
  exists d' s',
    missing dag infos st rt d s = (s', Returned d') /\
    ti_table s' = ti_table s /\
    (exists new, run_table s' = run_table s ++ new /\
                 Forall (created_for dag infos st rt) new) /\
    (forall info, info ∈ infos -> data_interval info ∈ d'.*1) /\
    (forall k, k ∈ d.*1 -> k ∈ d'.*1) /\
    dict_of_store dag dates d' s' /\
    (runs_unique (run_table s) -> runs_unique (run_table s')) /\
    (NoDup (data_interval <$> infos) ->
     forall info, info ∈ infos ->
       data_interval info ∈ d.*1 \/ run_at dag (logical_date info) (run_table s')).
Proof.
  induction infos as [|info infos IH]; intros d s Hdates Hinv.
  - exists d, s. simpl. split_and!; try done.
    + exists []. by rewrite app_nil_r.
    + intros info Hin. by apply elem_of_nil in Hin.
    + intros _ info Hin. by apply elem_of_nil in Hin.
  - assert (Hdates' : forall i, i ∈ infos -> logical_date i ∈ dates)
      by (intros i Hi; apply Hdates; by right).
    simpl. destruct (dict_contains (data_interval info) d) eqn:Hcontains.
    + destruct (IH d s Hdates' Hinv)
        as (d' & s' & Hcall & Hti & (new & Hruns & Hnew) & Hinfos & Hkeys & Hinv'
            & Huniq & Hrun).
      exists d', s'. split_and!; try done.
      * exists new. split; [done|].
        eapply Forall_impl; [exact Hnew|]. intros r. apply created_for_more.
      * intros i [->|Hi]%elem_of_cons; [|by apply Hinfos].
        apply Hkeys. by apply dict_contains_spec.
      * intros Hnd i [->|Hi]%elem_of_cons.
        -- left. by apply dict_contains_spec.
        -- try rewrite fmap_cons in Hnd. apply NoDup_cons in Hnd as [_ Hnd].
           by apply Hrun.
    + cbn [utcnow].
      set (s0 := mkSession (ti_table s) (run_table s) (S (clock s))).
      destruct (create_dagrun_cases dag (logical_date info) (data_interval info)
                  (utcnow_at (clock s)) false st rt s0)
        as [(r & Hr & Hd & He & Hc)|[Hfresh Hc]]; rewrite Hc.
      * assert (Hinv1 : dict_of_store dag dates
                          (dict_set (data_interval info) r d) s0).
        { intros kv [->|Hin]%dict_set_entries; simpl.
          - split_and!; try done. rewrite He. apply Hdates. left.
          - by apply Hinv. }
        destruct (IH _ s0 Hdates' Hinv1)
          as (d' & s' & Hcall & Hti & (new & Hruns & Hnew) & Hinfos & Hkeys
              & Hinv' & Huniq & Hrun).
        exists d', s'. simpl in Hti, Hruns, Huniq. split_and!; try done.
        -- exists new. split; [done|].
           eapply Forall_impl; [exact Hnew|]. intros r0. apply created_for_more.
        -- intros i [->|Hi]%elem_of_cons; [|by apply Hinfos].
           apply Hkeys, dict_set_keys. by left.
        -- intros k Hk. apply Hkeys, dict_set_keys. by right.
        -- intros Hnd i [->|Hi]%elem_of_cons.
           ++ right. exists r. split; [|done]. rewrite Hruns.
              apply elem_of_app. by left.
           ++ try rewrite fmap_cons in Hnd. apply NoDup_cons in Hnd as [Hnotin Hnd].
              destruct (Hrun Hnd i Hi) as [Hk|Hat]; [|by right].
              apply dict_set_keys in Hk as [Hk|Hk]; [|by left].
              exfalso. apply Hnotin. rewrite <- Hk. by apply list_elem_of_fmap_2.
      * set (run := mkDagRun (dag_id dag) (generate_run_id rt (logical_date info))
                      (logical_date info) (data_interval info) st rt
                      (Some (utcnow_at (clock s))) false) in *.
        set (s1 := with_runs (run_table s0 ++ [run]) s0) in *.
        assert (Hinv1 : dict_of_store dag dates
                          (dict_set (data_interval info) run d) s1).
        { intros kv [->|Hin]%dict_set_entries; simpl.
          - split_and!; try done.
            + apply elem_of_app. right. left.
            + apply Hdates. left.
          - destruct (Hinv kv Hin) as (H1 & H2 & H3).
            split_and!; try done. apply elem_of_app. by left. }
        destruct (IH _ s1 Hdates' Hinv1)
          as (d' & s' & Hcall & Hti & (new & Hruns & Hnew) & Hinfos & Hkeys
              & Hinv' & Huniq & Hrun).
        exists d', s'. simpl in Hti, Hruns, Huniq. split_and!; try done.
        -- exists (run :: new). split.
           ++ rewrite Hruns. by rewrite <- app_assoc.
           ++ constructor.
              ** split_and!; try done. exists info. split; [left|done].
              ** eapply Forall_impl; [exact Hnew|]. intros r0.
                 apply created_for_more.
        -- intros i [->|Hi]%elem_of_cons; [|by apply Hinfos].
           apply Hkeys, dict_set_keys. by left.
        -- intros k Hk. apply Hkeys, dict_set_keys. by right.
        -- intros Hu. apply Huniq. unfold runs_unique in *.
           rewrite fmap_app. apply NoDup_app. split; [done|]. split.
           ++ intros x Hx Hx'. simpl in Hx'. apply list_elem_of_singleton in Hx'.
              apply list_elem_of_fmap in Hx as (r & Hxr & Hr). subst x.
              injection Hx' as Hd He. apply Hfresh. by exists r.
           ++ simpl. apply NoDup_singleton.
        -- intros Hnd i [->|Hi]%elem_of_cons.
           ++ right. exists run. split; [|done]. rewrite Hruns.
              apply elem_of_app. left. apply elem_of_app. right. left.
           ++ try rewrite fmap_cons in Hnd. apply NoDup_cons in Hnd as [Hnotin Hnd].
              destruct (Hrun Hnd i Hi) as [Hk|Hat]; [|by right].
              apply dict_set_keys in Hk as [Hk|Hk]; [|by left].
              exfalso. apply Hnotin. rewrite <- Hk. by apply list_elem_of_fmap_2.
Qed.

(** With a key or a stored run for every info, the loop creates nothing:
    [create_dagrun] answers with the row that is there. *)
Lemma create_missing_again (dag : DAG) (st : TaskInstanceState) (rt : DagRunType)
    (infos : list DagRunInfo) :
  forall (d : RunDict) (s : Session),
  (forall info, info ∈ infos ->
     data_interval info ∈ d.*1 \/ run_at dag (logical_date info) (run_table s)) ->
  exists d' s',
    missing dag infos st rt d s = (s', Returned d') /\
    ti_table s' = ti_table s /\ run_table s' = run_table s.
Proof.
  induction infos as [|info infos IH]; intros d s Hall; simpl; [by eauto|].
  destruct (dict_contains (data_interval info) d) eqn:Hcontains.
  - apply IH. intros i Hi. apply Hall. by right.
  - cbn [utcnow].
    set (s0 := mkSession (ti_table s) (run_table s) (S (clock s))).
    destruct (create_dagrun_cases dag (logical_date info) (data_interval info)
                (utcnow_at (clock s)) false st rt s0)
      as [(r & Hr & Hd & He & Hc)|[Hfresh Hc]]; rewrite Hc.
    + destruct (IH (dict_set (data_interval info) r d) s0)
        as (d' & s' & Hcall & Hti & Hruns).
      { intros i Hi. destruct (Hall i ltac:(by right)) as [Hk|Hat]; [|by right].
        left. apply dict_set_keys. by right. }
      by exists d', s'.
    + exfalso. destruct (Hall info ltac:(left)) as [Hk|Hat]; [|done].
      apply dict_contains_spec in Hk. congruence.
Qed.

Lemma NoDup_fmap_inj_on {A B : Type} (f : A -> B) (l : list A) (x y : A) :
  NoDup (f <$> l) -> x ∈ l -> y ∈ l -> f x = f y -> x = y.
Proof.
  induction l as [|z l IH]; [by intros _ ?%elem_of_nil|].
  rewrite fmap_cons.
  intros [Hnotin Hnd]%NoDup_cons [->|Hx]%elem_of_cons [->|Hy]%elem_of_cons Heq;
    try done.
  - exfalso. apply Hnotin. rewrite Heq. by apply list_elem_of_fmap_2.
  - exfalso. apply Hnotin. rewrite <- Heq. by apply list_elem_of_fmap_2.
  - by apply IH.
Qed.

(** The loop on a store that agrees with the infos, their logical
    timestamps pairwise different: the store still agrees afterwards, every
    entry of the dict is a run under its own data interval, and the keys are
    requested intervals, each once. *)
Lemma create_missing_agreeing (dag : DAG) (all : list DagRunInfo)
    (st : TaskInstanceState) (rt : DagRunType) (infos : list DagRunInfo) :
  NoDup (logical_date <$> all) ->
  forall (d d' : RunDict) (s s' : Session),
  (forall info, info ∈ infos -> info ∈ all) ->
  agrees dag all (run_table s) ->
  (forall kv, kv ∈ d -> kv.1 = dr_data_interval kv.2) ->
  (forall info, info ∈ all -> run_at dag (logical_date info) (run_table s) ->
                data_interval info ∈ d.*1) ->
  NoDup d.*1 ->
  (forall k, k ∈ d.*1 -> k ∈ data_interval <$> all) ->
  missing dag infos st rt d s = (s', Returned d') ->
  agrees dag all (run_table s') /\
  (forall kv, kv ∈ d' -> kv.1 = dr_data_interval kv.2) /\
  NoDup d'.*1 /\
  (forall k, k ∈ d'.*1 -> k ∈ data_interval <$> all).
Proof.
  intros Hdates.
  induction infos as [|info infos IH];
    intros d d' s s' Hsub Hagree Hown Hserved Hnd Hreq Hcall; simpl in Hcall.
  - by injection Hcall as <- <-.
  - assert (Hsub' : forall i, i ∈ infos -> i ∈ all)
      by (intros i Hi; apply Hsub; by right).
    destruct (dict_contains (data_interval info) d) eqn:Hcontains.
    + by apply (IH d d' s s').
    + cbn [utcnow] in Hcall.
      set (s0 := mkSession (ti_table s) (run_table s) (S (clock s))) in *.
      destruct (create_dagrun_cases dag (logical_date info) (data_interval info)
                  (utcnow_at (clock s)) false st rt s0)
        as [(r & Hr & Hd & He & Hc)|[Hfresh Hc]]; rewrite Hc in Hcall.
      * exfalso.
        assert (Hk : data_interval info ∈ d.*1).
        { apply Hserved; [apply Hsub; left|]. by exists r. }
        apply dict_contains_spec in Hk. congruence.
      * set (run := mkDagRun (dag_id dag) (generate_run_id rt (logical_date info))
                      (logical_date info) (data_interval info) st rt
                      (Some (utcnow_at (clock s))) false) in *.
        refine (IH (dict_set (data_interval info) run d) d'
                  (with_runs (run_table s0 ++ [run]) s0) s' Hsub' _ _ _ _ _ Hcall).
        -- intros r i [Hr|Hr]%elem_of_app Hi Hd He; [by apply (Hagree r i)|].
           apply list_elem_of_singleton in Hr as ->. simpl in He. simpl.
           f_equal. apply (NoDup_fmap_inj_on logical_date all); try done.
           apply Hsub. left.
        -- intros kv [->|Hin]%dict_set_entries; [done|]. by apply Hown.
        -- intros i Hi Hat. apply dict_set_keys. simpl in Hat.
           apply run_at_app in Hat as [Hat|(r & Hr & _ & He)].
           ++ right. by apply Hserved.
           ++ left. apply list_elem_of_singleton in Hr as ->. simpl in He.
              f_equal. apply (NoDup_fmap_inj_on logical_date all); try done.
              apply Hsub. left.
        -- by apply dict_set_NoDup.
        -- intros k [->|Hk]%dict_set_keys; [|by apply Hreq].
           apply list_elem_of_fmap_2, Hsub. left.
Qed.

Lemma NoDup_fmap_filter {A B : Type} (f : A -> B) (P : A -> Prop)
    `{forall x, Decision (P x)} (l : list A) :
  NoDup (f <$> l) -> NoDup (f <$> filter P l).
Proof.
  induction l as [|x l IH]; simpl; [done|].
  intros [Hnotin Hnd]%NoDup_cons. rewrite filter_cons.
  destruct (decide (P x)); [|by apply IH].
  rewrite fmap_cons. apply NoDup_cons. split; [|by apply IH].
  intros Hin. apply Hnotin.
  apply list_elem_of_fmap in Hin as (y & Hy & Hin).
  apply list_elem_of_filter in Hin as [_ Hin].
  apply list_elem_of_fmap. eauto.
Qed.

Lemma NoDup_second_of_pairs {A B C : Type} (g : A -> B) (h : A -> C) (c : B)
    (l : list A) :
  NoDup ((fun x => (g x, h x)) <$> l) ->
  (forall x, x ∈ l -> g x = c) ->
  NoDup (h <$> l).
Proof.
  induction l as [|x l IH]; [constructor|].
  rewrite !fmap_cons. intros [Hnotin Hnd]%NoDup_cons Hall.
  apply NoDup_cons. split.
  - intros Hin. apply Hnotin.
    apply list_elem_of_fmap in Hin as (y & Hy & Hin).
    apply list_elem_of_fmap. exists y. split; [|done].
    rewrite (Hall x) by left. rewrite (Hall y) by (by right). by rewrite Hy.
  - apply IH; [done|]. intros y Hy. apply Hall. by right.
Qed.

Lemma found_runs_dates (dag_id : string) (dates : list datetime) (s : Session) :
  runs_unique (run_table s) ->
  NoDup (dr_execution_date <$> DagRun_find dag_id dates s).
Proof.
  intros Hu.
  apply (NoDup_second_of_pairs dr_dag_id dr_execution_date dag_id).
  - by apply NoDup_fmap_filter.
  - intros r Hr. apply list_elem_of_filter in Hr. tauto.
Qed.

Lemma elem_of_find (dag_id : string) (dates : list datetime) (s : Session)
    (r : DagRun) :
  r ∈ DagRun_find dag_id dates s <->
  (dr_dag_id r = dag_id /\ dr_execution_date r ∈ dates) /\ r ∈ run_table s.
Proof. unfold DagRun_find. by rewrite list_elem_of_filter. Qed.

Lemma dict_values_keys (f : DagRun -> DataInterval) (d : RunDict) :
  (forall kv, kv ∈ d -> kv.1 = f kv.2) -> f <$> d.*2 = d.*1.
Proof.
  induction d as [|[k v] d IH]; intros Hall; [done|].
  rewrite !fmap_cons. simpl. f_equal.
  - symmetry. apply (Hall (k, v)). left.
  - apply IH. intros kv Hkv. apply Hall. by right.
Qed.

(** The dict [_create_dagruns] starts from holds stored runs of the dag at
    requested logical timestamps. *)
Lemma found_dict_of_store (dag : DAG) (dates : list datetime) (s : Session) :
  dict_of_store dag dates (found_dict dag (DagRun_find (dag_id dag) dates s)) s.
Proof.
  intros kv Hkv.
  destruct (found_dict_spec dag (DagRun_find (dag_id dag) dates s)) as (Hent & _).
  destruct (Hent kv Hkv) as [Hin _]. apply elem_of_find in Hin. tauto.
Qed.

(** [_create_dagruns] on any store: it returns, leaves the task instances
    alone and appends runs only. *)
Lemma create_dagruns_returns (dag : DAG) (infos : list DagRunInfo)
    (st : TaskInstanceState) (rt : DagRunType) (s : Session) :
  exists s1 runs1,
    create_runs dag infos st rt s = (s1, Returned runs1) /\
    ti_table s1 = ti_table s /\
    (exists new, run_table s1 = run_table s ++ new /\
                 Forall (created_for dag infos st rt) new) /\
    (runs_unique (run_table s) -> runs_unique (run_table s1)) /\
    Forall (fun r => r ∈ run_table s1 /\ dr_dag_id r = dag_id dag) runs1.
Proof.
  unfold _create_dagruns.
  fold (found_dict dag (DagRun_find (dag_id dag) (logical_date <$> infos) s)).
  destruct (create_missing_spec dag (logical_date <$> infos) st rt infos
              (found_dict dag (DagRun_find (dag_id dag) (logical_date <$> infos) s))
              s ltac:(intros i Hi; by apply list_elem_of_fmap_2)
              (found_dict_of_store dag _ s))
    as (d1 & s1 & Hcall & Hti & Hnew & _ & _ & Hinv & Huniq & _).
  rewrite Hcall. exists s1, (dict_values d1). split_and!; try done.
  apply Forall_forall. intros r Hr. unfold dict_values in Hr.
  apply list_elem_of_fmap in Hr as ([k v] & -> & Hkv).
  destruct (Hinv _ Hkv) as (Hin & Hd & _). done.
Qed.

(** C8, as the code has it on the run store of the spec, for requested data
    intervals that are pairwise different. [_create_dagruns] returns; it
    appends runs only, each made for a requested interval, and keeps the
    store at one run per dag and logical timestamp. The same call again
    returns and creates nothing: both tables are as the first call left
    them. When the requested logical timestamps are pairwise different too
    and the stored runs of the dag at a requested logical timestamp carry
    the data interval requested for it, the second call leaves the whole
    session as it is, and both calls return exactly as many runs as there
    are infos: for every info the stored run of its logical timestamp and
    data interval, each once. Rows are matched by data interval: whenever
    every requested interval is the data interval of a run found, the call
    creates nothing. *)
Theorem create_dagruns_idempotent (dag : DAG) (infos : list DagRunInfo)
    (st : TaskInstanceState) (rt : DagRunType) (s : Session) :
  NoDup (data_interval <$> infos) ->
  (exists s1 runs1 s2 runs2,
     create_runs dag infos st rt s = (s1, Returned runs1) /\
     create_runs dag infos st rt s1 = (s2, Returned runs2) /\
     ti_table s1 = ti_table s /\
     (exists new, run_table s1 = run_table s ++ new /\
                  Forall (created_for dag infos st rt) new) /\
     (runs_unique (run_table s) -> runs_unique (run_table s1)) /\
     ti_table s2 = ti_table s1 /\
     run_table s2 = run_table s1 /\
     (runs_unique (run_table s) ->
      NoDup (logical_date <$> infos) ->
      agrees dag infos (run_table s) ->
      s2 = s1 /\
      length runs1 = length infos /\
      length runs2 = length infos /\
      NoDup (dr_data_interval <$> runs2) /\
      (forall info, info ∈ infos ->
         exists r, r ∈ runs2 /\ dr_data_interval r = data_interval info /\
                   dr_execution_date r = logical_date info) /\
      (forall r, r ∈ runs2 -> r ∈ run_table s1)))
  /\
  (forall s' : Session,
     (forall info, info ∈ infos ->
        exists r, r ∈ DagRun_find (dag_id dag) (logical_date <$> infos) s' /\
                  dr_data_interval r = data_interval info) ->
     exists runs, create_runs dag infos st rt s' = (s', Returned runs)).
Proof.
  intros Hnd. split.
  - set (dates := logical_date <$> infos).
    assert (Hdates : forall i, i ∈ infos -> logical_date i ∈ dates)
      by (intros i Hi; by apply list_elem_of_fmap_2).
    destruct (create_missing_spec dag dates st rt infos
                (found_dict dag (DagRun_find (dag_id dag) dates s)) s Hdates
                (found_dict_of_store dag dates s))
      as (d1 & s1 & Hcall1 & Hti1 & (new & Hruns1 & Hnew) & Hinfos1 & _ & Hinv1
          & Huniq1 & Hserved1).
    specialize (Hserved1 Hnd).
    destruct (found_dict_spec dag (DagRun_find (dag_id dag) dates s))
      as (Hent0 & Hkeys0 & Hndk0 & _).
    destruct (found_dict_spec dag (DagRun_find (dag_id dag) dates s1))
      as (Hent & Hkeys & Hndk & Hlen).
    assert (Hgrow : forall r, r ∈ DagRun_find (dag_id dag) dates s ->
                              r ∈ DagRun_find (dag_id dag) dates s1).
    { intros r Hr. apply elem_of_find in Hr as [Hr Hin]. apply elem_of_find.
      split; [done|]. rewrite Hruns1. apply elem_of_app. by left. }
    destruct (create_missing_again dag st rt infos
                (found_dict dag (DagRun_find (dag_id dag) dates s1)) s1)
      as (d2 & s2 & Hcall2 & Hti2 & Hruns2).
    { intros info Hinfo. destruct (Hserved1 info Hinfo) as [Hk|Hat]; [|by right].
      left. apply list_elem_of_fmap in Hk as ([k v] & Hk & Hkv). simpl in Hk.
      destruct (Hent0 _ Hkv) as [Hin Hkey]. simpl in Hin, Hkey.
      rewrite Hk, Hkey. by apply Hkeys, Hgrow. }
    exists s1, (dict_values d1), s2, (dict_values d2).
    split; [|split; [|split_and!]]; try done.
    + unfold _create_dagruns. fold dates.
      fold (found_dict dag (DagRun_find (dag_id dag) dates s)).
      by rewrite Hcall1.
    + unfold _create_dagruns. fold dates.
      fold (found_dict dag (DagRun_find (dag_id dag) dates s1)).
      by rewrite Hcall2.
    + by exists new.
    + intros Huniq Hnd_dates Hagree. specialize (Huniq1 Huniq).
      assert (Hserved0 : forall info, info ∈ infos ->
                run_at dag (logical_date info) (run_table s) ->
                data_interval info
                ∈ (found_dict dag (DagRun_find (dag_id dag) dates s)).*1).
      { intros info Hinfo (r & Hr & Hd & He).
        rewrite <- (Hagree r info Hr Hinfo Hd He). apply Hkeys0.
        apply elem_of_find. split; [|done]. split; [done|].
        rewrite He. by apply Hdates. }
      destruct (create_missing_agreeing dag infos st rt infos Hnd_dates
                  _ d1 s s1 ltac:(done) Hagree
                  ltac:(intros kv Hkv; by apply Hent0) Hserved0 Hndk0
                  ltac:(intros k Hk;
                        apply list_elem_of_fmap in Hk as ([k0 v] & -> & Hkv);
                        destruct (Hent0 _ Hkv) as [Hin Hkey];
                        apply elem_of_find in Hin as [[Hd He] Hin];
                        apply list_elem_of_fmap in He as (info & He & Hinfo);
                        simpl in *; rewrite Hkey,
                          (Hagree v info Hin Hinfo Hd He);
                        by apply list_elem_of_fmap_2)
                  Hcall1)
        as (Hagree1 & Hown1 & Hndk1 & Hreq1).
      assert (Hall : forall info, info ∈ infos ->
                data_interval info
                ∈ (found_dict dag (DagRun_find (dag_id dag) dates s1)).*1).
      { intros info Hinfo. specialize (Hinfos1 info Hinfo).
        apply list_elem_of_fmap in Hinfos1 as ([k v] & Hk & Hkv). simpl in Hk.
        destruct (Hinv1 _ Hkv) as (Hin & Hd & He). simpl in *.
        pose proof (Hown1 _ Hkv) as Hkey. simpl in Hkey.
        rewrite Hk, Hkey. apply Hkeys. apply elem_of_find. done. }
      assert (Hnoop : missing dag infos st rt
                        (found_dict dag (DagRun_find (dag_id dag) dates s1)) s1
                      = (s1, Returned
                               (found_dict dag (DagRun_find (dag_id dag) dates s1))))
        by (by apply create_missing_noop).
      rewrite Hnoop in Hcall2. injection Hcall2 as <- <-.
      pose proof (found_runs_dates (dag_id dag) dates s1 Huniq1) as Hnd1.
      split_and!.
      * done.
      * unfold dict_values. rewrite length_fmap.
        rewrite <- (length_fmap fst d1), <- (length_fmap data_interval infos).
        apply Nat.le_antisymm.
        -- apply submseteq_length, NoDup_submseteq; [done|]. exact Hreq1.
        -- apply submseteq_length, NoDup_submseteq; [done|].
           intros x Hx. apply list_elem_of_fmap in Hx as (info & -> & Hinfo).
           by apply Hinfos1.
      * unfold dict_values. rewrite length_fmap. apply Nat.le_antisymm.
        -- etrans; [apply Hlen|].
           rewrite <- (length_fmap dr_execution_date).
           rewrite <- (length_fmap logical_date infos).
           apply submseteq_length, NoDup_submseteq; [done|].
           intros x Hx. apply list_elem_of_fmap in Hx as (r & -> & Hr).
           apply elem_of_find in Hr. tauto.
        -- rewrite <- (length_fmap data_interval infos).
           rewrite <- (length_fmap fst (found_dict _ _)).
           apply submseteq_length, NoDup_submseteq; [done|].
           intros x Hx. apply list_elem_of_fmap in Hx as (info & -> & Hinfo).
           by apply Hall.
      * unfold dict_values. rewrite dict_values_keys; [done|].
        intros kv Hkv. by apply Hent.
      * intros info Hinfo. specialize (Hall info Hinfo).
        apply list_elem_of_fmap in Hall as ([k v] & Hk & Hkv). simpl in Hk.
        exists v. destruct (Hent _ Hkv) as [Hin Hkey]. simpl in Hin, Hkey.
        split_and!.
        -- unfold dict_values. apply list_elem_of_fmap. by exists (k, v).
        -- congruence.
        -- apply elem_of_find in Hin as [[Hd He] Hin].
           apply list_elem_of_fmap in He as (info' & He & Hinfo').
           rewrite He. f_equal.
           apply (NoDup_fmap_inj_on data_interval infos); try done.
           rewrite <- (Hagree1 v info' Hin Hinfo' Hd He). congruence.
      * intros r Hr. unfold dict_values in Hr.
        apply list_elem_of_fmap in Hr as ([k v] & -> & Hkv). simpl.
        destruct (Hent _ Hkv) as [Hin _]. simpl in Hin.
        apply elem_of_find in Hin. tauto.
  - intros s' Hfound. unfold _create_dagruns.
    fold (found_dict dag (DagRun_find (dag_id dag) (logical_date <$> infos) s')).
    destruct (found_dict_spec dag
                (DagRun_find (dag_id dag) (logical_date <$> infos) s'))
      as (_ & Hkeys & _ & _).
    rewrite create_missing_noop; [eauto|].
    intros info Hinfo. destruct (Hfound info Hinfo) as (r & Hr & <-).
    by apply Hkeys.
Qed.

End Materializer.

(** C8, refuted as stated, on the run store of the spec: the one run of
    the dag sits at day 1 under the data interval from day 0 to day 1, and
    the daily intervals of day 0 and day 1 are requested. The interval of
    day 0 is matched by that run; for the interval of day 1 the store answers
    the create with that same run. Both calls return that run twice and
    create nothing: two intervals, one run. *)
Lemma create_dagruns_counterexample :
  let call :=
    _create_dagruns (fun n => Z.of_nat n) example_run_id (example_dag None)
      two_days RUNNING BACKFILL_JOB in
  NoDup (data_interval <$> two_days) /\
  length two_days = 2%nat /\
  (call shifted_session).2 = Returned [shifted_run; shifted_run] /\
  run_table (call shifted_session).1 = [shifted_run] /\
  (call (call shifted_session).1).2 = Returned [shifted_run; shifted_run] /\
  run_table (call (call shifted_session).1).1 = [shifted_run].
Proof.
  intros call. split.
  - apply (bool_decide_unpack _). vm_compute. exact I.
  - repeat split; vm_compute; reflexivity.
Qed.

Lemma create_dagruns_idempotent_witness :
  NoDup (data_interval <$> three_days) /\
  exists s1 runs1 s2 runs2,
    _create_dagruns (fun n => Z.of_nat n) example_run_id (example_dag None)
      three_days RUNNING BACKFILL_JOB empty_session = (s1, Returned runs1) /\
    _create_dagruns (fun n => Z.of_nat n) example_run_id (example_dag None)
      three_days RUNNING BACKFILL_JOB s1 = (s2, Returned runs2) /\
    s2 = s1 /\ length runs1 = 3%nat /\ length runs2 = 3%nat /\
    run_table s1 = runs2.
Proof.
  assert (Hu : runs_unique (run_table empty_session)) by constructor.
  assert (Hnd : NoDup (data_interval <$> three_days))
    by (apply (bool_decide_unpack _); vm_compute; exact I).
  assert (Hdates : NoDup (logical_date <$> three_days))
    by (apply (bool_decide_unpack _); vm_compute; exact I).
  assert (Hagree : agrees (example_dag None) three_days (run_table empty_session))
    by (intros r info Hr; by apply elem_of_nil in Hr).
  split; [exact Hnd|].
  destruct (proj1 (create_dagruns_idempotent (fun n => Z.of_nat n) example_run_id
                     (example_dag None) three_days RUNNING BACKFILL_JOB
                     empty_session Hnd))
    as (s1 & runs1 & s2 & runs2 & Hcall1 & Hcall2 & _ & _ & _ & _ & _ & Hexact).
  destruct (Hexact Hu Hdates Hagree) as (Heq & Hlen1 & Hlen2 & _).
  exists s1, runs1, s2, runs2. split_and!; try done.
  revert Hcall1 Hcall2. vm_compute. intros [= <- <-]. by intros [= _ <-].
Defined.

(** *** State propagation *)

Section Propagator.

Context (utcnow_at : nat -> Z) (coerce_datetime : datetime -> datetime)
        (generate_run_id : DagRunType -> datetime -> string)
        (verify_integrity : DAG -> string -> gmap TIKey TIRow -> gmap TIKey TIRow)
        (finished : TaskInstanceState -> bool).

Local Abbreviation set_state_ :=
  (set_state utcnow_at coerce_datetime generate_run_id verify_integrity finished).
Local Abbreviation alter_ := (alter utcnow_at finished).
Local Abbreviation create_runs := (_create_dagruns utcnow_at generate_run_id).
Local Abbreviation verify_runs := (_verify_dagruns verify_integrity).
Local Abbreviation visit :=
  (visit_tasks utcnow_at generate_run_id verify_integrity).
Local Abbreviation sub_loop :=
  (subdag_loop utcnow_at generate_run_id verify_integrity).

(** [set_state] up to the point where [commit] is tested: the session as
    integrity verification and the sub-workflow runs leave it, and the
    references to the instances the two queries select. *)
Definition affected (fuel : nat) (tasks : list (BaseOperator * option DAG))
    (execution_date : datetime) (upstream downstream future past : bool)
    (target : TaskInstanceState) (commit : bool) (s : Session)
  : option (Session * outcome (list TIKey)) :=
  match tasks with
  | [] => Some (s, Returned [])
  | (_, first_dag) :: _ =>
      if negb (is_localized execution_date) then
        Some (s, Raised (ValueError "Received non-localized date"))
      else if decide (1 < length (remove_dups
                  ((fun t : BaseOperator * option DAG => dag_id <$> t.2)
                     <$> tasks)))%nat then
        Some (s, Raised (ValueError "Received tasks from multiple DAGs"))
      else
        match first_dag with
        | None => Some (s, Raised (ValueError "Received tasks with no DAG"))
        | Some dag =>
            match _get_execution_dates coerce_datetime dag execution_date
                    future past s with
            | Raised e => Some (s, Raised e)
            | Returned dates =>
                let task_ids := _find_task_relatives tasks.*1 downstream upstream in
                let '(s, confirmed_infos) :=
                  _verify_dag_run_integrity verify_integrity dag dates s in
                let confirmed_dates := logical_date <$> confirmed_infos in
                match _get_subdag_runs utcnow_at generate_run_id verify_integrity
                        fuel dag target task_ids commit confirmed_infos s with
                | None => None
                | Some (s, Raised e) => Some (s, Raised e)
                | Some (s, Returned sub_dag_run_ids) =>
                    Some (s, Returned
                      (_get_all_dag_task_query dag target task_ids
                         confirmed_dates s ++
                       (if decide (sub_dag_run_ids = []) then []
                        else _all_subdag_tasks_query sub_dag_run_ids target
                               confirmed_dates s)))
                end
            end
        end
  end.

Lemma set_state_affected (fuel : nat) (tasks : list (BaseOperator * option DAG))
    (execution_date : datetime) (upstream downstream future past : bool)
    (target : TaskInstanceState) (commit : bool) (s : Session) :
  set_state_ fuel tasks execution_date upstream downstream future past target
    commit s
  = match affected fuel tasks execution_date upstream downstream future past
            target commit s with
    | None => None
    | Some (s, Raised e) => Some (s, Raised e)
    | Some (s, Returned tis_altered) =>
        let s := if commit then foldl (fun s k => alter_ target k s) s tis_altered
                 else s in
        Some (s, Returned (instances tis_altered s))
    end.
Proof.
  unfold set_state, affected.
  destruct tasks as [|[op first_dag] rest]; [by destruct commit|].
  destruct (negb (is_localized execution_date)); [done|].
  destruct (decide _); [done|].
  destruct first_dag as [dag|]; [|done].
  destruct (_get_execution_dates _ _ _ _ _ _) as [dates|e]; [|done].
  destruct (_verify_dag_run_integrity _ _ _ _) as [s0 infos].
  destruct (_get_subdag_runs _ _ _ _ _ _ _ _ _ _) as [[s1 [ids|e]]|];
    reflexivity.
Qed.

(** The selected references are keys of stored rows whose state is not the
    target state. *)
Lemma select_spec (p : TIKey -> TIRow -> bool) (s : Session) (k : TIKey) :
  k ∈ select p s <-> exists r, ti_table s !! k = Some r /\ p k r = true.
Proof.
  unfold select. rewrite list_elem_of_fmap. split.
  - intros ([k' r] & -> & Hin). apply list_elem_of_filter in Hin as [Hp Hin].
    apply elem_of_map_to_list in Hin. by exists r.
  - intros (r & Hr & Hp). exists (k, r). split; [done|].
    apply list_elem_of_filter. split; [done|]. by apply elem_of_map_to_list.
Qed.

Lemma select_NoDup (p : TIKey -> TIRow -> bool) (s : Session) :
  NoDup (select p s).
Proof.
  unfold select.
  apply (NoDup_fmap_filter fst (fun kr : TIKey * TIRow => p kr.1 kr.2 = true)).
  apply NoDup_fst_map_to_list.
Qed.

(** **** What integrity verification may do *)

(** Every instance of [m] is still in [m'], in the state it had. *)
Definition states_kept (m m' : gmap TIKey TIRow) : Prop :=
  forall k row, m !! k = Some row ->
    exists row', m' !! k = Some row' /\ state row' = state row.

Lemma states_kept_refl (m : gmap TIKey TIRow) : states_kept m m.
Proof. intros k row Hrow. eauto. Qed.

Lemma states_kept_trans (m1 m2 m3 : gmap TIKey TIRow) :
  states_kept m1 m2 -> states_kept m2 m3 -> states_kept m1 m3.
Proof.
  intros H12 H23 k row Hrow.
  destruct (H12 k row Hrow) as (row2 & Hrow2 & Hst2).
  destruct (H23 k row2 Hrow2) as (row3 & Hrow3 & Hst3).
  exists row3. split; [done|]. congruence.
Qed.

(** A repair that adds the instances that are missing and leaves the state
    of the existing ones alone. *)
Definition repair_keeps_states : Prop :=
  forall dag run_id m, states_kept m (verify_integrity dag run_id m).

Local Abbreviation repaired_ := (repaired verify_integrity).

Lemma repaired_trans (m1 m2 m3 : gmap TIKey TIRow) :
  repaired_ m1 m2 -> repaired_ m2 m3 -> repaired_ m1 m3.
Proof. intros H12 H23. induction H23; [done|]. by constructor. Qed.

Lemma repaired_once (dag : DAG) (run_id : string) (m : gmap TIKey TIRow) :
  repaired_ m (verify_integrity dag run_id m).
Proof. apply repaired_step, repaired_refl. Qed.

Lemma repaired_kept (m m' : gmap TIKey TIRow) :
  repair_keeps_states -> repaired_ m m' -> states_kept m m'.
Proof.
  intros Hrepair H. induction H as [|m' dag run_id H IH];
    [apply states_kept_refl|].
  eapply states_kept_trans; [exact IH|apply Hrepair].
Qed.

Lemma repaired_nothing (m m' : gmap TIKey TIRow) :
  (forall dag run_id m0, verify_integrity dag run_id m0 = m0) ->
  repaired_ m m' -> m' = m.
Proof.
  intros Hid H. induction H as [|m' dag run_id H IH]; [done|].
  by rewrite Hid.
Qed.

Lemma create_dagrun_ti_table (dag : DAG) (d : datetime) (di : DataInterval)
    (start : Z) (ext : bool) (st : TaskInstanceState) (rt : DagRunType)
    (s : Session) :
  ti_table (create_dagrun generate_run_id dag d di start ext st rt s).1 = ti_table s.
Proof. unfold create_dagrun. by destruct (head _). Qed.

Lemma create_missing_ti_table (dag : DAG) (infos : list DagRunInfo)
    (st : TaskInstanceState) (rt : DagRunType) :
  forall (d : RunDict) (s : Session),
    ti_table (create_missing utcnow_at generate_run_id dag infos st rt d s).1
    = ti_table s.
Proof.
  induction infos as [|info infos IH]; intros d s; simpl; [done|].
  destruct (dict_contains _ _); [apply IH|].
  pose proof (create_dagrun_ti_table dag (logical_date info) (data_interval info)
                (utcnow_at (clock s)) false st rt
                (mkSession (ti_table s) (run_table s) (S (clock s)))) as Hc.
  destruct (create_dagrun _ _ _ _ _ _ _ _ _) as [s1 [run|e]]; simpl in Hc.
  - by rewrite IH.
  - done.
Qed.

Lemma create_dagruns_ti_table (dag : DAG) (infos : list DagRunInfo)
    (st : TaskInstanceState) (rt : DagRunType) (s : Session) :
  ti_table (create_runs dag infos st rt s).1 = ti_table s.
Proof.
  unfold _create_dagruns.
  pose proof (create_missing_ti_table dag infos st rt
    (foldl (fun d run => dict_set (get_run_data_interval dag run) run d) []
       (DagRun_find (dag_id dag) (logical_date <$> infos) s)) s) as Hm.
  by destruct (create_missing _ _ _ _ _ _ _ _) as [s1 [d1|e]].
Qed.

Lemma verify_dagruns_repaired (dag_runs : list DagRun) (commit : bool)
    (target : TaskInstanceState) (sub : DAG) :
  forall s, repaired_ (ti_table s)
              (ti_table (verify_runs dag_runs commit target sub s)).
Proof.
  unfold _verify_dagruns.
  induction dag_runs as [|run dag_runs IH]; intros s; simpl;
    [apply repaired_refl|].
  eapply repaired_trans; [|apply IH].
  destruct commit; simpl; apply repaired_once.
Qed.

(** [_verify_dag_run_integrity]: the runs found are verified in turn; the
    infos it yields are the data intervals of the runs found, so a confirmed
    date is the start of the data interval of a run found; runs and clock
    are as before. *)
Lemma verify_dag_run_integrity_spec (dag : DAG) (dates : list datetime)
    (s : Session) :
  let result := _verify_dag_run_integrity verify_integrity dag dates s in
  repaired_ (ti_table s) (ti_table result.1) /\
  run_table result.1 = run_table s /\
  clock result.1 = clock s /\
  logical_date <$> result.2
  = (fun r => (dr_data_interval r).1) <$> DagRun_find (dag_id dag) dates s.
Proof.
  cbv zeta. unfold _verify_dag_run_integrity.
  match goal with |- context [foldl ?g _ _] => set (f := g) end.
  assert (Hgen : forall found s0 (infos0 : list DagRunInfo),
    repaired_ (ti_table s0) (ti_table (foldl f (s0, infos0) found).1) /\
    run_table (foldl f (s0, infos0) found).1 = run_table s0 /\
    clock (foldl f (s0, infos0) found).1 = clock s0 /\
    logical_date <$> (foldl f (s0, infos0) found).2
    = (logical_date <$> infos0) ++ ((fun r => (dr_data_interval r).1) <$> found)).
  { induction found as [|run found IH]; intros s0 infos0; simpl.
    - split_and!; try done; [apply repaired_refl|by rewrite app_nil_r].
    - subst f. cbn beta iota zeta.
      match goal with |- context [foldl ?g _ _] => set (f := g) in * end.
      destruct (IH (with_tis (verify_integrity dag (dr_run_id run) (ti_table s0)) s0)
                   (infos0 ++ [DagRunInfo_interval
                                 (get_run_data_interval dag run).1
                                 (get_run_data_interval dag run).2]))
        as (H1 & H2 & H3 & H4).
      split_and!; try done.
      + eapply repaired_trans; [|exact H1]. simpl. apply repaired_once.
      + rewrite H4, fmap_app. simpl. by rewrite <- app_assoc. }
  destruct (Hgen (DagRun_find (dag_id dag) dates s) s [])
    as (H1 & H2 & H3 & H4). done.
Qed.

(** The [for] loop inside [_get_subdag_runs]: it pushes the sub-DAGs the
    DAG has for the task ids, in their order, and never raises. *)
Lemma visit_tasks_spec (current_dag : DAG) (target : TaskInstanceState)
    (commit : bool) (infos : list DagRunInfo) (task_ids : list string) :
  forall dags ids s,
  exists s',
    visit current_dag task_ids target commit infos dags ids s
    = (s', Returned (dags ++ omap (direct_sub current_dag) task_ids,
                     ids ++ (dag_id <$> omap (direct_sub current_dag) task_ids)))
    /\ repaired_ (ti_table s) (ti_table s').
Proof.
  induction task_ids as [|id task_ids IH]; intros dags ids s; simpl.
  - exists s. rewrite !app_nil_r. split; [done|apply repaired_refl].
  - cbn [omap list_omap].
    destruct (direct_sub current_dag id) as [sub|] eqn:Hds;
      unfold direct_sub, is_subdag_operator in Hds;
      destruct (get_task current_dag id) as [task|]; try done;
      try apply IH;
      destruct (isinstance_SubDagOperator task),
        (bool_decide (task_type task = "SubDagOperator"));
      simpl in Hds; try done; try apply IH; rewrite Hds; simpl;
      try apply IH.
    all: destruct (create_dagruns_returns utcnow_at generate_run_id sub infos RUNNING
                     BACKFILL_JOB s) as (s1 & runs & Hcall & Hti & _);
      rewrite Hcall;
      destruct (IH (dags ++ [sub]) (ids ++ [dag_id sub])
                   (verify_runs runs commit target sub s1)) as (s' & Hvisit & Hrep);
      exists s'; rewrite Hvisit, <- !app_assoc; (split; [done|]);
      (eapply repaired_trans; [|exact Hrep]); rewrite <- Hti;
      apply verify_dagruns_repaired.
Qed.

(** [_get_subdag_runs] returns the ids of the nested DAGs reached, and only
    verifies on the way. *)
Lemma subdag_loop_spec (fuel : nat) (task_ids : list string)
    (target : TaskInstanceState) (commit : bool) (infos : list DagRunInfo) :
  forall dags ids s s' res,
    sub_loop fuel task_ids target commit infos dags ids s = Some (s', res) ->
    repaired_ (ti_table s) (ti_table s') /\
    exists ids',
      res = Returned ids' /\
      forall id, id ∈ ids' <->
        id ∈ ids \/ exists d sub, d ∈ dags /\ reached task_ids d sub /\
                                  dag_id sub = id.
Proof.
  induction fuel as [|fuel IH]; intros dags ids s s' res Hloop; [done|].
  simpl in Hloop. destruct (last dags) as [current_dag|] eqn:Hlast.
  - apply last_Some in Hlast as [rest ->]. rewrite removelast_last in Hloop.
    destruct (visit_tasks_spec current_dag target commit infos task_ids rest ids s)
      as (s1 & Hvisit & Hrep1).
    rewrite Hvisit in Hloop.
    destruct (IH _ _ _ _ _ Hloop) as (Hrep & ids' & -> & Hids).
    split; [by eapply repaired_trans|].
    exists ids'. split; [done|]. intros id. rewrite Hids. split.
    + intros [[Hin|Hin]%elem_of_app|(d & sub & [Hd|Hd]%elem_of_app & Hreach & Hid)].
      * by left.
      * right. apply list_elem_of_fmap in Hin as (sub & -> & Hsub).
        apply list_elem_of_omap in Hsub as (tid & Htid & Hdirect).
        exists current_dag, sub. split; [apply elem_of_app; right; left|].
        split; [|done]. by eapply reached_here.
      * right. exists d, sub. split; [apply elem_of_app; by left|done].
      * right. apply list_elem_of_omap in Hd as (tid & Htid & Hdirect).
        exists current_dag, sub. split; [apply elem_of_app; right; left|].
        split; [|done]. by eapply reached_deeper.
    + intros [Hin|(d & sub & [Hd|Hd]%elem_of_app & Hreach & Hid)].
      * left. apply elem_of_app. by left.
      * right. exists d, sub. split; [apply elem_of_app; by left|done].
      * apply list_elem_of_singleton in Hd as ->.
        destruct Hreach as [tid sub Htid Hdirect|tid sub0 sub Htid Hdirect Hdeep].
        -- left. apply elem_of_app. right. apply list_elem_of_fmap.
           exists sub. split; [done|]. apply list_elem_of_omap. by exists tid.
        -- right. exists sub0, sub. split; [|done]. apply elem_of_app. right.
           apply list_elem_of_omap. by exists tid.
  - injection Hloop as <- <-. split; [apply repaired_refl|].
    exists ids. split; [done|]. intros id. split; [by left|].
    intros [Hin|(d & sub & Hd & _)]; [done|].
    apply last_None in Hlast as ->. by apply elem_of_nil in Hd.
Qed.

(** What [set_state] has done and found when it comes to test [commit]:
    the task instances are as integrity verification leaves them, and the
    references are those of the candidate set. *)
Lemma affected_spec (fuel : nat) (task : BaseOperator) (dag : DAG)
    (rest : list (BaseOperator * option DAG))
    (execution_date : datetime) (upstream downstream future past : bool)
    (target : TaskInstanceState) (commit : bool) (s s' : Session)
    (keys : list TIKey) :
  affected fuel ((task, Some dag) :: rest) execution_date upstream downstream
    future past target commit s = Some (s', Returned keys) ->
  exists dates,
    _get_execution_dates coerce_datetime dag execution_date future past s
    = Returned dates /\
    forall k, k ∈ keys <->
      candidate dag
        (_find_task_relatives ((task, Some dag) :: rest).*1 downstream upstream)
        ((fun r => (dr_data_interval r).1) <$> DagRun_find (dag_id dag) dates s)
        target s' k.
Proof.
  unfold affected.
  destruct (negb (is_localized execution_date)); [done|].
  destruct (decide _); [done|].
  destruct (_get_execution_dates _ _ _ _ _ _) as [dates|e]; [|done].
  destruct (verify_dag_run_integrity_spec dag dates s) as (_ & _ & _ & Hdates).
  destruct (_verify_dag_run_integrity _ _ _ _) as [s0 infos]. simpl in Hdates.
  unfold _get_subdag_runs.
  destruct (sub_loop _ _ _ _ _ _ _ _) as [[s1 res]|] eqn:Hloop; [|done].
  destruct (subdag_loop_spec _ _ _ _ _ _ _ _ _ _ Hloop) as (_ & ids & -> & Hids).
  intros [= <- <-]. exists dates. split; [done|].
  rewrite <- Hdates. intros k. destruct k as [[[d t] r] i].
  unfold candidate. cbn [fst snd]. rewrite elem_of_app. split.
  - intros [Hk|Hk].
    + apply select_spec in Hk as (row & Hrow & Hp).
      apply andb_prop in Hp as [Hp Hst]. apply andb_prop in Hp as [Hp Ht].
      apply andb_prop in Hp as [Hd He].
      destruct (ti_execution_date (d, t, r, i) s1) as [e|] eqn:Hdate; [|done].
      exists row, e. split_and!; try done.
      * unfold state_differs in Hst. by apply bool_decide_eq_true in Hst.
      * by apply bool_decide_eq_true in He.
      * left. apply bool_decide_eq_true_1 in Hd, Ht. by split.
    + destruct (decide (ids = [])); [by apply elem_of_nil in Hk|].
      apply select_spec in Hk as (row & Hrow & Hp).
      apply andb_prop in Hp as [Hp Hst]. apply andb_prop in Hp as [Hd He].
      destruct (ti_execution_date (d, t, r, i) s1) as [e|] eqn:Hdate; [|done].
      exists row, e. split_and!; try done.
      * unfold state_differs in Hst. by apply bool_decide_eq_true in Hst.
      * by apply bool_decide_eq_true in He.
      * right. apply bool_decide_eq_true in Hd.
        apply Hids in Hd as [Hd|(d0 & sub & Hd0 & Hreach & Hid)];
          [by apply elem_of_nil in Hd|].
        apply list_elem_of_singleton in Hd0 as ->. by exists sub.
  - intros (row & e & Hrow & Hst & Hdate & He & Hscope).
    destruct Hscope as [[Hd Ht]|(sub & Hreach & Hd)].
    + left. apply select_spec. exists row. split; [done|].
      rewrite Hdate. unfold state_differs.
      by rewrite !bool_decide_eq_true_2.
    + right.
      assert (Hin : d ∈ ids).
      { apply Hids. right. exists dag, sub. split; [left|done]. }
      destruct (decide (ids = [])) as [->|_]; [by apply elem_of_nil in Hin|].
      apply select_spec. exists row. split; [done|].
      rewrite Hdate. unfold state_differs.
      by rewrite !bool_decide_eq_true_2.
Qed.

Lemma affected_repaired (fuel : nat) (tasks : list (BaseOperator * option DAG))
    (execution_date : datetime) (upstream downstream future past : bool)
    (target : TaskInstanceState) (commit : bool) (s s' : Session)
    (res : outcome (list TIKey)) :
  affected fuel tasks execution_date upstream downstream future past target
    commit s = Some (s', res) ->
  repaired_ (ti_table s) (ti_table s').
Proof.
  unfold affected.
  destruct tasks as [|[op first_dag] rest].
  { intros [= <- <-]. apply repaired_refl. }
  destruct (negb (is_localized execution_date)).
  { intros [= <- <-]. apply repaired_refl. }
  destruct (decide _).
  { intros [= <- <-]. apply repaired_refl. }
  destruct first_dag as [dag|].
  2:{ intros [= <- <-]. apply repaired_refl. }
  destruct (_get_execution_dates _ _ _ _ _ _) as [dates|e].
  2:{ intros [= <- <-]. apply repaired_refl. }
  destruct (verify_dag_run_integrity_spec dag dates s) as (Hv & _).
  destruct (_verify_dag_run_integrity _ _ _ _) as [s0 infos]. simpl in Hv.
  unfold _get_subdag_runs.
  destruct (sub_loop _ _ _ _ _ _ _ _) as [[s1 res1]|] eqn:Hloop; [|done].
  destruct (subdag_loop_spec _ _ _ _ _ _ _ _ _ _ Hloop) as (Hrep & ids & -> & _).
  intros [= <- <-]. by eapply repaired_trans.
Qed.

(** **** What the commit branch does *)

(** [row'] is [row] after the loop body of the commit branch, once or more
    often: the target state; under a finished target an end date read from
    the clock and the duration recomputed from it; all else as it was. *)
Definition altered (target : TaskInstanceState) (row row' : TIRow) : Prop :=
  state row' = Some target /\
  try_number row' = try_number row /\
  start_date row' = start_date row /\
  (finished target = true ->
   (exists n, end_date row' = Some (utcnow_at n)) /\
   duration row' = duration (set_duration row')) /\
  (finished target = false ->
   end_date row' = end_date row /\ duration row' = duration row).

Lemma altered_trans (target : TaskInstanceState) (r1 r2 r3 : TIRow) :
  altered target r1 r2 -> altered target r2 r3 -> altered target r1 r3.
Proof.
  intros (H1 & H2 & H3 & H4 & H5) (G1 & G2 & G3 & G4 & G5).
  split_and!; try congruence; try done.
  intros Hf. destruct (H5 Hf), (G5 Hf). split; congruence.
Qed.

Lemma alter_lookup (target : TaskInstanceState) (k : TIKey) (s : Session) :
  (forall k', k' <> k -> ti_table (alter_ target k s) !! k' = ti_table s !! k') /\
  (forall row, ti_table s !! k = Some row ->
     exists row', ti_table (alter_ target k s) !! k = Some row' /\
                  altered target row row') /\
  (ti_table s !! k = None -> ti_table (alter_ target k s) !! k = None).
Proof.
  unfold alter. destruct (ti_table s !! k) as [row|] eqn:Hrow.
  - destruct (finished target) eqn:Hfin; simpl; split_and!.
    + intros k' Hne. by apply lookup_insert_ne.
    + intros row0 [= <-]. eexists. split; [apply lookup_insert_eq|].
      unfold altered. rewrite Hfin. split_and!; try done.
      intros _. split; [by exists (clock s)|done].
    + done.
    + intros k' Hne. by apply lookup_insert_ne.
    + intros row0 [= <-]. eexists. split; [apply lookup_insert_eq|].
      unfold altered. rewrite Hfin. by split_and!.
    + done.
  - split_and!; [done|done|done].
Qed.

Lemma foldl_alter_lookup (target : TaskInstanceState) (keys : list TIKey) :
  forall s,
    let s' := foldl (fun s k => alter_ target k s) s keys in
    (forall k, k ∉ keys -> ti_table s' !! k = ti_table s !! k) /\
    (forall k row, k ∈ keys -> ti_table s !! k = Some row ->
       exists row', ti_table s' !! k = Some row' /\ altered target row row') /\
    (forall k, ti_table s !! k = None -> ti_table s' !! k = None).
Proof.
  induction keys as [|k0 keys IH]; intros s; simpl.
  - split_and!; [done| |done]. intros k row Hin. by apply elem_of_nil in Hin.
  - destruct (alter_lookup target k0 s) as (Hother & Hsame & Hnone).
    destruct (IH (alter_ target k0 s)) as (IH1 & IH2 & IH3).
    split_and!.
    + intros k Hk. apply not_elem_of_cons in Hk as [Hne Hk].
      rewrite IH1 by done. by apply Hother.
    + intros k row Hin Hrow.
      destruct (decide (k = k0)) as [->|Hne].
      * destruct (Hsame row Hrow) as (row1 & Hrow1 & Halt1).
        destruct (decide (k0 ∈ keys)) as [Hin'|Hnotin].
        -- destruct (IH2 k0 row1 Hin' Hrow1) as (row2 & Hrow2 & Halt2).
           exists row2. split; [done|]. by eapply altered_trans.
        -- exists row1. split; [|done]. by rewrite IH1.
      * apply elem_of_cons in Hin as [|Hin]; [done|].
        apply IH2; [done|]. by rewrite Hother.
    + intros k Hk. apply IH3.
      destruct (decide (k = k0)) as [->|Hne]; [by apply Hnone|].
      by rewrite Hother.
Qed.

Lemma instances_spec (keys : list TIKey) (s : Session) :
  (forall k, k ∈ keys -> is_Some (ti_table s !! k)) ->
  ti_key <$> instances keys s = keys /\
  Forall (fun ti => ti_table s !! ti_key ti = Some (ti_row ti)) (instances keys s).
Proof.
  unfold instances. induction keys as [|k keys IH]; intros Hall; simpl.
  - split; [done|constructor].
  - destruct (Hall k ltac:(left)) as [row Hrow]. rewrite Hrow. simpl.
    destruct IH as [IH1 IH2]; [intros k' Hk'; apply Hall; by right|].
    split.
    + change (ti_key (ti_of k row) :: (ti_key <$> omap
                (fun k => ti_of k <$> ti_table s !! k) keys) = k :: keys).
      f_equal; [|done]. by destruct k as [[[d t] r] i].
    + constructor; [|done]. by destruct k as [[[d t] r] i].
Qed.

(** The references [affected] returns denote stored rows whose state is not
    the target state. *)
Lemma affected_selected (fuel : nat) (tasks : list (BaseOperator * option DAG))
    (execution_date : datetime) (upstream downstream future past : bool)
    (target : TaskInstanceState) (commit : bool) (s s' : Session)
    (keys : list TIKey) :
  affected fuel tasks execution_date upstream downstream future past target
    commit s = Some (s', Returned keys) ->
  forall k, k ∈ keys ->
    exists row, ti_table s' !! k = Some row /\ state row <> Some target.
Proof.
  unfold affected.
  destruct tasks as [|[op first_dag] rest].
  { intros [= <- <-] k Hk. by apply elem_of_nil in Hk. }
  destruct (negb (is_localized execution_date)); [done|].
  destruct (decide _); [done|].
  destruct first_dag as [dag|]; [|done].
  destruct (_get_execution_dates _ _ _ _ _ _) as [dates|e]; [|done].
  destruct (_verify_dag_run_integrity _ _ _ _) as [s0 infos].
  destruct (_get_subdag_runs _ _ _ _ _ _ _ _ _ _) as [[s1 [ids|e]]|]; [|done|done].
  intros [= <- <-] k Hk.
  assert (Hsel : exists p, k ∈ select p s1 /\
                   forall k r, p k r = true -> state_differs target r = true).
  { apply elem_of_app in Hk as [Hk|Hk].
    - eexists. split; [exact Hk|]. intros [[[d t] r] i] row Hp.
      by apply andb_prop in Hp as [_ Hp].
    - destruct (decide (ids = [])); [by apply elem_of_nil in Hk|].
      eexists. split; [exact Hk|]. intros [[[d t] r] i] row Hp.
      by apply andb_prop in Hp as [_ Hp]. }
  destruct Hsel as (p & Hin & Hp).
  apply select_spec in Hin as (row & Hrow & Hprow).
  exists row. split; [done|].
  apply Hp in Hprow. unfold state_differs in Hprow.
  by apply bool_decide_eq_true in Hprow.
Qed.

(** **** The commit flag before the commit branch

    Before the two queries [commit] only decides whether the runs of the
    sub-workflows get the target state; nothing read later depends on the
    state of a run. *)

(** Two rows of [dag_run] that differ at most in their state. *)
Definition same_run (r1 r2 : DagRun) : Prop :=
  set_run_state QUEUED r1 = set_run_state QUEUED r2.

Definition same_runs : list DagRun -> list DagRun -> Prop := Forall2 same_run.

Definition same_session (s1 s2 : Session) : Prop :=
  ti_table s1 = ti_table s2 /\ clock s1 = clock s2 /\
  same_runs (run_table s1) (run_table s2).

Definition same_dict (d1 d2 : RunDict) : Prop :=
  Forall2 (fun kv1 kv2 => kv1.1 = kv2.1 /\ same_run kv1.2 kv2.2) d1 d2.

(** Outcomes that agree: both raise the same exception, or both return, the
    values related. *)
Definition same_outcome {A : Type} (R : A -> A -> Prop) (o1 o2 : outcome A) : Prop :=
  match o1, o2 with
  | Returned a1, Returned a2 => R a1 a2
  | Raised e1, Raised e2 => e1 = e2
  | _, _ => False
  end.

Lemma same_run_fields (r1 r2 : DagRun) :
  same_run r1 r2 ->
  dr_dag_id r1 = dr_dag_id r2 /\ dr_run_id r1 = dr_run_id r2 /\
  dr_execution_date r1 = dr_execution_date r2 /\
  dr_data_interval r1 = dr_data_interval r2.
Proof. destruct r1, r2. unfold same_run, set_run_state. simpl. by intros [= -> -> -> -> -> -> ->]. Qed.

Lemma same_run_refl (r : DagRun) : same_run r r.
Proof. done. Qed.

Lemma same_runs_refl (l : list DagRun) : same_runs l l.
Proof. apply Forall_Forall2_diag, Forall_forall. intros r _. apply same_run_refl. Qed.

Lemma same_session_refl (s : Session) : same_session s s.
Proof. unfold same_session. split_and!; [done|done|apply same_runs_refl]. Qed.

Lemma same_run_set_state_l (st : TaskInstanceState) (r1 r2 : DagRun) :
  same_run r1 r2 -> same_run (set_run_state st r1) r2.
Proof. destruct r1, r2. unfold same_run, set_run_state. simpl. by intros [= -> -> -> -> -> -> ->]. Qed.

Lemma same_run_set_state_r (st : TaskInstanceState) (r1 r2 : DagRun) :
  same_run r1 r2 -> same_run r1 (set_run_state st r2).
Proof. destruct r1, r2. unfold same_run, set_run_state. simpl. by intros [= -> -> -> -> -> -> ->]. Qed.

Lemma same_runs_filter (P : DagRun -> Prop) `{forall r, Decision (P r)}
    (l1 l2 : list DagRun) :
  (forall r1 r2, same_run r1 r2 -> (P r1 <-> P r2)) ->
  same_runs l1 l2 -> same_runs (filter P l1) (filter P l2).
Proof.
  intros HP Hl. induction Hl as [|r1 r2 l1 l2 Hr Hl IH]; [constructor|].
  rewrite !filter_cons. destruct (decide (P r1)) as [H1|H1].
  - rewrite decide_True by (by apply (HP r1 r2)). by constructor.
  - rewrite decide_False by (by rewrite <- (HP r1 r2)). done.
Qed.

Lemma find_same (dag_id : string) (dates : list datetime) (s1 s2 : Session) :
  same_session s1 s2 ->
  same_runs (DagRun_find dag_id dates s1) (DagRun_find dag_id dates s2).
Proof.
  intros (_ & _ & Hruns). unfold DagRun_find. apply same_runs_filter; [|done].
  intros r1 r2 Hr. destruct (same_run_fields r1 r2 Hr) as (-> & _ & -> & _). done.
Qed.

Lemma dict_keys_same (d1 d2 : RunDict) : same_dict d1 d2 -> d1.*1 = d2.*1.
Proof.
  intros Hd. induction Hd as [|kv1 kv2 d1 d2 [Hk _] Hd IH]; [done|].
  rewrite !fmap_cons. by rewrite Hk, IH.
Qed.

Lemma dict_values_same (d1 d2 : RunDict) :
  same_dict d1 d2 -> same_runs (dict_values d1) (dict_values d2).
Proof.
  intros Hd. unfold dict_values.
  induction Hd as [|kv1 kv2 d1 d2 [_ Hv] Hd IH]; [constructor|].
  rewrite !fmap_cons. by constructor.
Qed.

Lemma dict_set_same (k : DataInterval) (v1 v2 : DagRun) (d1 d2 : RunDict) :
  same_run v1 v2 -> same_dict d1 d2 ->
  same_dict (dict_set k v1 d1) (dict_set k v2 d2).
Proof.
  intros Hv Hd. induction Hd as [|[k1 w1] [k2 w2] d1 d2 [Hk Hw] Hd IH]; simpl.
  - by repeat constructor.
  - simpl in Hk. subst k2. destruct (decide (k1 = k)).
    + by repeat constructor.
    + by repeat constructor.
Qed.

Lemma found_dict_same (dag : DAG) (found1 found2 : list DagRun) :
  same_runs found1 found2 ->
  forall d1 d2, same_dict d1 d2 ->
    same_dict
      (foldl (fun d run => dict_set (get_run_data_interval dag run) run d) d1 found1)
      (foldl (fun d run => dict_set (get_run_data_interval dag run) run d) d2 found2).
Proof.
  intros Hf. induction Hf as [|r1 r2 l1 l2 Hr Hl IH]; intros d1 d2 Hd; simpl;
    [done|].
  apply IH. unfold get_run_data_interval.
  destruct (same_run_fields r1 r2 Hr) as (_ & _ & _ & ->).
  by apply dict_set_same.
Qed.

Lemma create_dagrun_same (dag : DAG) (d : datetime) (di : DataInterval)
    (start : Z) (ext : bool) (st : TaskInstanceState) (rt : DagRunType)
    (s1 s2 : Session) :
  same_session s1 s2 ->
  same_session (create_dagrun generate_run_id dag d di start ext st rt s1).1
               (create_dagrun generate_run_id dag d di start ext st rt s2).1 /\
  same_outcome same_run
    (create_dagrun generate_run_id dag d di start ext st rt s1).2
    (create_dagrun generate_run_id dag d di start ext st rt s2).2.
Proof.
  intros Hs. pose proof Hs as (Hti & Hclock & Hruns). unfold create_dagrun.
  assert (Hf : same_runs
                 (filter (fun r => dr_dag_id r = dag_id dag /\
                                   dr_execution_date r = d) (run_table s1))
                 (filter (fun r => dr_dag_id r = dag_id dag /\
                                   dr_execution_date r = d) (run_table s2))).
  { apply same_runs_filter; [|done]. intros r1 r2 Hr.
    destruct (same_run_fields r1 r2 Hr) as (-> & _ & -> & _). done. }
  destruct Hf as [|r1 r2 l1 l2 Hr _]; simpl.
  - split; [|apply same_run_refl]. unfold same_session. simpl.
    split_and!; [done|done|].
    apply Forall2_app; [done|]. constructor; [apply same_run_refl|constructor].
  - split; [exact Hs|done].
Qed.

Lemma create_missing_same (dag : DAG) (st : TaskInstanceState) (rt : DagRunType)
    (infos : list DagRunInfo) :
  forall d1 d2 s1 s2,
    same_dict d1 d2 -> same_session s1 s2 ->
    same_session (create_missing utcnow_at generate_run_id dag infos st rt d1 s1).1
                 (create_missing utcnow_at generate_run_id dag infos st rt d2 s2).1 /\
    same_outcome same_dict
      (create_missing utcnow_at generate_run_id dag infos st rt d1 s1).2
      (create_missing utcnow_at generate_run_id dag infos st rt d2 s2).2.
Proof.
  induction infos as [|info infos IH]; intros d1 d2 s1 s2 Hd Hs; simpl; [done|].
  unfold dict_contains. rewrite (dict_keys_same d1 d2 Hd).
  destruct (bool_decide _); [by apply IH|].
  destruct s1 as [t1 r1 c1], s2 as [t2 r2 c2].
  destruct Hs as (Hti & Hclock & Hruns). simpl in Hti, Hclock, Hruns.
  subst t2 c2. cbn [utcnow ti_table run_table clock].
  assert (Hs' : same_session (mkSession t1 r1 (S c1)) (mkSession t1 r2 (S c1)))
    by (unfold same_session; simpl; by split_and!).
  destruct (create_dagrun_same dag (logical_date info) (data_interval info)
              (utcnow_at c1) false st rt _ _ Hs') as [Hsess Hout].
  destruct (create_dagrun generate_run_id dag (logical_date info) (data_interval info)
              (utcnow_at c1) false st rt (mkSession t1 r1 (S c1)))
    as [s1' [run1|e1]];
  destruct (create_dagrun generate_run_id dag (logical_date info) (data_interval info)
              (utcnow_at c1) false st rt (mkSession t1 r2 (S c1)))
    as [s2' [run2|e2]]; simpl in Hsess, Hout; try done.
  apply IH; [|done]. by apply dict_set_same.
Qed.

Lemma create_dagruns_same (dag : DAG) (infos : list DagRunInfo)
    (st : TaskInstanceState) (rt : DagRunType) (s1 s2 : Session) :
  same_session s1 s2 ->
  same_session (create_runs dag infos st rt s1).1 (create_runs dag infos st rt s2).1 /\
  same_outcome same_runs (create_runs dag infos st rt s1).2
                         (create_runs dag infos st rt s2).2.
Proof.
  intros Hs. unfold _create_dagruns.
  pose proof (found_dict_same dag _ _
                (find_same (dag_id dag) (logical_date <$> infos) s1 s2 Hs)
                [] [] ltac:(constructor)) as Hd.
  destruct (create_missing_same dag st rt infos _ _ s1 s2 Hd Hs) as [Hsess Hout].
  destruct (create_missing _ _ _ _ _ _ _ s1) as [s1' [d1|e1]];
  destruct (create_missing _ _ _ _ _ _ _ s2) as [s2' [d2|e2]];
    simpl in Hsess, Hout; try done.
  split; [done|]. simpl. by apply dict_values_same.
Qed.

Lemma merge_run_state_same_l (run : DagRun) (st : TaskInstanceState)
    (s1 s2 : Session) :
  same_session s1 s2 -> same_session (merge_run_state run st s1) s2.
Proof.
  intros (Hti & Hclock & Hruns). unfold merge_run_state, same_session. simpl.
  split_and!; [done|done|].
  apply Forall2_fmap_l. eapply Forall2_impl; [exact Hruns|].
  intros r1 r2 Hr. simpl. destruct (decide _); [|done].
  by apply same_run_set_state_l.
Qed.

Lemma merge_run_state_same_r (run : DagRun) (st : TaskInstanceState)
    (s1 s2 : Session) :
  same_session s1 s2 -> same_session s1 (merge_run_state run st s2).
Proof.
  intros (Hti & Hclock & Hruns). unfold merge_run_state, same_session. simpl.
  split_and!; [done|done|].
  apply Forall2_fmap_r. eapply Forall2_impl; [exact Hruns|].
  intros r1 r2 Hr. simpl. destruct (decide _); [|done].
  by apply same_run_set_state_r.
Qed.

Lemma verify_dagruns_same (runs1 runs2 : list DagRun) (c1 c2 : bool)
    (target : TaskInstanceState) (sub : DAG) :
  same_runs runs1 runs2 ->
  forall s1 s2, same_session s1 s2 ->
    same_session (verify_runs runs1 c1 target sub s1)
                 (verify_runs runs2 c2 target sub s2).
Proof.
  intros Hruns. unfold _verify_dagruns.
  induction Hruns as [|r1 r2 l1 l2 Hr Hl IH]; intros s1 s2 Hs; simpl; [done|].
  apply IH. destruct (same_run_fields r1 r2 Hr) as (_ & -> & _ & _).
  assert (Hv : same_session
                 (with_tis (verify_integrity sub (dr_run_id r2) (ti_table s1)) s1)
                 (with_tis (verify_integrity sub (dr_run_id r2) (ti_table s2)) s2)).
  { destruct Hs as (Hti & Hclock & Hrt). unfold same_session. simpl.
    split_and!; [by rewrite Hti|done|done]. }
  destruct c1, c2; try done.
  - by apply merge_run_state_same_l, merge_run_state_same_r.
  - by apply merge_run_state_same_l.
  - by apply merge_run_state_same_r.
Qed.

Lemma visit_tasks_same (current_dag : DAG) (target : TaskInstanceState)
    (c1 c2 : bool) (infos : list DagRunInfo) (task_ids : list string) :
  forall dags ids s1 s2,
    same_session s1 s2 ->
    same_session (visit current_dag task_ids target c1 infos dags ids s1).1
                 (visit current_dag task_ids target c2 infos dags ids s2).1 /\
    same_outcome eq (visit current_dag task_ids target c1 infos dags ids s1).2
                    (visit current_dag task_ids target c2 infos dags ids s2).2.
Proof.
  induction task_ids as [|id task_ids IH]; intros dags ids s1 s2 Hs; simpl; [done|].
  destruct (get_task current_dag id) as [task|]; [|by apply IH].
  destruct (negb _ && negb _); [by apply IH|].
  destruct (subdag task) as [sub|]; [|by apply IH].
  destruct (create_dagruns_same sub infos RUNNING BACKFILL_JOB s1 s2 Hs)
    as [Hsess Hout].
  destruct (create_runs sub infos RUNNING BACKFILL_JOB s1) as [s1' [runs1|e1]];
  destruct (create_runs sub infos RUNNING BACKFILL_JOB s2) as [s2' [runs2|e2]];
    simpl in Hsess, Hout; try done.
  apply IH. by apply verify_dagruns_same.
Qed.

(** Agreement of two runs of the loop: out of turns together, or ended
    alike. *)
Definition same_result {A : Type} (r1 r2 : option (Session * outcome A)) : Prop :=
  match r1, r2 with
  | Some (s1, o1), Some (s2, o2) => same_session s1 s2 /\ same_outcome eq o1 o2
  | None, None => True
  | _, _ => False
  end.

Lemma subdag_loop_same (fuel : nat) (task_ids : list string)
    (target : TaskInstanceState) (c1 c2 : bool) (infos : list DagRunInfo) :
  forall dags ids s1 s2,
    same_session s1 s2 ->
    same_result (sub_loop fuel task_ids target c1 infos dags ids s1)
                (sub_loop fuel task_ids target c2 infos dags ids s2).
Proof.
  induction fuel as [|fuel IH]; intros dags ids s1 s2 Hs; simpl; [done|].
  destruct (last dags) as [current_dag|]; [|done].
  destruct (visit_tasks_same current_dag target c1 c2 infos task_ids
              (removelast dags) ids s1 s2 Hs) as [Hsess Hout].
  destruct (visit current_dag task_ids target c1 infos (removelast dags) ids s1)
    as [s1' [[dags1 ids1]|e1]];
  destruct (visit current_dag task_ids target c2 infos (removelast dags) ids s2)
    as [s2' [[dags2 ids2]|e2]]; simpl in Hsess, Hout; try done.
  injection Hout as -> ->. by apply IH.
Qed.

Lemma ti_execution_date_same (k : TIKey) (s1 s2 : Session) :
  same_session s1 s2 -> ti_execution_date k s1 = ti_execution_date k s2.
Proof.
  intros (_ & _ & Hruns). destruct k as [[[d t] r] i]. unfold ti_execution_date.
  assert (Hf : same_runs
                 (filter (fun run => dr_dag_id run = d /\ dr_run_id run = r)
                         (run_table s1))
                 (filter (fun run => dr_dag_id run = d /\ dr_run_id run = r)
                         (run_table s2))).
  { apply same_runs_filter; [|done]. intros r1 r2 Hr.
    destruct (same_run_fields r1 r2 Hr) as (-> & -> & _). done. }
  destruct Hf as [|r1 r2 l1 l2 Hr _]; [done|]. simpl.
  by destruct (same_run_fields r1 r2 Hr) as (_ & _ & -> & _).
Qed.

Lemma select_same (p1 p2 : TIKey -> TIRow -> bool) (s1 s2 : Session) :
  same_session s1 s2 -> (forall k r, p1 k r = p2 k r) ->
  select p1 s1 = select p2 s2.
Proof.
  intros (Hti & _ & _) Hp. unfold select. rewrite Hti. f_equal.
  apply list_filter_iff. intros [k r]. simpl. by rewrite Hp.
Qed.

Lemma affected_same (fuel : nat) (tasks : list (BaseOperator * option DAG))
    (execution_date : datetime) (upstream downstream future past : bool)
    (target : TaskInstanceState) (c1 c2 : bool) (s : Session) :
  same_result
    (affected fuel tasks execution_date upstream downstream future past target c1 s)
    (affected fuel tasks execution_date upstream downstream future past target c2 s).
Proof.
  unfold affected.
  destruct tasks as [|[op first_dag] rest].
  { split; [apply same_session_refl|done]. }
  destruct (negb (is_localized execution_date)).
  { split; [apply same_session_refl|done]. }
  destruct (decide _).
  { split; [apply same_session_refl|done]. }
  destruct first_dag as [dag|].
  2:{ split; [apply same_session_refl|done]. }
  destruct (_get_execution_dates _ _ _ _ _ _) as [dates|e].
  2:{ split; [apply same_session_refl|done]. }
  destruct (_verify_dag_run_integrity _ _ _ _) as [s0 infos].
  unfold _get_subdag_runs.
  pose proof (subdag_loop_same fuel
                (_find_task_relatives ((op, Some dag) :: rest).*1 downstream upstream)
                target c1 c2 infos [dag] [] s0 s0 (same_session_refl s0)) as Hloop.
  destruct (sub_loop _ _ _ c1 _ _ _ _) as [[s1 [ids1|e1]]|];
  destruct (sub_loop _ _ _ c2 _ _ _ _) as [[s2 [ids2|e2]]|];
    simpl in Hloop; try done.
  destruct Hloop as [Hs ->]. split; [done|]. simpl. f_equal.
  - apply select_same; [done|]. intros [[[d t] r] i] row.
    by rewrite (ti_execution_date_same _ s1 s2 Hs).
  - destruct (decide (ids2 = [])); [done|].
    apply select_same; [done|]. intros [[[d t] r] i] row.
    by rewrite (ti_execution_date_same _ s1 s2 Hs).
Qed.

(** **** The traversal of the sub-workflows ends

    A DAG is a finite tree of nested DAGs, so the stack of [_get_subdag_runs]
    empties. *)

Lemma turns_of_unfold (n : nat) (dag : DAG) :
  turns_of n dag = S (n * nested_turns n (tasks dag)).
Proof.
  destruct dag as [? ? ? ? ? ? ? ts]. simpl. do 2 f_equal.
  unfold nested_turns. induction ts as [|t ts IH]; simpl; [done|].
  by rewrite IH.
Qed.

Lemma nested_turns_elem (n : nat) (l : list BaseOperator) (task : BaseOperator)
    (sub : DAG) :
  task ∈ l -> subdag task = Some sub -> (turns_of n sub <= nested_turns n l)%nat.
Proof.
  intros Hin Hsub. unfold nested_turns.
  induction l as [|t' l IH]; [by apply elem_of_nil in Hin|].
  rewrite fmap_cons. cbn [sum_list_with].
  apply elem_of_cons in Hin as [<-|Hin].
  - rewrite Hsub. unfold id at 1. lia.
  - specialize (IH Hin). lia.
Qed.

Lemma get_task_elem (dag : DAG) (id : string) (task : BaseOperator) :
  get_task dag id = Some task -> task ∈ tasks dag.
Proof.
  unfold get_task. intros Hhead.
  assert (Hin : task ∈ filter (fun t => task_id t = id) (tasks dag)).
  { destruct (filter _ _) as [|x l]; [done|]. injection Hhead as ->. left. }
  apply list_elem_of_filter in Hin. tauto.
Qed.

Lemma stack_turns_one (n : nat) (dag : DAG) :
  stack_turns n [dag] = turns_of n dag.
Proof.
  unfold stack_turns. cbn [fmap list_fmap sum_list_with]. unfold id. lia.
Qed.

Lemma stack_turns_app (n : nat) (l k : list DAG) :
  stack_turns n (l ++ k) = (stack_turns n l + stack_turns n k)%nat.
Proof. unfold stack_turns. by rewrite fmap_app, sum_list_with_app. Qed.

Lemma visit_tasks_pushes (current_dag : DAG) (target : TaskInstanceState)
    (commit : bool) (infos : list DagRunInfo) (n : nat) (task_ids : list string) :
  forall (dags : list DAG) (ids : list string) (s s' : Session)
         (dags' : list DAG) (ids' : list string),
    visit current_dag task_ids target commit infos dags ids s
      = (s', Returned (dags', ids')) ->
    (stack_turns n dags'
     <= stack_turns n dags
        + length task_ids * nested_turns n (tasks current_dag))%nat.
Proof.
  induction task_ids as [|id task_ids IH]; intros dags ids s s' dags' ids' Hvisit;
    simpl in Hvisit.
  - injection Hvisit as <- <- <-. lia.
  - assert (Hskip : forall (s0 : Session) (dags0 : list DAG) (ids0 : list string),
              visit current_dag task_ids target commit infos dags0 ids0 s0
                = (s', Returned (dags', ids')) ->
              (stack_turns n dags'
               <= stack_turns n dags0
                  + length (id :: task_ids)
                    * nested_turns n (tasks current_dag))%nat).
    { intros s0 dags0 ids0 H0. specialize (IH _ _ _ _ _ _ H0). simpl. lia. }
    destruct (get_task current_dag id) as [task|] eqn:Htask; [|by eapply Hskip].
    destruct (negb _ && negb _); [by eapply Hskip|].
    destruct (subdag task) as [sub|] eqn:Hsub; [|by eapply Hskip].
    destruct (create_runs sub infos RUNNING BACKFILL_JOB s) as [s1 [runs|e]];
      [|discriminate].
    specialize (IH _ _ _ _ _ _ Hvisit). rewrite stack_turns_app in IH.
    pose proof (nested_turns_elem n (tasks current_dag) task sub
                  (get_task_elem _ _ _ Htask) Hsub) as Hle.
    rewrite stack_turns_one in IH. cbn [length]. lia.
Qed.

Lemma subdag_loop_ends (task_ids : list string) (target : TaskInstanceState)
    (commit : bool) (infos : list DagRunInfo) (fuel : nat) :
  forall (dags : list DAG) (ids : list string) (s : Session),
    (stack_turns (length task_ids) dags < fuel)%nat ->
    is_Some (sub_loop fuel task_ids target commit infos dags ids s).
Proof.
  induction fuel as [|fuel IH]; intros dags ids s Hfuel; [lia|].
  simpl. destruct (last dags) as [current_dag|] eqn:Hlast; [|eauto].
  apply last_Some in Hlast as [rest ->].
  rewrite removelast_last.
  destruct (visit current_dag task_ids target commit infos rest ids s)
    as [s1 [[dags' ids']|e]] eqn:Hvisit; [|eauto].
  apply IH.
  pose proof (visit_tasks_pushes current_dag target commit infos (length task_ids)
                task_ids _ _ _ _ _ _ Hvisit) as Hpush.
  rewrite stack_turns_app in Hfuel.
  rewrite stack_turns_one, turns_of_unfold in Hfuel. lia.
Qed.

(** With the turns the nesting of its DAG calls for, [set_state] ends: it
    returns or it raises. *)
Lemma set_state_ends (tasks : list (BaseOperator * option DAG))
    (execution_date : datetime) (upstream downstream future past : bool)
    (target : TaskInstanceState) (commit : bool) (s : Session) :
  exists fuel : nat,
    is_Some (set_state_ fuel tasks execution_date upstream downstream future
               past target commit s).
Proof.
  destruct tasks as [|[op [dag|]] rest].
  - exists 0%nat. simpl. eauto.
  - exists (S (turns_of (length (_find_task_relatives ((op, Some dag) :: rest).*1
                                   downstream upstream)) dag)).
    unfold set_state.
    destruct (negb (is_localized execution_date)); [eauto|].
    destruct (decide _); [eauto|].
    destruct (_get_execution_dates _ _ _ _ _ _) as [dates|e]; [|eauto].
    destruct (_verify_dag_run_integrity _ _ _ _) as [s0 infos].
    unfold _get_subdag_runs.
    destruct (subdag_loop_ends
                (_find_task_relatives ((op, Some dag) :: rest).*1 downstream upstream)
                target commit infos
                (S (turns_of (length (_find_task_relatives
                                        ((op, Some dag) :: rest).*1
                                        downstream upstream)) dag))
                [dag] [] s0) as [[s1 [ids|e]] Heq].
    + rewrite stack_turns_one. lia.
    + rewrite Heq. eauto.
    + rewrite Heq. eauto.
  - exists 0%nat. unfold set_state.
    destruct (negb (is_localized execution_date)); [eauto|].
    destruct (decide _); eauto.
Qed.


End Propagator.



End MarkTasksFacts.
